(** * caffe::cpu -- CPU topology collection and OpenMP thread binding

    A shallow embedding of [src/caffe/util/cpu_info.cpp]: the
    [/proc/cpuinfo] parser of [Collection], the aggregation of sockets and
    cores, the extraction of the clock speed from the model name, and the
    affinity sets and binding operations of [OpenMpManager].

    Conventions.
    - [unsigned] is a 32-bit integer, kept as a [Z] in [0, 2^32); every
      operation of the source that can leave that range is written with
      [to_unsigned].
    - [double] is IEEE 754 binary64 as specified by [SpecFloat] (the
      specification of the primitive floats, taken from Flocq), with
      round-to-nearest-even for every operation.
    - C strings are [string]s (the terminating NUL is implicit).
    - A function of the source that can abort ([LOG(FATAL)]) or whose
      behaviour the language leaves undefined returns an [outcome]. *)

From Stdlib Require Import ZArith List String Ascii Bool Lia SpecFloat ListSet Sorted.
Import ListNotations.

Local Open Scope string_scope.
Local Open Scope Z_scope.

(** ** Outcomes of a call *)

Inductive outcome (A : Type) : Type :=
| Done (a : A)   (* the call returns *)
| Fatal          (* LOG(FATAL): the process is aborted *)
| Undefined.     (* the C++ standard gives the execution no meaning *)

Arguments Done {A} a.
Arguments Fatal {A}.
Arguments Undefined {A}.

Definition bind {A B : Type} (x : outcome A) (f : A -> outcome B) : outcome B :=
  match x with
  | Done a => f a
  | Fatal => Fatal
  | Undefined => Undefined
  end.

Notation "x <- c1 ;; c2" := (bind c1 (fun x => c2))
  (at level 61, c1 at next level, right associativity).

(** ** Machine integers *)

Definition UINT_MODULUS : Z := 2 ^ 32.
Definition INT_MAX : Z := 2 ^ 31 - 1.
Definition LONG_MIN : Z := - 2 ^ 63.
Definition LONG_MAX : Z := 2 ^ 63 - 1.

(** Conversion of an integer value to [unsigned]. *)
Definition to_unsigned (z : Z) : Z := z mod UINT_MODULUS.

(** ** The C library, as far as the source uses it *)

Definition isspace (c : ascii) : bool :=
  let n := Z.of_nat (nat_of_ascii c) in
  (n =? 32) || ((9 <=? n) && (n <=? 13)).

Definition digit_value (c : ascii) : option Z :=
  let n := Z.of_nat (nat_of_ascii c) in
  if (48 <=? n) && (n <=? 57) then Some (n - 48) else None.

Definition hex_digit_value (c : ascii) : option Z :=
  let n := Z.of_nat (nat_of_ascii c) in
  if (48 <=? n) && (n <=? 57) then Some (n - 48)
  else if (97 <=? n) && (n <=? 102) then Some (n - 87)
  else if (65 <=? n) && (n <=? 70) then Some (n - 55)
  else None.

Definition tolower (c : ascii) : ascii :=
  let n := nat_of_ascii c in
  if (65 <=? Z.of_nat n) && (Z.of_nat n <=? 90) then ascii_of_nat (n + 32) else c.

Fixpoint skip_spaces (s : string) : string :=
  match s with
  | String c s' => if isspace c then skip_spaces s' else s
  | EmptyString => s
  end.

(** [&s[n]] for [n <= strlen s]. *)
Fixpoint string_drop (n : nat) (s : string) : string :=
  match n, s with
  | O, _ => s
  | S n', String _ s' => string_drop n' s'
  | S _, EmptyString => EmptyString
  end.

Fixpoint string_mem (c : ascii) (s : string) : bool :=
  match s with
  | EmptyString => false
  | String d s' => Ascii.eqb c d || string_mem c s'
  end.

(** [strcspn s reject]: length of the longest prefix of [s] free of the
    characters of [reject]. *)
Fixpoint strcspn (s reject : string) : nat :=
  match s with
  | EmptyString => O
  | String c s' => if string_mem c reject then O else S (strcspn s' reject)
  end.

(** [strstr haystack needle]: the suffix of [haystack] that starts at the
    first occurrence of [needle], [None] for the null pointer. *)
Fixpoint strstr (haystack needle : string) : option string :=
  if String.prefix needle haystack then Some haystack
  else match haystack with
       | EmptyString => None
       | String _ rest => strstr rest needle
       end.

(** [strncmp s1 s2 n]: sign of the comparison of at most [n] characters. *)
Fixpoint strncmp (s1 s2 : string) (n : nat) : Z :=
  match n with
  | O => 0
  | S n' =>
    match s1, s2 with
    | EmptyString, EmptyString => 0
    | EmptyString, String _ _ => -1
    | String _ _, EmptyString => 1
    | String c1 s1', String c2 s2' =>
      if Ascii.eqb c1 c2 then strncmp s1' s2' n'
      else if (nat_of_ascii c1 <? nat_of_ascii c2)%nat then -1 else 1
    end
  end.

(** Reads a run of digits in base [base], most significant first:
    returns the accumulated value, the number of digits and the rest. *)
Fixpoint read_digits (value_of : ascii -> option Z) (base : Z)
    (s : string) (acc : Z) (count : Z) : Z * Z * string :=
  match s with
  | String c s' =>
    match value_of c with
    | Some d => read_digits value_of base s' (base * acc + d) (count + 1)
    | None => (acc, count, s)
    end
  | EmptyString => (acc, count, s)
  end.

(** An optional sign: [true] for [-]. *)
Definition read_sign (s : string) : bool * string :=
  match s with
  | String "-" s' => (true, s')
  | String "+" s' => (false, s')
  | _ => (false, s)
  end.

(** [atol]: white space, an optional sign, decimal digits.  The standard
    gives no meaning to a value outside [long]. *)
Definition atol (text : string) : outcome Z :=
  let '(negative, digits) := read_sign (skip_spaces text) in
  let '(magnitude, _, _) := read_digits digit_value 10 digits 0 0 in
  let value := if negative then - magnitude else magnitude in
  if (LONG_MIN <=? value) && (value <=? LONG_MAX) then Done value else Undefined.

(** ** Doubles *)

Definition double : Type := spec_float.

Definition prec : Z := 53.
Definition emax : Z := 1024.

(** The double nearest to [m * 2^e]. *)
Definition double_of_Z (m e : Z) : double := binary_normalize prec emax m e false.

(** The double nearest to [n / d], with the sign [s]. *)
Definition double_of_ratio (s : bool) (n d : positive) : double :=
  let '(m, e, l) := SFdiv_core_binary prec emax (Zpos n) 0 (Zpos d) 0 in
  binary_round_aux prec emax s m e l.

(** The double nearest to [mantissa * base^exponent] ([base] 10 or 2). *)
Definition double_of_scientific (s : bool) (base mantissa exponent : Z) : double :=
  match mantissa with
  | Zpos m =>
    if 0 <=? exponent
    then double_of_ratio s (m * Z.to_pos (base ^ exponent)) 1
    else double_of_ratio s m (Z.to_pos (base ^ (- exponent)))
  | _ => S754_zero s
  end.

Definition double_mul : double -> double -> double := SFmul prec emax.
Definition double_add : double -> double -> double := SFadd prec emax.
Definition double_ltb : double -> double -> bool := SFltb.

(** Conversion of a double to [unsigned]: the fraction is discarded, and
    the conversion is undefined when the integral part does not fit. *)
Definition double_to_unsigned (x : double) : outcome Z :=
  match x with
  | S754_zero _ => Done 0
  | S754_finite s m e =>
    let integral := Z.shiftl (Zpos m) e in
    if s then (if integral =? 0 then Done 0 else Undefined)
    else if integral <? UINT_MODULUS then Done integral else Undefined
  | _ => Undefined
  end.

(** An optional exponent part [e+12] or [p-3]: consumed only when at
    least one digit follows the marker and the sign. *)
Definition read_exponent (marker : ascii) (s : string) : Z * string :=
  match s with
  | String c s' =>
    if Ascii.eqb (tolower c) marker then
      let '(negative, digits) := read_sign s' in
      let '(magnitude, count, rest) := read_digits digit_value 10 digits 0 0 in
      if count =? 0 then (0, s)
      else (if negative then - magnitude else magnitude, rest)
    else (0, s)
  | EmptyString => (0, s)
  end.

(** Digits, an optional radix point, digits: mantissa, number of digits,
    number of digits after the point, rest. *)
Definition read_mantissa (value_of : ascii -> option Z) (base : Z) (s : string)
    : Z * Z * Z * string :=
  let '(int_part, int_count, after_int) := read_digits value_of base s 0 0 in
  match after_int with
  | String "." fraction =>
    let '(mantissa, total, rest) :=
      read_digits value_of base fraction int_part int_count in
    if total =? 0 then (0, 0, 0, s)
    else (mantissa, total, total - int_count, rest)
  | _ => (int_part, int_count, 0, after_int)
  end.

Definition read_decimal (s : bool) (text : string) : option (double * string) :=
  let '(mantissa, count, fraction_digits, rest) := read_mantissa digit_value 10 text in
  if count =? 0 then None
  else
    let '(exponent, rest') := read_exponent "e" rest in
    Some (double_of_scientific s 10 mantissa (exponent - fraction_digits), rest').

Definition read_hexadecimal (s : bool) (text : string) : option (double * string) :=
  match text with
  | String "0" (String x digits) =>
    if Ascii.eqb (tolower x) "x" then
      let '(mantissa, count, fraction_digits, rest) :=
        read_mantissa hex_digit_value 16 digits in
      if count =? 0 then None
      else
        let '(exponent, rest') := read_exponent "p" rest in
        Some (double_of_scientific s 2 mantissa (exponent - 4 * fraction_digits), rest')
    else None
  | _ => None
  end.

(** Case-insensitive prefix test: the rest of [s] after [word]. *)
Fixpoint strip_word (word s : string) : option string :=
  match word with
  | EmptyString => Some s
  | String w word' =>
    match s with
    | String c s' => if Ascii.eqb (tolower c) w then strip_word word' s' else None
    | EmptyString => None
    end
  end.

Definition is_nan_char (c : ascii) : bool :=
  let n := Z.of_nat (nat_of_ascii c) in
  ((48 <=? n) && (n <=? 57)) || ((65 <=? n) && (n <=? 90))
  || ((97 <=? n) && (n <=? 122)) || (n =? 95).

Fixpoint skip_nan_chars (s : string) : string :=
  match s with
  | String c s' => if is_nan_char c then skip_nan_chars s' else s
  | EmptyString => s
  end.

Definition read_special (s : bool) (text : string) : option (double * string) :=
  match strip_word "infinity" text with
  | Some rest => Some (S754_infinity s, rest)
  | None =>
    match strip_word "inf" text with
    | Some rest => Some (S754_infinity s, rest)
    | None =>
      match strip_word "nan" text with
      | Some rest =>
        match rest with
        | String "(" sequence =>
          match skip_nan_chars sequence with
          | String ")" rest' => Some (S754_nan, rest')
          | _ => Some (S754_nan, rest)
          end
        | _ => Some (S754_nan, rest)
        end
      | None => None
      end
    end
  end.

(** [strtod nptr &endptr] in the C locale: the converted value and
    [endptr].  When no conversion can be performed the value is zero and
    [endptr] is [nptr]. *)
Definition strtod (nptr : string) : double * string :=
  let '(negative, subject) := read_sign (skip_spaces nptr) in
  match read_special negative subject with
  | Some r => r
  | None =>
    match read_hexadecimal negative subject with
    | Some r => r
    | None =>
      match read_decimal negative subject with
      | Some r => r
      | None => (S754_zero false, nptr)
      end
    end
  end.

(** ** Processor and Collection *)

Record Processor : Type := mkProcessor {
  processor : Z;
  physicalId : Z;
  siblings : Z;
  coreId : Z;
  cpuCores : Z
}.

(** [Processor::Processor()]. *)
Definition Processor_new : Processor := mkProcessor 0 0 0 0 0.

(** [currentProcessor] points into [processors]: it is kept as the index
    of the element it points to, [None] for the null pointer. *)
Record Collection : Type := mkCollection {
  processors : list Processor;
  currentProcessor : option nat;
  processorSpeedMHz : Z;
  totalNumberOfSockets : Z;
  totalNumberOfCpuCores : Z
}.

Definition set_processors (ps : list Processor) (c : Collection) : Collection :=
  mkCollection ps (currentProcessor c) (processorSpeedMHz c)
               (totalNumberOfSockets c) (totalNumberOfCpuCores c).

Definition set_currentProcessor (p : option nat) (c : Collection) : Collection :=
  mkCollection (processors c) p (processorSpeedMHz c)
               (totalNumberOfSockets c) (totalNumberOfCpuCores c).

Definition set_processorSpeedMHz (v : Z) (c : Collection) : Collection :=
  mkCollection (processors c) (currentProcessor c) v
               (totalNumberOfSockets c) (totalNumberOfCpuCores c).

Definition set_totals (sockets cores : Z) (c : Collection) : Collection :=
  mkCollection (processors c) (currentProcessor c) (processorSpeedMHz c) sockets cores.

(** The fields of a [Processor] that [parseInteger] can be pointed at. *)
Inductive field : Type :=
| field_processor | field_physicalId | field_siblings | field_coreId | field_cpuCores.

Definition store_field (f : field) (v : Z) (p : Processor) : Processor :=
  match f with
  | field_processor => mkProcessor v (physicalId p) (siblings p) (coreId p) (cpuCores p)
  | field_physicalId => mkProcessor (processor p) v (siblings p) (coreId p) (cpuCores p)
  | field_siblings => mkProcessor (processor p) (physicalId p) v (coreId p) (cpuCores p)
  | field_coreId => mkProcessor (processor p) (physicalId p) (siblings p) v (cpuCores p)
  | field_cpuCores => mkProcessor (processor p) (physicalId p) (siblings p) (coreId p) v
  end.

Fixpoint update_at {A : Type} (i : nat) (f : A -> A) (l : list A) : list A :=
  match l, i with
  | [], _ => []
  | x :: l', O => f x :: l'
  | x :: l', S i' => x :: update_at i' f l'
  end.

(** [unsigned Collection::getNumberOfProcessors()]: [processors.size()]
    converted to [unsigned]. *)
Definition getNumberOfProcessors (c : Collection) : Z :=
  to_unsigned (Z.of_nat (List.length (processors c))).

Definition getTotalNumberOfCpuCores (c : Collection) : Z := totalNumberOfCpuCores c.
Definition getTotalNumberOfSockets (c : Collection) : Z := totalNumberOfSockets c.
Definition getProcessorSpeedMHz (c : Collection) : Z := processorSpeedMHz c.

Definition appendNewProcessor (c : Collection) : Collection :=
  set_currentProcessor (Some (List.length (processors c)))
    (set_processors (processors c ++ [Processor_new]) c).

Fixpoint beginsWith (lineBuffer text : string) : bool :=
  match text with
  | EmptyString => true
  | String t text' =>
    match lineBuffer with
    | String l lineBuffer' => if Ascii.eqb l t then beginsWith lineBuffer' text' else false
    | EmptyString => false
    end
  end.

(** A pointer [&lineBuffer[i]] is [None] when it points behind the
    terminating NUL, where the buffer holds no value of this line. *)
Definition pointer_at (i : nat) (lineBuffer : string) : option string :=
  if (i <=? String.length lineBuffer)%nat then Some (string_drop i lineBuffer) else None.

Definition read_string (text : option string) : outcome string :=
  match text with
  | Some s => Done s
  | None => Undefined
  end.

(** [parseInteger(&currentProcessor->f, text)]: [*value = atol(text)]. *)
Definition parseInteger (f : field) (text : option string) (c : Collection)
    : outcome Collection :=
  s <- read_string text ;;
  v <- atol s ;;
  match currentProcessor c with
  | Some i => Done (set_processors (update_at i (store_field f (to_unsigned v)) (processors c)) c)
  | None => Undefined
  end.

Definition double_1000 : double := double_of_Z 1000 0.
Definition double_100 : double := double_of_Z 100 0.
Definition double_half : double := double_of_Z 1 (-1).

Definition extractProcessorSpeedFromModelName (text : option string) (c : Collection)
    : outcome Collection :=
  s <- read_string text ;;
  match strstr s "@" with
  | None => Done c
  | Some text' =>
    if negb (processorSpeedMHz c =? 0) then Done c
    else
      let '(speed, unit) := strtod (string_drop 1 text') in
      let unit := skip_spaces unit in
      let isMHz := strncmp unit "MHz" 3 =? 0 in
      let isGHz := strncmp unit "GHz" 3 =? 0 in
      let isGHzPossible := double_ltb speed double_100 in
      v <- double_to_unsigned
             (if isGHz || (isGHzPossible && negb isMHz)
              then double_add (double_mul double_1000 speed) double_half
              else double_add speed double_half) ;;
      Done (set_processorSpeedMHz v c)
  end.

Definition parseValue (fieldName : string) (valueString : option string) (c : Collection)
    : outcome Collection :=
  let c := match currentProcessor c with
           | None => appendNewProcessor c
           | Some _ => c
           end in
  if beginsWith fieldName "processor" then parseInteger field_processor valueString c
  else if beginsWith fieldName "physical id" then parseInteger field_physicalId valueString c
  else if beginsWith fieldName "siblings" then parseInteger field_siblings valueString c
  else if beginsWith fieldName "core id" then parseInteger field_coreId valueString c
  else if beginsWith fieldName "cpu cores" then parseInteger field_cpuCores valueString c
  else if beginsWith fieldName "model name" then extractProcessorSpeedFromModelName valueString c
  else Done c.

Definition parseCpuFileLine (lineBuffer : string) (c : Collection) : outcome Collection :=
  let delimiterPosition := strcspn lineBuffer ":" in
  match string_drop delimiterPosition lineBuffer with
  | EmptyString => Done (set_currentProcessor None c)
  | String _ _ => parseValue lineBuffer (pointer_at (delimiterPosition + 2) lineBuffer) c
  end.

(** The successive results of [fgets(lineBuffer, size, file)] on a file
    with the content [file]: each takes at most [size - 1] characters and
    stops behind a newline.  [line] is the part of the current line read
    so far and [room] the number of characters it can still take. *)
Fixpoint fgets_lines (size : nat) (file : string) (line : string) (room : nat)
    : list string :=
  match file with
  | EmptyString => match line with EmptyString => [] | _ => [line] end
  | String ch rest =>
    let line' := (line ++ String ch EmptyString)%string in
    if Ascii.eqb ch "010" || (room <=? 1)%nat
    then line' :: fgets_lines size rest EmptyString (size - 1)
    else fgets_lines size rest line' (room - 1)
  end.

Fixpoint parseCpuFileLines (lines : list string) (c : Collection) : outcome Collection :=
  match lines with
  | [] => Done c
  | lineBuffer :: lines' =>
    c' <- parseCpuFileLine lineBuffer c ;;
    parseCpuFileLines lines' c'
  end.

(** The C string in a buffer: the characters in front of the first NUL. *)
Fixpoint c_string (buffer : string) : string :=
  match buffer with
  | EmptyString => EmptyString
  | String ch rest => if Ascii.eqb ch "000" then EmptyString else String ch (c_string rest)
  end.

(** Each result of [fgets] is parsed as the C string that it is. *)
Definition parseCpuFileContent (file : string) (c : Collection) : outcome Collection :=
  parseCpuFileLines (map c_string (fgets_lines 1024 file EmptyString 1023)) c.

(** [file] is the content of the file, [None] when it cannot be opened. *)
Definition parseCpuFile (file : option string) (c : Collection) : outcome Collection :=
  match file with
  | None => Done c
  | Some content => parseCpuFileContent content c
  end.

Definition updateCpuInformation (p : Processor) (numberOfUniquePhysicalId : Z)
    (c : Collection) : Collection :=
  if totalNumberOfSockets c =? numberOfUniquePhysicalId then c
  else set_totals numberOfUniquePhysicalId
                  (to_unsigned (totalNumberOfCpuCores c + cpuCores p)) c.

(** The loop of [collectBasicCpuInformation]; [uniquePhysicalId] is the
    [std::set<unsigned>], of which only the size is read. *)
Fixpoint collect_loop (ps : list Processor) (uniquePhysicalId : set Z) (c : Collection)
    : Collection :=
  match ps with
  | [] => c
  | p :: ps' =>
    let uniquePhysicalId := set_add Z.eq_dec (physicalId p) uniquePhysicalId in
    collect_loop ps' uniquePhysicalId
      (updateCpuInformation p (to_unsigned (Z.of_nat (List.length uniquePhysicalId))) c)
  end.

Definition collectBasicCpuInformation (c : Collection) : Collection :=
  collect_loop (processors c) (empty_set Z) c.

(** [Collection::Collection()], on the content of [/proc/cpuinfo]. *)
Definition Collection_new (cpuinfo : option string) : outcome Collection :=
  c <- parseCpuFile cpuinfo (mkCollection [] None 0 0 0) ;;
  Done (collectBasicCpuInformation c).

(** ** cpu_set_t

    A [cpu_set_t] is a bit set of [CPU_SETSIZE] bits, kept as the integer
    whose binary digits they are.  As in glibc, [CPU_SET] and [CPU_ISSET]
    ignore a cpu outside the set size. *)

Definition cpu_set_t : Type := Z.

Definition CPU_SETSIZE : Z := 1024.

Definition CPU_ZERO : cpu_set_t := 0.

Definition cpu_in_range (cpu : Z) : bool := (0 <=? cpu) && (cpu <? CPU_SETSIZE).

Definition CPU_SET (cpu : Z) (set : cpu_set_t) : cpu_set_t :=
  if cpu_in_range cpu then Z.setbit set cpu else set.

Definition CPU_ISSET (cpu : Z) (set : cpu_set_t) : bool :=
  cpu_in_range cpu && Z.testbit set cpu.

(** The integers [first], [first + 1], ... ([count] of them). *)
Fixpoint Zseq (first : Z) (count : nat) : list Z :=
  match count with
  | O => []
  | S count' => first :: Zseq (first + 1) count'
  end.

(** The members of a set, in ascending order. *)
Definition CPU_members (set : cpu_set_t) : list Z :=
  filter (fun cpu => CPU_ISSET cpu set) (Zseq 0 (Z.to_nat CPU_SETSIZE)).

Definition CPU_COUNT (set : cpu_set_t) : Z := Z.of_nat (List.length (CPU_members set)).

(** ** The process environment, the scheduler and the OpenMP runtime *)

Record World : Type := mkWorld {
  (* the environment variables *)
  getenv : string -> option string;
  (* the affinity mask of each thread; [None] where the query fails *)
  thread_affinity : Z -> option cpu_set_t;
  (* the number of threads requested for the next parallel region *)
  nthreads_var : Z
}.

(** [sched_getaffinity(0, ...)] in the thread [self]. *)
Definition sched_getaffinity (self : Z) (w : World) : option cpu_set_t :=
  thread_affinity w self.

(** [sched_setaffinity(0, ...)] in the thread [self]; the source ignores
    the result, and the model records the mask that was requested. *)
Definition sched_setaffinity (self : Z) (set : cpu_set_t) (w : World) : World :=
  mkWorld (getenv w)
          (fun t => if t =? self then Some set else thread_affinity w t)
          (nthreads_var w).

(** [omp_set_num_threads(n)]: the number of threads requested for the
    next parallel regions.  The API asks for a positive number; for any
    other the runtimes (libgomp, the Intel runtime) store 1. *)
Definition omp_set_num_threads (n : Z) (w : World) : World :=
  mkWorld (getenv w) (thread_affinity w) (if 0 <? n then n else 1).

(** The team of a parallel region that the thread [self] encounters:
    [self] as thread 0, and of the threads [workers] that the runtime has
    for the region as many as the requested number allows.  A team has at
    least one thread and no more threads than were requested. *)
Definition omp_team (self : Z) (workers : list Z) (w : World) : list Z :=
  self :: firstn (Z.to_nat (nthreads_var w - 1)) workers.

(** The body in every thread of a team, in the order of
    [omp_get_thread_num()].  The bodies of this file write only the
    affinity of their own thread, so they are run one after the other. *)
Fixpoint omp_run_team (team : list Z) (thread_num : Z)
    (body : Z -> Z -> World -> outcome World) (w : World) : outcome World :=
  match team with
  | [] => Done w
  | self :: team' =>
    w' <- body thread_num self w ;;
    omp_run_team team' (thread_num + 1) body w'
  end.

(** [#pragma omp parallel], encountered by the thread [self]. *)
Definition omp_parallel (self : Z) (workers : list Z)
    (body : Z -> Z -> World -> outcome World) (w : World) : outcome World :=
  omp_run_team (omp_team self workers w) 0 body w.

(** ** OpenMpManager *)

Definition openMpEnvVars : list string := [
  "OMP_CANCELLATION"; "OMP_DISPLAY_ENV"; "OMP_DEFAULT_DEVICE"; "OMP_DYNAMIC";
  "OMP_MAX_ACTIVE_LEVELS"; "OMP_MAX_TASK_PRIORITY"; "OMP_NESTED";
  "OMP_NUM_THREADS"; "OMP_PROC_BIND"; "OMP_PLACES"; "OMP_STACKSIZE";
  "OMP_SCHEDULE"; "OMP_THREAD_LIMIT"; "OMP_WAIT_POLICY"; "GOMP_CPU_AFFINITY";
  "GOMP_DEBUG"; "GOMP_STACKSIZE"; "GOMP_SPINCOUNT"; "GOMP_RTEMS_THREAD_POOLS";
  "KMP_AFFINITY"; "KMP_NUM_THREADS"; "MIC_KMP_AFFINITY";
  "MIC_OMP_NUM_THREADS"; "MIC_OMP_PROC_BIND"; "PHI_KMP_AFFINITY";
  "PHI_OMP_NUM_THREADS"; "PHI_KMP_PLACE_THREADS"; "MKL_NUM_THREADS";
  "MKL_DYNAMIC"; "MKL_DOMAIN_NUM_THREADS"
].

Record OpenMpManager : Type := mkOpenMpManager {
  isGpuEnabled : bool;
  isAnyOpenMpEnvVarSpecified : bool;
  currentCpuSet : cpu_set_t;
  currentCoreSet : cpu_set_t
}.

Definition set_isGpuEnabled (b : bool) (m : OpenMpManager) : OpenMpManager :=
  mkOpenMpManager b (isAnyOpenMpEnvVarSpecified m) (currentCpuSet m) (currentCoreSet m).

Definition set_isAnyOpenMpEnvVarSpecified (b : bool) (m : OpenMpManager) : OpenMpManager :=
  mkOpenMpManager (isGpuEnabled m) b (currentCpuSet m) (currentCoreSet m).

Definition set_currentCpuSet (s : cpu_set_t) (m : OpenMpManager) : OpenMpManager :=
  mkOpenMpManager (isGpuEnabled m) (isAnyOpenMpEnvVarSpecified m) s (currentCoreSet m).

Definition set_currentCoreSet (s : cpu_set_t) (m : OpenMpManager) : OpenMpManager :=
  mkOpenMpManager (isGpuEnabled m) (isAnyOpenMpEnvVarSpecified m) (currentCpuSet m) s.

(** [for (int i = first; i < n; i++) body], where [count] is the number of
    iterations left.  Incrementing an [int] beyond [INT_MAX] is undefined. *)
Fixpoint for_int {S : Type} (count : nat) (i : Z) (body : Z -> S -> outcome S) (s : S)
    : outcome S :=
  match count with
  | O => Done s
  | Datatypes.S count' =>
    s' <- body i s ;;
    if i <? INT_MAX then for_int count' (i + 1) body s' else Undefined
  end.

Definition getOpenMpEnvVars (w : World) (m : OpenMpManager) : OpenMpManager :=
  fold_left
    (fun m name =>
       match getenv w name with
       | Some _ => set_isAnyOpenMpEnvVarSpecified true m
       | None => m
       end)
    openMpEnvVars (set_isAnyOpenMpEnvVarSpecified false m).

Definition getDefaultCpuSet (c : Collection) : outcome cpu_set_t :=
  let numberOfProcessors := getNumberOfProcessors c in
  for_int (Z.to_nat numberOfProcessors) 0
    (fun processorId defaultCpuSet => Done (CPU_SET processorId defaultCpuSet))
    CPU_ZERO.

Definition getCurrentCpuSet (c : Collection) (self : Z) (w : World) (m : OpenMpManager)
    : outcome OpenMpManager :=
  match sched_getaffinity self w with
  | Some mask => Done (set_currentCpuSet mask m)
  | None =>
    defaultCpuSet <- getDefaultCpuSet c ;;
    Done (set_currentCpuSet defaultCpuSet m)
  end.

(** The body of the loop of [getCurrentCoreSet], on the pair of
    [usedCoreSet] and [currentCoreSet].  A remainder by zero is undefined. *)
Definition getCurrentCoreSet_body (totalNumberOfCpuCores : Z) (cpuSet : cpu_set_t)
    (processorId : Z) (sets : cpu_set_t * cpu_set_t) : outcome (cpu_set_t * cpu_set_t) :=
  let '(usedCoreSet, coreSet) := sets in
  if CPU_ISSET processorId cpuSet then
    if totalNumberOfCpuCores =? 0 then Undefined
    else
      let coreId := processorId mod totalNumberOfCpuCores in
      if negb (CPU_ISSET coreId usedCoreSet)
      then Done (CPU_SET coreId usedCoreSet, CPU_SET processorId coreSet)
      else Done sets
  else Done sets.

Definition getCurrentCoreSet (c : Collection) (m : OpenMpManager) : outcome OpenMpManager :=
  let numberOfProcessors := getNumberOfProcessors c in
  let totalNumberOfCpuCores := getTotalNumberOfCpuCores c in
  sets <- for_int (Z.to_nat numberOfProcessors) 0
            (getCurrentCoreSet_body totalNumberOfCpuCores (currentCpuSet m))
            (CPU_ZERO, CPU_ZERO) ;;
  Done (set_currentCoreSet (snd sets) m).

(** [OpenMpManager::OpenMpManager()], run in the thread [self].  The
    object has static storage, so [isGpuEnabled], which the constructor
    does not assign, starts as [false]. *)
Definition OpenMpManager_new (c : Collection) (self : Z) (w : World) : outcome OpenMpManager :=
  let m := getOpenMpEnvVars w (mkOpenMpManager false false CPU_ZERO CPU_ZERO) in
  m <- getCurrentCpuSet c self w m ;;
  getCurrentCoreSet c m.

Definition setGpuEnabled (m : OpenMpManager) : OpenMpManager := set_isGpuEnabled true m.
Definition setGpuDisabled (m : OpenMpManager) : OpenMpManager := set_isGpuEnabled false m.

Definition isThreadsBindAllowed (m : OpenMpManager) : bool :=
  negb (isAnyOpenMpEnvVarSpecified m) && negb (isGpuEnabled m).

(** The loop of [selectAllCoreCpus].  [processorId] is compared and
    advanced in [unsigned] arithmetic.  The loop has no side effect but
    on [set]; run out of [fuel], it has come back to a value of
    [processorId] that it has seen, and never ends. *)
Fixpoint selectAllCoreCpus_loop (fuel : nat) (numberOfProcessors totalNumberOfCpuCores : Z)
    (cpuSet : cpu_set_t) (processorId : Z) (set : cpu_set_t) : outcome cpu_set_t :=
  if processorId <? numberOfProcessors then
    match fuel with
    | O => Undefined
    | S fuel' =>
      selectAllCoreCpus_loop fuel' numberOfProcessors totalNumberOfCpuCores cpuSet
        (to_unsigned (processorId + totalNumberOfCpuCores))
        (if CPU_ISSET processorId cpuSet then CPU_SET processorId set else set)
    end
  else Done set.

Definition selectAllCoreCpus (c : Collection) (m : OpenMpManager)
    (set : cpu_set_t) (physicalCoreId : Z) : outcome cpu_set_t :=
  let numberOfProcessors := getNumberOfProcessors c in
  let totalNumberOfCpuCores := getTotalNumberOfCpuCores c in
  if totalNumberOfCpuCores =? 0 then Undefined
  else
    selectAllCoreCpus_loop (Z.to_nat numberOfProcessors) numberOfProcessors
      totalNumberOfCpuCores (currentCpuSet m)
      (physicalCoreId mod totalNumberOfCpuCores) set.

(** The loop of [getPhysicalCoreId]; leaving it reaches [LOG(FATAL)]. *)
Fixpoint getPhysicalCoreId_loop (count : nat) (processorId : Z) (coreSet : cpu_set_t)
    (logicalCoreId : Z) : outcome Z :=
  match count with
  | O => Fatal
  | S count' =>
    if CPU_ISSET processorId coreSet && (logicalCoreId =? 0) then Done processorId
    else
      let logicalCoreId :=
        if CPU_ISSET processorId coreSet then to_unsigned (logicalCoreId - 1)
        else logicalCoreId in
      if processorId <? INT_MAX
      then getPhysicalCoreId_loop count' (processorId + 1) coreSet logicalCoreId
      else Undefined
  end.

Definition getPhysicalCoreId (c : Collection) (m : OpenMpManager) (logicalCoreId : Z)
    : outcome Z :=
  let numberOfProcessors := getNumberOfProcessors c in
  getPhysicalCoreId_loop (Z.to_nat numberOfProcessors) 0 (currentCoreSet m) logicalCoreId.

Definition setOpenMpThreadNumberLimit (m : OpenMpManager) (w : World) : World :=
  omp_set_num_threads (CPU_COUNT (currentCoreSet m)) w.

Definition bindCurrentThreadToLogicalCoreCpu (c : Collection) (m : OpenMpManager)
    (logicalCoreId : Z) (self : Z) (w : World) : outcome World :=
  physicalCoreId <- getPhysicalCoreId c m logicalCoreId ;;
  let set := CPU_SET physicalCoreId CPU_ZERO in
  Done (sched_setaffinity self set w).

Definition bindCurrentThreadToLogicalCoreCpus (c : Collection) (m : OpenMpManager)
    (logicalCoreId : Z) (self : Z) (w : World) : outcome World :=
  physicalCoreId <- getPhysicalCoreId c m logicalCoreId ;;
  set <- selectAllCoreCpus c m CPU_ZERO physicalCoreId ;;
  Done (sched_setaffinity self set w).

Definition bindCurrentThreadToNonPrimaryCoreIfPossible (c : Collection) (m : OpenMpManager)
    (self : Z) (w : World) : outcome World :=
  if isThreadsBindAllowed m then
    let totalNumberOfAvailableCores := CPU_COUNT (currentCoreSet m) in
    let logicalCoreToBindTo := if totalNumberOfAvailableCores >? 1 then 1 else 0 in
    bindCurrentThreadToLogicalCoreCpus c m logicalCoreToBindTo self w
  else Done w.

Definition bindOpenMpThreads (c : Collection) (m : OpenMpManager)
    (self : Z) (workers : list Z) (w : World) : outcome World :=
  if negb (isThreadsBindAllowed m) then Done w
  else
    let w := setOpenMpThreadNumberLimit m w in
    omp_parallel self workers
      (fun thread_num self w =>
         let logicalCoreId := to_unsigned thread_num in
         bindCurrentThreadToLogicalCoreCpu c m logicalCoreId self w)
      w.

(** The calls that the class offers once the instance exists.
    [printVerboseInformation] only writes to the log. *)
Inductive call : Type :=
| call_setGpuEnabled
| call_setGpuDisabled
| call_bindCurrentThreadToNonPrimaryCoreIfPossible (self : Z)
| call_bindOpenMpThreads (self : Z) (workers : list Z)
| call_printVerboseInformation.

Definition step (c : Collection) (k : call) (st : OpenMpManager * World)
    : outcome (OpenMpManager * World) :=
  let '(m, w) := st in
  match k with
  | call_setGpuEnabled => Done (setGpuEnabled m, w)
  | call_setGpuDisabled => Done (setGpuDisabled m, w)
  | call_bindCurrentThreadToNonPrimaryCoreIfPossible self =>
    w' <- bindCurrentThreadToNonPrimaryCoreIfPossible c m self w ;;
    Done (m, w')
  | call_bindOpenMpThreads self workers =>
    w' <- bindOpenMpThreads c m self workers w ;;
    Done (m, w')
  | call_printVerboseInformation => Done (m, w)
  end.

Fixpoint run (c : Collection) (calls : list call) (st : OpenMpManager * World)
    : outcome (OpenMpManager * World) :=
  match calls with
  | [] => Done st
  | k :: calls' =>
    st' <- step c k st ;;
    run c calls' st'
  end.

(** ** Notions of the specification *)

(** The records at which the id of their socket is seen for the first
    time, in source order; [seen] holds the ids met before. *)
Fixpoint newly_seen (seen : list Z) (ps : list Processor) : list Processor :=
  match ps with
  | [] => []
  | p :: ps' =>
    if in_dec Z.eq_dec (physicalId p) seen then newly_seen seen ps'
    else p :: newly_seen (physicalId p :: seen) ps'
  end.

Definition sum_Z (l : list Z) : Z := fold_right Z.add 0 l.

(** The number of distinct [physical id] values of the records. *)
Definition distinct_sockets (ps : list Processor) : Z :=
  Z.of_nat (List.length (nodup Z.eq_dec (map physicalId ps))).

(** The sum of [cpu cores], taken once for every socket at the first
    record of the socket. *)
Definition cores_of_sockets (ps : list Processor) : Z :=
  sum_Z (map cpuCores (newly_seen [] ps)).

(** The clock speed stored after each of a series of [model name] values. *)
Fixpoint speeds_from (c : Collection) (texts : list string) : outcome (list Z) :=
  match texts with
  | [] => Done []
  | text :: texts' =>
    c' <- extractProcessorSpeedFromModelName (Some text) c ;;
    speeds <- speeds_from c' texts' ;;
    Done (processorSpeedMHz c' :: speeds)
  end.

(** The same, starting from a collection in which no speed is stored. *)
Definition speeds_after (texts : list string) : outcome (list Z) :=
  speeds_from (mkCollection [] None 0 0 0) texts.

(** The unit that the extraction reads: at most 3 characters. *)
Definition unit_token (unit : string) : string := String.substring 0 3 unit.

(** Round-half-up of the rational [n / d], for [d > 0]. *)
Definition round_half_up (n d : Z) : Z := (2 * n + d) / (2 * d).

(** A finite double with the mantissa [m] and the exponent [e] is the
    rational [m * 2^e]: its numerator and its denominator. *)
Definition double_numerator (m : positive) (e : Z) : Z := Zpos m * 2 ^ Z.max e 0.
Definition double_denominator (e : Z) : Z := 2 ^ Z.max (- e) 0.

(** The largest double below one half. *)
Definition double_below_half : double := S754_finite false 9007199254740991 (-54).

(** The mantissa of a finite double has at most 53 digits. *)
Definition mantissa_fits (x : double) : Prop :=
  match x with
  | S754_finite _ m _ => Zpos m < 2 ^ 53
  | _ => True
  end.

(** The number that the extraction rounds, from the text behind the
    [@]: the clock speed in MHz as the source computes it, before one
    half is added. *)
Definition speed_in_MHz (text : string) : double :=
  let '(speed, unit) := strtod text in
  let unit := skip_spaces unit in
  let isMHz := strncmp unit "MHz" 3 =? 0 in
  let isGHz := strncmp unit "GHz" 3 =? 0 in
  let isGHzPossible := double_ltb speed double_100 in
  if isGHz || (isGHzPossible && negb isMHz) then double_mul double_1000 speed else speed.

(** [cpu] is a processor that [permitted] holds and the topology lists. *)
Definition usable (numberOfProcessors : Z) (permitted : cpu_set_t) (cpu : Z) : Prop :=
  CPU_ISSET cpu permitted = true /\ 0 <= cpu < numberOfProcessors.

(** [cpu] is the smallest usable processor of its bucket. *)
Definition lowest_of_bucket (numberOfProcessors total : Z) (permitted : cpu_set_t)
    (cpu : Z) : Prop :=
  usable numberOfProcessors permitted cpu
  /\ forall other, usable numberOfProcessors permitted other ->
                   other mod total = cpu mod total -> cpu <= other.

(** [cpu] is a sibling of [representative]: a usable processor of the
    same bucket. *)
Definition sibling_of (numberOfProcessors total : Z) (permitted : cpu_set_t)
    (representative cpu : Z) : Prop :=
  usable numberOfProcessors permitted cpu /\ cpu mod total = representative mod total.

(** What a call leaves of the world, when it returns. *)
Definition affinity_after (o : outcome World) (thread : Z) : outcome (option (list Z)) :=
  w <- o ;; Done (option_map CPU_members (thread_affinity w thread)).

Definition nthreads_after (o : outcome World) : outcome Z :=
  w <- o ;; Done (nthreads_var w).

Definition core_members_of (o : outcome OpenMpManager) : outcome (list Z) :=
  m <- o ;; Done (CPU_members (currentCoreSet m)).

(** ** Sample inputs *)

Definition newline : string := String "010" EmptyString.

(** Two sockets whose [cpu cores] add up to 2^32. *)
Definition cpuinfo_wrapping : string :=
  "physical id : 0" ++ newline ++ "cpu cores : 4294967295" ++ newline ++ newline
  ++ "physical id : 1" ++ newline ++ "cpu cores : 1" ++ newline.

Definition collection_wrapping : Collection :=
  mkCollection [mkProcessor 0 0 0 0 4294967295; mkProcessor 0 1 0 0 1] (Some 1%nat) 0 2 0.

(** A topology of [n] records with the given aggregates. *)
Definition topology (n : nat) (sockets cores : Z) : Collection :=
  mkCollection (map (fun i => mkProcessor i 0 0 0 0) (Zseq 0 n)) None 0 sockets cores.

(** A world without environment variables in which every thread has the
    affinity [mask] and [n] threads are requested. *)
Definition world (mask : option cpu_set_t) (n : Z) : World :=
  mkWorld (fun _ => None) (fun _ => mask) n.

(** A file that lists one processor and no [cpu cores]. *)
Definition cpuinfo_without_cores : string :=
  "processor : 0" ++ newline ++ "model name : ARMv7 Processor rev 4 (v7l)" ++ newline.

Definition collection_without_cores : Collection :=
  mkCollection [mkProcessor 0 0 0 0 0] (Some 0%nat) 0 1 0.

(** ** Invariants of the loops *)

(** [usedCoreSet] and [currentCoreSet] once the processors below [i] have
    been visited: the buckets met so far, and the permitted processors
    that no smaller permitted processor shares a bucket with. *)
Definition core_sets_upto (total : Z) (cpuSet : cpu_set_t) (i : Z)
    (sets : cpu_set_t * cpu_set_t) : Prop :=
  (forall b, CPU_ISSET b (fst sets) = true
             <-> exists p, 0 <= p < i /\ CPU_ISSET p cpuSet = true /\ p mod total = b)
  /\ (forall p, CPU_ISSET p (snd sets) = true
                <-> 0 <= p < i /\ CPU_ISSET p cpuSet = true
                    /\ forall q, 0 <= q < p -> CPU_ISSET q cpuSet = true ->
                                 q mod total <> p mod total).

(** ** Invariants of the parser *)

(** [currentProcessor] is null or points at the last record. *)
Definition current_is_last (c : Collection) : Prop :=
  match currentProcessor c with
  | None => True
  | Some i => S i = List.length (processors c)
  end.

(** The records that a separator line has closed: all of them but the
    one [currentProcessor] points at. *)
Definition closed_records (c : Collection) : list Processor :=
  match currentProcessor c with
  | None => processors c
  | Some i => firstn i (processors c)
  end.

(** ** The text of a topology

    The file that lists given records, in the layout of [/proc/cpuinfo]:
    one line for each field, the name, a tab, a colon, a space and the
    decimal value, and an empty line behind each record. *)

Definition digit_char (d : Z) : ascii := ascii_of_nat (48 + Z.to_nat d).

(** The decimal digits of [n] in front of [acc]; [fuel] bounds their
    number. *)
Fixpoint decimal_digits (fuel : nat) (n : Z) (acc : string) : string :=
  match fuel with
  | O => acc
  | S fuel' =>
    let acc' := String (digit_char (n mod 10)) acc in
    if n / 10 =? 0 then acc' else decimal_digits fuel' (n / 10) acc'
  end.

(** The decimal numeral of an [unsigned]. *)
Definition decimal (n : Z) : string := decimal_digits 10 n EmptyString.

Definition tab : string := String "009" EmptyString.

Definition field_line (name : string) (value : Z) : string :=
  (name ++ tab ++ ": " ++ decimal value ++ newline)%string.

Definition record_lines (p : Processor) : list string :=
  [ field_line "processor" (processor p);
    field_line "physical id" (physicalId p);
    field_line "siblings" (siblings p);
    field_line ("core id" ++ tab) (coreId p);
    field_line "cpu cores" (cpuCores p);
    newline ].

Definition cpuinfo_lines (ps : list Processor) : list string :=
  flat_map record_lines ps.

Definition cpuinfo_text (ps : list Processor) : string :=
  fold_right String.append EmptyString (cpuinfo_lines ps).

(** Every field of the record is a value of [unsigned]. *)
Definition unsigned_fields (p : Processor) : Prop :=
  0 <= processor p < UINT_MODULUS
  /\ 0 <= physicalId p < UINT_MODULUS
  /\ 0 <= siblings p < UINT_MODULUS
  /\ 0 <= coreId p < UINT_MODULUS
  /\ 0 <= cpuCores p < UINT_MODULUS.

(** A line that [fgets] with a buffer of [size] characters returns whole:
    it ends with its only newline and fits in the buffer with the null. *)
Definition whole_line (size : nat) (line : string) : Prop :=
  exists body,
    line = (body ++ newline)%string
    /\ string_mem "010" body = false
    /\ (String.length body + 1 < size)%nat.



(** * Properties *)

(** ** Socket and core aggregation *)

Lemma set_add_length (a : Z) (u : set Z) :
  List.length (set_add Z.eq_dec a u)
  = if in_dec Z.eq_dec a u then List.length u else S (List.length u).
Proof.
  induction u as [|b u IH]; simpl.
  - reflexivity.
  - destruct (Z.eq_dec a b) as [Hab|Hab]; destruct (Z.eq_dec b a) as [Hba|Hba];
      try (symmetry in Hba; contradiction); try (symmetry in Hab; contradiction);
      simpl; [reflexivity|].
    rewrite IH. destruct (in_dec Z.eq_dec a u); reflexivity.
Qed.

Lemma to_unsigned_succ_neq (n : Z) : to_unsigned (n + 1) <> to_unsigned n.
Proof.
  unfold to_unsigned, UINT_MODULUS. intros H.
  assert (E : (n + 1 - n) mod 2 ^ 32 = 0).
  { rewrite Zminus_mod, H, Z.sub_diag. reflexivity. }
  replace (n + 1 - n) with 1 in E by lia. discriminate E.
Qed.

Lemma to_unsigned_add_l (a b : Z) : to_unsigned (to_unsigned a + b) = to_unsigned (a + b).
Proof. unfold to_unsigned. apply Zplus_mod_idemp_l. Qed.

Lemma to_unsigned_small (z : Z) : 0 <= z < UINT_MODULUS -> to_unsigned z = z.
Proof. intros H. unfold to_unsigned. apply Z.mod_small. exact H. Qed.

Lemma to_unsigned_range (z : Z) : 0 <= to_unsigned z < UINT_MODULUS.
Proof. unfold to_unsigned, UINT_MODULUS. apply Z.mod_pos_bound. reflexivity. Qed.

(** The loop keeps [totalNumberOfSockets] equal to the size of the set and
    adds the cores of exactly the records that enlarge the set. *)
Lemma collect_loop_spec (ps : list Processor) :
  forall (u seen : list Z) (c : Collection) (k : Z),
    (forall x, In x u <-> In x seen) ->
    totalNumberOfSockets c = to_unsigned (Z.of_nat (List.length u)) ->
    totalNumberOfCpuCores c = to_unsigned k ->
    totalNumberOfSockets (collect_loop ps u c)
    = to_unsigned (Z.of_nat (List.length u + List.length (newly_seen seen ps)))
    /\ totalNumberOfCpuCores (collect_loop ps u c)
       = to_unsigned (k + sum_Z (map cpuCores (newly_seen seen ps))).
Proof.
  induction ps as [|p ps IH]; intros u seen c k Hu Hs Hc; simpl.
  - rewrite Nat.add_0_r, Z.add_0_r. split; assumption.
  - pose proof (set_add_length (physicalId p) u) as Hlen.
    destruct (in_dec Z.eq_dec (physicalId p) u) as [Hin|Hnin].
    + destruct (in_dec Z.eq_dec (physicalId p) seen) as [_|Hn]; [|apply Hu in Hin; contradiction].
      unfold updateCpuInformation. rewrite Hlen, <- Hs, Z.eqb_refl.
      rewrite <- Hlen. apply IH; [|rewrite Hlen|]; try assumption.
      intros x. rewrite set_add_iff, <- Hu. split; [intros [->|H]|auto]; assumption.
    + destruct (in_dec Z.eq_dec (physicalId p) seen) as [Hy|_]; [apply Hu in Hy; contradiction|].
      unfold updateCpuInformation. rewrite Hlen, Hs.
      replace (Z.of_nat (S (List.length u))) with (Z.of_nat (List.length u) + 1) by lia.
      destruct (Z.eqb_spec (to_unsigned (Z.of_nat (List.length u)))
                           (to_unsigned (Z.of_nat (List.length u) + 1))) as [E|_].
      { symmetry in E. apply to_unsigned_succ_neq in E. contradiction. }
      simpl List.length. simpl sum_Z.
      replace (List.length u + S (List.length (newly_seen (physicalId p :: seen) ps)))%nat
        with (List.length (set_add Z.eq_dec (physicalId p) u)
              + List.length (newly_seen (physicalId p :: seen) ps))%nat by (rewrite Hlen; lia).
      replace (k + (cpuCores p + sum_Z (map cpuCores (newly_seen (physicalId p :: seen) ps))))
        with ((k + cpuCores p) + sum_Z (map cpuCores (newly_seen (physicalId p :: seen) ps)))
        by lia.
      apply IH.
      * intros x. rewrite set_add_iff, Hu. simpl. split; intros [H|H]; auto.
      * simpl. rewrite Hlen. f_equal. lia.
      * simpl. rewrite Hc. apply to_unsigned_add_l.
Qed.

Lemma newly_seen_ids (ps : list Processor) :
  forall seen,
    NoDup (map physicalId (newly_seen seen ps))
    /\ forall x, In x (map physicalId (newly_seen seen ps))
                 <-> In x (map physicalId ps) /\ ~ In x seen.
Proof.
  induction ps as [|p ps IH]; intros seen; simpl.
  - split; [constructor | intros x; tauto].
  - destruct (in_dec Z.eq_dec (physicalId p) seen) as [Hin|Hnin].
    + destruct (IH seen) as [Hnd Hmem]. split; [assumption|].
      intros x. rewrite Hmem. split; [tauto|].
      intros [[<-|H] Hx]; [contradiction | tauto].
    + destruct (IH (physicalId p :: seen)) as [Hnd Hmem]. split.
      * simpl. constructor; [|assumption]. rewrite Hmem.
        intros [_ H]. apply H. left. reflexivity.
      * intros x. simpl. rewrite Hmem. simpl.
        destruct (Z.eq_dec (physicalId p) x) as [E|Hne];
          [rewrite E in Hnin|]; intuition congruence.
Qed.

Lemma newly_seen_count (ps : list Processor) :
  Z.of_nat (List.length (newly_seen [] ps)) = distinct_sockets ps.
Proof.
  unfold distinct_sockets. f_equal.
  destruct (newly_seen_ids ps []) as [Hnd Hmem].
  rewrite <- (length_map physicalId (newly_seen [] ps)).
  apply Nat.le_antisymm; apply NoDup_incl_length.
  - assumption.
  - intros x Hx. apply nodup_In. apply Hmem in Hx. tauto.
  - apply NoDup_nodup.
  - intros x Hx. apply nodup_In in Hx. apply Hmem. simpl. tauto.
Qed.

Lemma collect_from_zero (ps : list Processor) (current : option nat) (speed : Z) :
  let c := collectBasicCpuInformation (mkCollection ps current speed 0 0) in
  totalNumberOfSockets c = to_unsigned (distinct_sockets ps)
  /\ totalNumberOfCpuCores c = to_unsigned (cores_of_sockets ps).
Proof.
  unfold collectBasicCpuInformation, cores_of_sockets. simpl.
  rewrite <- newly_seen_count.
  apply (collect_loop_spec ps [] [] (mkCollection ps current speed 0 0) 0).
  - intros x. tauto.
  - reflexivity.
  - reflexivity.
Qed.

(** Below 2^32 the aggregates are the exact numbers. *)
Lemma collectBasicCpuInformation_exact
    (ps : list Processor) (current : option nat) (speed : Z) :
  distinct_sockets ps < UINT_MODULUS ->
  0 <= cores_of_sockets ps < UINT_MODULUS ->
  let c := collectBasicCpuInformation (mkCollection ps current speed 0 0) in
  totalNumberOfSockets c = distinct_sockets ps
  /\ totalNumberOfCpuCores c = cores_of_sockets ps.
Proof.
  intros Hs Hc.
  destruct (collect_from_zero ps current speed) as [H1 H2].
  simpl. rewrite H1, H2. split; apply to_unsigned_small; [|assumption].
  unfold distinct_sockets in *. lia.
Qed.

(** C1, as the code has it: after the aggregation, the socket count is
    the number of distinct [physical id] values of the records and the
    core count is the sum of [cpu cores] over the first record of every
    socket in source order, each reduced to the 32 bits of the [unsigned]
    counter that holds it. *)
Theorem collectBasicCpuInformation_aggregates
    (ps : list Processor) (current : option nat) (speed : Z) :
  let c := collectBasicCpuInformation (mkCollection ps current speed 0 0) in
  totalNumberOfSockets c = to_unsigned (distinct_sockets ps)
  /\ totalNumberOfCpuCores c = to_unsigned (cores_of_sockets ps).
Proof. exact (collect_from_zero ps current speed). Qed.



(** C1 as stated fails where the sum leaves the range of [unsigned]: the
    file above is parsed into two records of two sockets, the sum of their
    [cpu cores] is 4294967296, and the derived core count is 0. *)
Lemma collect_cores_wrap_counterexample :
  Collection_new (Some cpuinfo_wrapping) = Done collection_wrapping
  /\ cores_of_sockets (processors collection_wrapping) = 4294967296
  /\ totalNumberOfCpuCores collection_wrapping = 0
  /\ totalNumberOfCpuCores collection_wrapping
     <> cores_of_sockets (processors collection_wrapping).
Proof. repeat split; try (vm_compute; reflexivity). discriminate. Qed.


(** * Doubles: rounding *)

(** ** The number of binary digits *)

Lemma digits2_size (p : positive) : digits2_pos p = Pos.size p.
Proof. induction p as [p IH|p IH|]; simpl; [rewrite IH | rewrite IH |]; reflexivity. Qed.

Lemma digits2_bounds (p : positive) :
  2 ^ (Zpos (digits2_pos p) - 1) <= Zpos p < 2 ^ Zpos (digits2_pos p).
Proof.
  rewrite digits2_size.
  pose proof (Pos.size_gt p) as Hgt. pose proof (Pos.size_le p) as Hle.
  apply Pos2Z.pos_lt_pos in Hgt. apply Pos2Z.pos_le_pos in Hle.
  rewrite Pos2Z.inj_pow in Hgt, Hle.
  change (Zpos p~0) with (2 * Zpos p) in Hle.
  replace (Zpos (Pos.size p)) with (Zpos (Pos.size p) - 1 + 1) in Hle at 1 by lia.
  rewrite Z.pow_add_r in Hle by lia. change (2 ^ 1) with 2 in Hle. lia.
Qed.

Lemma Zdigits2_bounds (m : Z) : 0 <= m -> m < 2 ^ Zdigits2 m.
Proof.
  intros H. destruct m as [|p|p]; [reflexivity | apply digits2_bounds | lia].
Qed.

Lemma pow2_lt_exponent (a b : Z) : 0 <= b -> 2 ^ a < 2 ^ b -> a < b.
Proof. intros Hb H. apply (Z.pow_lt_mono_r_iff 2); [lia | exact Hb | exact H]. Qed.

Lemma pow2_le (a b : Z) : 0 <= a <= b -> 2 ^ a <= 2 ^ b.
Proof. intros H. apply Z.pow_le_mono_r; lia. Qed.

Lemma pow2_lt (a b : Z) : 0 <= a < b -> 2 ^ a < 2 ^ b.
Proof. intros H. apply Z.pow_lt_mono_r; lia. Qed.

Lemma pow2_pos (a : Z) : 0 <= a -> 0 < 2 ^ a.
Proof. intros H. apply Z.pow_pos_nonneg; lia. Qed.

(** ** Shifting to the right *)

Lemma iter_pos_nat {A : Type} (f : A -> A) (p : positive) :
  forall x, iter_pos f p x = Nat.iter (Pos.to_nat p) f x.
Proof.
  induction p as [p IH|p IH|]; intros x; cbn [iter_pos].
  - rewrite !IH, Pos2Nat.inj_xI.
    replace (S (2 * Pos.to_nat p)) with (Pos.to_nat p + (Pos.to_nat p + 1))%nat by lia.
    rewrite !Nat.iter_add. reflexivity.
  - rewrite !IH, Pos2Nat.inj_xO.
    replace (2 * Pos.to_nat p)%nat with (Pos.to_nat p + Pos.to_nat p)%nat by lia.
    rewrite Nat.iter_add. reflexivity.
  - reflexivity.
Qed.

Lemma shr_1_m (mrs : shr_record) :
  0 <= shr_m mrs -> shr_m (shr_1 mrs) = shr_m mrs / 2.
Proof.
  destruct mrs as [m r s]. cbn [shr_m]. intros H.
  destruct m as [|[p|p|]|p]; cbn [shr_1 shr_m]; try lia; try reflexivity.
  - change (Zpos p~1) with (2 * Zpos p + 1). apply Z.div_unique with 1; lia.
  - change (Zpos p~0) with (2 * Zpos p). apply Z.div_unique with 0; lia.
Qed.

Lemma shr_1_r (mrs : shr_record) :
  0 <= shr_m mrs -> shr_r (shr_1 mrs) = Z.odd (shr_m mrs).
Proof.
  destruct mrs as [m r s]. cbn [shr_m]. intros H.
  destruct m as [|[p|p|]|p]; cbn [shr_1 shr_r]; try lia; reflexivity.
Qed.

Lemma shr_1_s (mrs : shr_record) :
  0 <= shr_m mrs -> shr_s (shr_1 mrs) = shr_r mrs || shr_s mrs.
Proof.
  destruct mrs as [m r s]. cbn [shr_m]. intros H.
  destruct m as [|[p|p|]|p]; cbn [shr_1 shr_s shr_r]; try lia; reflexivity.
Qed.

Lemma shr_nat_m (k : nat) (mrs : shr_record) :
  0 <= shr_m mrs ->
  shr_m (Nat.iter k shr_1 mrs) = shr_m mrs / 2 ^ Z.of_nat k.
Proof.
  intros H. induction k as [|k IH].
  - simpl. rewrite Z.div_1_r. reflexivity.
  - rewrite Nat.iter_succ, shr_1_m.
    + rewrite IH, Z.div_div by (try apply pow2_pos; lia).
      rewrite Nat2Z.inj_succ, Z.pow_succ_r by lia. f_equal. lia.
    + rewrite IH. apply Z.div_pos; [exact H | apply pow2_pos; lia].
Qed.

Lemma shr_m_nonneg (p : positive) (mrs : shr_record) :
  0 <= shr_m mrs ->
  shr_m (iter_pos shr_1 p mrs) = shr_m mrs / 2 ^ Zpos p.
Proof.
  intros H. rewrite iter_pos_nat, shr_nat_m, positive_nat_Z by exact H. reflexivity.
Qed.


Lemma shr_nat_exact (k : nat) (m : Z) :
  0 <= m ->
  shr_m (Nat.iter (S k) shr_1 (Build_shr_record m false false)) = m / 2 ^ (Z.of_nat k + 1)
  /\ shr_r (Nat.iter (S k) shr_1 (Build_shr_record m false false))
     = Z.odd (m / 2 ^ Z.of_nat k)
  /\ shr_s (Nat.iter (S k) shr_1 (Build_shr_record m false false))
     = negb (m mod 2 ^ Z.of_nat k =? 0).
Proof.
  intros Hm. induction k as [|k (IHm & IHr & IHs)].
  - rewrite Nat.iter_succ. cbn [Nat.iter nat_rect].
    rewrite shr_1_m, shr_1_r, shr_1_s by (cbn [shr_m]; exact Hm).
    cbn [shr_m shr_r shr_s Z.of_nat Z.add]. change (2 ^ 0) with 1. change (2 ^ 1) with 2.
    rewrite Z.div_1_r, Z.mod_1_r. repeat split.
  - assert (Hq : 0 <= shr_m (Nat.iter (S k) shr_1 (Build_shr_record m false false))).
    { rewrite IHm. apply Z.div_pos; [exact Hm | apply pow2_pos; lia]. }
    rewrite Nat.iter_succ, shr_1_m, shr_1_r, shr_1_s by exact Hq.
    rewrite IHm, IHr, IHs. rewrite Nat2Z.inj_succ.
    replace (Z.succ (Z.of_nat k) + 1) with (Z.of_nat k + 1 + 1) by lia.
    replace (Z.succ (Z.of_nat k)) with (Z.of_nat k + 1) by lia.
    split; [|split; [reflexivity|]].
    + rewrite Z.div_div by (try apply pow2_pos; lia).
      rewrite (Z.pow_add_r 2 (Z.of_nat k + 1) 1) by lia. reflexivity.
    + rewrite (Z.pow_add_r 2 (Z.of_nat k) 1) by lia. change (2 ^ 1) with 2.
      pose proof (pow2_pos (Z.of_nat k) ltac:(lia)) as Hpow.
      rewrite Z.rem_mul_r by lia.
      rewrite (Zmod_odd (m / 2 ^ Z.of_nat k)).
      pose proof (Z.mod_pos_bound m (2 ^ Z.of_nat k) Hpow) as Hrem.
      destruct (Z.odd (m / 2 ^ Z.of_nat k)); cbn [orb].
      * symmetry. apply negb_true_iff. apply Z.eqb_neq. lia.
      * rewrite Z.mul_0_r, Z.add_0_r. reflexivity.
Qed.

(** [k] digits are shifted out of an exact number and the rest is rounded
    to nearest: the quotient, or its successor when at least half of the
    last place was shifted out. *)
Lemma round_shift (p : positive) (m : Z) :
  0 <= m ->
  shr_m (iter_pos shr_1 p (Build_shr_record m false false)) = m / 2 ^ Zpos p
  /\ (round_nearest_even
        (shr_m (iter_pos shr_1 p (Build_shr_record m false false)))
        (loc_of_shr_record (iter_pos shr_1 p (Build_shr_record m false false)))
      = m / 2 ^ Zpos p
      \/ (round_nearest_even
            (shr_m (iter_pos shr_1 p (Build_shr_record m false false)))
            (loc_of_shr_record (iter_pos shr_1 p (Build_shr_record m false false)))
          = m / 2 ^ Zpos p + 1
          /\ 2 ^ (Zpos p - 1) <= m mod 2 ^ Zpos p)).
Proof.
  intros Hm. rewrite iter_pos_nat.
  destruct (Pos.to_nat p) as [|k] eqn:Ek; [pose proof (Pos2Nat.is_pos p); lia|].
  assert (Ep : Zpos p = Z.of_nat k + 1).
  { rewrite <- (positive_nat_Z p), Ek, Nat2Z.inj_succ. lia. }
  destruct (shr_nat_exact k m Hm) as (Hq & Hr & Hs).
  destruct (Nat.iter (S k) shr_1 (Build_shr_record m false false)) as [q r s].
  cbn [shr_m shr_r shr_s] in Hq, Hr, Hs. cbn [shr_m]. rewrite Ep, <- Hq.
  split; [reflexivity|].
  destruct r.
  - assert (Hhalf : 2 ^ (Z.of_nat k + 1 - 1) <= m mod 2 ^ (Z.of_nat k + 1)).
    { replace (Z.of_nat k + 1 - 1) with (Z.of_nat k) by lia.
      rewrite (Z.pow_add_r 2 (Z.of_nat k) 1) by lia. change (2 ^ 1) with 2.
      pose proof (pow2_pos (Z.of_nat k) ltac:(lia)) as Hpow.
      rewrite Z.rem_mul_r by lia. rewrite (Zmod_odd (m / 2 ^ Z.of_nat k)), <- Hr.
      pose proof (Z.mod_pos_bound m (2 ^ Z.of_nat k) Hpow). lia. }
    destruct s; cbn [loc_of_shr_record round_nearest_even].
    + right. split; [reflexivity | exact Hhalf].
    + destruct (Z.even q); [left; reflexivity | right; split; [reflexivity | exact Hhalf]].
  - destruct s; cbn [loc_of_shr_record round_nearest_even]; left; reflexivity.
Qed.

Lemma Zdigits2_unique (m n : Z) : 0 < n -> 2 ^ (n - 1) <= m < 2 ^ n -> Zdigits2 m = n.
Proof.
  intros Hn [Hlo Hhi].
  assert (Hm : 0 < m) by (pose proof (pow2_pos (n - 1) ltac:(lia)); lia).
  destruct m as [|p|p]; try lia. cbn [Zdigits2].
  pose proof (digits2_bounds p) as [Hlo' Hhi'].
  assert (n - 1 < Zpos (digits2_pos p)) by (apply pow2_lt_exponent; lia).
  assert (Zpos (digits2_pos p) - 1 < n) by (apply pow2_lt_exponent; lia).
  lia.
Qed.

Lemma fexp_normal (e : Z) : -1021 <= e -> fexp prec emax e = e - 53.
Proof. intros H. unfold fexp, emin, prec, emax. lia. Qed.


(** ** Rounding an exact number to a double *)

(** A number [M * 2^E] of at least 53 digits, in the range of the normal
    doubles: the mantissa of the double is the quotient of [M] by the
    digits beyond 53, or its successor. *)
Lemma binary_round_aux_exact (M : positive) (E : Z) :
  53 <= Zpos (digits2_pos M) ->
  -1021 <= Zpos (digits2_pos M) + E ->
  Zpos (digits2_pos M) + E < 1024 ->
  exists (m' : positive) (e' q' : Z),
    binary_round_aux prec emax false (Zpos M) E loc_Exact = S754_finite false m' e'
    /\ Zpos m' * 2 ^ (e' - (E + (Zpos (digits2_pos M) - 53))) = q'
    /\ E + (Zpos (digits2_pos M) - 53) <= e' <= E + (Zpos (digits2_pos M) - 53) + 1
    /\ (q' = Zpos M / 2 ^ (Zpos (digits2_pos M) - 53)
        \/ (q' = Zpos M / 2 ^ (Zpos (digits2_pos M) - 53) + 1
            /\ 1 <= Zpos (digits2_pos M) - 53
            /\ 2 ^ (Zpos (digits2_pos M) - 53 - 1)
               <= Zpos M mod 2 ^ (Zpos (digits2_pos M) - 53))).
Proof.
  intros Hd Hlo Hhi. pose proof (digits2_bounds M) as [HMlo HMhi].
  remember (Zpos (digits2_pos M)) as d eqn:Ed.
  unfold binary_round_aux, shr_fexp. cbn [Zdigits2]. rewrite <- Ed.
  rewrite (fexp_normal (d + E)) by lia. cbn [shr_record_of_loc].
  replace (d + E - 53 - E) with (d - 53) by lia.
  (* the mantissa after the first shift and the rounding *)
  assert (Hstage :
    exists q',
      (let '(mrs', e') := shr (Build_shr_record (Zpos M) false false) E (d - 53) in
       (round_nearest_even (shr_m mrs') (loc_of_shr_record mrs'), e'))
      = (q', E + (d - 53))
      /\ 2 ^ 52 <= q' <= 2 ^ 53
      /\ (q' = Zpos M / 2 ^ (d - 53)
          \/ (q' = Zpos M / 2 ^ (d - 53) + 1 /\ 1 <= d - 53
              /\ 2 ^ (d - 53 - 1) <= Zpos M mod 2 ^ (d - 53)))).
  { destruct (d - 53) as [|p|p] eqn:Ek; try lia.
    - exists (Zpos M). cbn [shr loc_of_shr_record round_nearest_even shr_m].
      rewrite Z.add_0_r. split; [reflexivity|].
      assert (Hd53 : d = 53) by lia. rewrite Hd53 in HMlo, HMhi.
      change (53 - 1) with 52 in HMlo. split; [lia|].
      left. change (2 ^ 0) with 1. rewrite Z.div_1_r. reflexivity.
    - cbn [shr]. destruct (round_shift p (Zpos M) ltac:(lia)) as (Hq & Hround).
      assert (Hquot : 2 ^ 52 <= Zpos M / 2 ^ Zpos p < 2 ^ 53).
      { pose proof (pow2_pos (Zpos p) ltac:(lia)) as Hpow.
        replace (d - 1) with (52 + Zpos p) in HMlo by lia.
        replace d with (53 + Zpos p) in HMhi by lia.
        rewrite Z.pow_add_r in HMlo, HMhi by lia. split.
        - apply Z.div_le_lower_bound; lia.
        - apply Z.div_lt_upper_bound; lia. }
      destruct Hround as [Hr|[Hr Hhalf]].
      + exists (Zpos M / 2 ^ Zpos p). rewrite Hr. split; [reflexivity|].
        split; [lia | left; reflexivity].
      + exists (Zpos M / 2 ^ Zpos p + 1). rewrite Hr. split; [reflexivity|].
        split; [lia|]. right. split; [reflexivity|]. split; [lia | exact Hhalf]. }
  destruct Hstage as (q' & Hstage & Hrange & Hq').
  destruct (shr (Build_shr_record (Zpos M) false false) E (d - 53)) as [mrs' e'].
  injection Hstage as Hq He. rewrite Hq, He. clear Hq He mrs' e'.
  (* the second shift *)
  destruct (Z.eq_dec q' (2 ^ 53)) as [Hcarry|Hnocarry].
  - subst q'. change (Zdigits2 (2 ^ 53)) with 54.
    rewrite (fexp_normal (54 + (E + (d - 53)))) by lia.
    replace (54 + (E + (d - 53)) - 53 - (E + (d - 53))) with 1 by lia.
    cbn [shr_record_of_loc shr iter_pos]. change (shr_1 (Build_shr_record (2 ^ 53) false false))
      with (Build_shr_record (2 ^ 52) false false). cbn [shr_m].
    change (2 ^ 52) with (Zpos 4503599627370496).
    destruct (Z.leb_spec (E + (d - 53) + 1) (emax - prec)) as [_|Hover];
      [|unfold emax, prec in Hover; lia].
    exists 4503599627370496%positive, (E + (d - 53) + 1), (2 ^ 53).
    split; [reflexivity|]. split.
    + replace (E + (d - 53) + 1 - (E + (d - 53))) with 1 by lia. reflexivity.
    + split; [lia | exact Hq'].
  - rewrite (Zdigits2_unique q' 53) by (change (53 - 1) with 52; lia).
    rewrite (fexp_normal (53 + (E + (d - 53)))) by lia.
    replace (53 + (E + (d - 53)) - 53 - (E + (d - 53))) with 0 by lia.
    cbn [shr_record_of_loc shr shr_m].
    destruct q' as [|m'|m']; [change (2 ^ 52) with 4503599627370496 in Hrange; lia | |
                              change (2 ^ 52) with 4503599627370496 in Hrange; lia].
    destruct (Z.leb_spec (E + (d - 53)) (emax - prec)) as [_|Hover];
      [|unfold emax, prec in Hover; lia].
    exists m', (E + (d - 53)), (Zpos m').
    split; [reflexivity|]. split.
    + rewrite Z.sub_diag. change (2 ^ 0) with 1. lia.
    + split; [lia | exact Hq'].
Qed.


(** ** Adding one half *)

Lemma double_half_eq : double_half = S754_finite false 4503599627370496 (-53).
Proof. reflexivity. Qed.

Lemma iter_xO (d : positive) (m : positive) :
  Zpos (Pos.iter xO m d) = Zpos m * 2 ^ Zpos d.
Proof.
  induction d as [|d IH] using Pos.peano_ind.
  - cbn [Pos.iter]. change (2 ^ 1) with 2. lia.
  - rewrite Pos.iter_succ, Pos2Z.inj_succ, Z.pow_succ_r by lia.
    change (Zpos (Pos.iter xO m d)~0) with (2 * Zpos (Pos.iter xO m d)). rewrite IH. lia.
Qed.

Lemma shl_align_value (mx : positive) (ex ex' : Z) :
  ex' <= ex -> Zpos (fst (shl_align mx ex ex')) = Zpos mx * 2 ^ (ex - ex').
Proof.
  intros H. unfold shl_align. destruct (ex' - ex) as [|d|d] eqn:E; cbn [fst].
  - replace (ex - ex') with 0 by lia. change (2 ^ 0) with 1. lia.
  - lia.
  - rewrite iter_xO. replace (ex - ex') with (Zpos d) by lia. reflexivity.
Qed.

Lemma shl_align_id (mx : positive) (ex ex' : Z) :
  ex <= ex' -> shl_align mx ex ex' = (mx, ex).
Proof.
  intros H. unfold shl_align. destruct (ex' - ex) as [|d|d] eqn:E; try reflexivity. lia.
Qed.

(** The sum of a positive double and one half, before it is rounded. *)
Lemma add_half_sum (m : positive) (e : Z) :
  exists M : positive,
    Zpos M = Zpos m * 2 ^ (e - Z.min e (-53)) + 2 ^ (-1 - Z.min e (-53))
    /\ double_add (S754_finite false m e) double_half
       = binary_normalize prec emax (Zpos M) (Z.min e (-53)) false.
Proof.
  rewrite double_half_eq. unfold double_add, SFadd. cbn [cond_Zopp].
  exists (fst (shl_align m e (Z.min e (-53)))
          + fst (shl_align 4503599627370496 (-53) (Z.min e (-53))))%positive.
  split; [|reflexivity].
  rewrite Pos2Z.inj_add, !shl_align_value by lia.
  change (Zpos 4503599627370496) with (2 ^ 52).
  rewrite <- Z.pow_add_r by lia. f_equal. f_equal. lia.
Qed.

(** Round-half-up of the double is the integral part of that sum. *)
Lemma round_half_up_sum (m : positive) (e : Z) :
  round_half_up (double_numerator m e) (double_denominator e)
  = (Zpos m * 2 ^ (e - Z.min e (-53)) + 2 ^ (-1 - Z.min e (-53))) / 2 ^ (- Z.min e (-53)).
Proof.
  unfold round_half_up, double_numerator, double_denominator.
  destruct (Z_lt_le_dec e 0) as [Hneg|Hpos].
  - rewrite (Z.max_r e 0), (Z.max_l (- e) 0) by lia. change (2 ^ 0) with 1. rewrite Z.mul_1_r.
    destruct (Z_lt_le_dec e (-53)) as [Hsmall|Hbig].
    + rewrite (Z.min_l e (-53)) by lia. rewrite Z.sub_diag. change (2 ^ 0) with 1.
      rewrite Z.mul_1_r.
      replace (- e) with (1 + (-1 - e)) by lia. rewrite Z.pow_add_r by lia.
      change (2 ^ 1) with 2.
      pose proof (pow2_pos (-1 - e) ltac:(lia)) as Hh.
      replace (2 * Zpos m + 2 * 2 ^ (-1 - e)) with (2 * (Zpos m + 2 ^ (-1 - e))) by lia.
      apply Z.div_mul_cancel_l; lia.
    + rewrite (Z.min_r e (-53)) by lia. change (-1 - -53) with 52. change (- -53) with 53.
      replace (e - -53) with (e + 53) by lia.
      pose proof (pow2_pos (- e) ltac:(lia)) as Hu.
      pose proof (pow2_pos (e + 53) ltac:(lia)) as Hv.
      assert (Huv : 2 ^ (- e) * 2 ^ (e + 53) = 2 ^ 53).
      { rewrite <- Z.pow_add_r by lia. f_equal. lia. }
      assert (E52 : 2 * 2 ^ 52 = 2 ^ 53) by reflexivity.
      rewrite <- (Z.div_mul_cancel_r (2 * Zpos m + 2 ^ (- e)) (2 * 2 ^ (- e)) (2 ^ (e + 53)))
        by lia.
      replace (2 * 2 ^ (- e) * 2 ^ (e + 53)) with (2 * 2 ^ 53) by lia.
      replace ((2 * Zpos m + 2 ^ (- e)) * 2 ^ (e + 53))
        with (2 * (Zpos m * 2 ^ (e + 53) + 2 ^ 52)) by lia.
      apply Z.div_mul_cancel_l; lia.
  - rewrite (Z.max_l e 0), (Z.max_r (- e) 0), (Z.min_r e (-53)) by lia.
    change (2 ^ 0) with 1. change (-1 - -53) with 52. change (- -53) with 53.
    replace (e - -53) with (e + 53) by lia. rewrite Z.pow_add_r by lia.
    replace (2 * (Zpos m * 2 ^ e) + 1) with (Zpos m * 2 ^ e * 2 + 1) by lia.
    replace (2 * 1) with 2 by lia.
    rewrite Z.div_add_l by lia. rewrite Z.mul_assoc, Z.div_add_l by (change (2 ^ 53) with 9007199254740992; lia).
    reflexivity.
Qed.


(** Rounding up does not reach the next integer: below one half. *)
Lemma round_up_below_half (m t : Z) :
  1 <= t -> 0 < m < 2 ^ 53 ->
  ~ (m = 2 ^ 53 - 1 /\ t = 1) ->
  2 ^ (t - 1) <= m mod 2 ^ t ->
  ((m + 2 ^ (52 + t)) / 2 ^ t + 1) / 2 ^ 53 = (m + 2 ^ (52 + t)) / 2 ^ t / 2 ^ 53.
Proof.
  intros Ht Hm Hnot Hrem.
  pose proof (pow2_pos t ltac:(lia)) as Hpt.
  rewrite (Z.pow_add_r 2 52 t) by lia. rewrite Z.div_add by lia.
  assert (Hq : 0 <= m / 2 ^ t) by (apply Z.div_pos; lia).
  assert (Hsmall : m / 2 ^ t + 1 < 2 ^ 52).
  { destruct (Z.eq_dec t 1) as [->|Hne].
    - change (2 ^ 1) with 2 in *. change (2 ^ (1 - 1)) with 1 in Hrem.
      pose proof (Z.div_mod m 2 ltac:(lia)). pose proof (Z.mod_pos_bound m 2 ltac:(lia)).
      change (2 ^ 53) with 9007199254740992 in *.
      change (2 ^ 52) with 4503599627370496. lia.
    - assert (m / 2 ^ t < 2 ^ 51).
      { apply Z.div_lt_upper_bound; [lia|].
        pose proof (pow2_le 2 t ltac:(lia)) as H2. change (2 ^ 2) with 4 in H2.
        change (2 ^ 53) with 9007199254740992 in *.
        change (2 ^ 51) with 2251799813685248. nia. }
      change (2 ^ 51) with 2251799813685248 in *.
      change (2 ^ 52) with 4503599627370496. lia. }
  change (2 ^ 52) with 4503599627370496 in *.
  rewrite !Z.div_small; [reflexivity | |];
    change (2 ^ 53) with 9007199254740992; lia.
Qed.

(** Rounding up does not reach the next integer: from one half on. *)
Lemma round_up_from_half (m j k M : Z) :
  0 <= j -> 0 < m < 2 ^ 53 ->
  M = m * 2 ^ j + 2 ^ 52 ->
  2 ^ (52 + k) <= M < 2 ^ (53 + k) ->
  1 <= k ->
  M / 2 ^ 53 < 2 ^ 32 ->
  2 ^ (k - 1) <= M mod 2 ^ k ->
  (M / 2 ^ k + 1) / 2 ^ (53 - k) = M / 2 ^ k / 2 ^ (53 - k).
Proof.
  intros Hj Hm HM [Hlo Hhi] Hk Hn Hrem.
  pose proof (pow2_pos j Hj) as Hpj. pose proof (pow2_pos k ltac:(lia)) as Hpk.
  pose proof (pow2_pos (k - 1) ltac:(lia)) as Hpk1.
  (* the number of digits: at most 32 are shifted out *)
  assert (Hk32 : k <= 32).
  { assert (M < 2 ^ 85).
    { pose proof (Z.div_mod M (2 ^ 53) ltac:(change (2 ^ 53) with 9007199254740992; lia)).
      pose proof (Z.mod_pos_bound M (2 ^ 53) ltac:(change (2 ^ 53) with 9007199254740992; lia)).
      change (2 ^ 85) with (2 ^ 53 * 2 ^ 32).
      change (2 ^ 53) with 9007199254740992 in *. change (2 ^ 32) with 4294967296 in *. nia. }
    assert (52 + k < 85) by (apply pow2_lt_exponent; lia). lia. }
  (* at most one digit more than the factor of the mantissa *)
  assert (Hkj : k <= j + 1).
  { assert (M < 2 ^ (54 + j)).
    { replace (54 + j) with (j + 54) by lia. rewrite (Z.pow_add_r 2 j 54) by lia.
      change (2 ^ 54) with 18014398509481984. change (2 ^ 53) with 9007199254740992 in *.
      change (2 ^ 52) with 4503599627370496 in *. nia. }
    assert (52 + k < 54 + j) by (apply pow2_lt_exponent; lia). lia. }
  (* and not fewer, since something was shifted out *)
  assert (Ek : k = j + 1).
  { destruct (Z_le_gt_dec k j) as [Hle|Hgt]; [|lia].
    exfalso.
    assert (Hdiv : M mod 2 ^ k = 0).
    { rewrite HM.
      replace j with (j - k + k) by lia. rewrite (Z.pow_add_r 2 (j - k) k) by lia.
      replace 52 with (52 - k + k) at 1 by lia. rewrite (Z.pow_add_r 2 (52 - k) k) by lia.
      replace (m * (2 ^ (j - k) * 2 ^ k) + 2 ^ (52 - k) * 2 ^ k)
        with ((m * 2 ^ (j - k) + 2 ^ (52 - k)) * 2 ^ k) by lia.
      apply Z.mod_mul. lia. }
    lia. }
  subst k. clear Hkj Hrem Hk.
  replace (53 - (j + 1)) with (52 - j) by lia.
  pose proof (pow2_pos (51 - j) ltac:(lia)) as Hb.
  assert (E1 : 2 ^ (j + 1) = 2 * 2 ^ j).
  { rewrite Z.pow_add_r by lia. change (2 ^ 1) with 2. lia. }
  assert (E2 : 2 ^ (52 - j) = 2 * 2 ^ (51 - j)).
  { replace (52 - j) with (51 - j + 1) by lia. rewrite Z.pow_add_r by lia.
    change (2 ^ 1) with 2. lia. }
  assert (E3 : 2 ^ 52 = 2 ^ j * (2 * 2 ^ (51 - j))).
  { rewrite <- E2, <- Z.pow_add_r by lia. f_equal. lia. }
  assert (E4 : 2 ^ (52 + (j + 1)) = 2 ^ 52 * (2 * 2 ^ j)).
  { rewrite <- E1, <- Z.pow_add_r by lia. reflexivity. }
  rewrite E1, E2 in *. rewrite E4 in Hlo.
  remember (2 ^ j) as a eqn:Ea. remember (2 ^ (51 - j)) as b eqn:Eb.
  assert (Hhi' : M < 2 ^ 52 * (2 * a) + 2 ^ 52).
  { rewrite HM. change (2 ^ 53) with (2 * 2 ^ 52) in Hm. nia. }
  pose proof (Z.div_mod M (2 * a) ltac:(lia)) as Hdm.
  pose proof (Z.mod_pos_bound M (2 * a) ltac:(lia)) as Hmb.
  remember (M / (2 * a)) as q eqn:Eq. remember (M mod (2 * a)) as r eqn:Er.
  assert (Hq1 : a * (2 * b) <= q) by (rewrite E3 in Hlo; nia).
  assert (Hq2 : q + 1 < (a + 1) * (2 * b)) by (rewrite E3 in Hhi'; nia).
  assert (Ha : q / (2 * b) = a).
  { symmetry. apply Z.div_unique with (q - a * (2 * b)); nia. }
  assert (Ha' : (q + 1) / (2 * b) = a).
  { symmetry. apply Z.div_unique with (q + 1 - a * (2 * b)); nia. }
  congruence.
Qed.


Lemma sum_integral (m M : positive) (e ez : Z) :
  (e < -53 /\ ez = e) \/ (-53 <= e /\ ez = -53) ->
  Zpos M = Zpos m * 2 ^ (e - ez) + 2 ^ (-1 - ez) ->
  Zpos m < 2 ^ 53 ->
  S754_finite false m e <> double_below_half ->
  Zpos M / 2 ^ (- ez) < UINT_MODULUS ->
  double_to_unsigned (binary_normalize prec emax (Zpos M) ez false)
  = Done (Zpos M / 2 ^ (- ez)).
Proof.
  intros Hcase HM Hm Hnot Hfits.
  assert (Hez : ez <= -53 /\ ez <= e) by lia. destruct Hez as [Hez Hee].
  pose proof (digits2_bounds M) as [HMlo HMhi].
  remember (Zpos (digits2_pos M)) as d eqn:Ed.
  pose proof (pow2_pos (- ez) ltac:(lia)) as HpP.
  (* the digits of the sum *)
  assert (Hhalf : 2 ^ (-1 - ez) <= Zpos M).
  { rewrite HM. pose proof (pow2_pos (e - ez) ltac:(lia)). nia. }
  assert (Hd0 : -1 - ez < d) by (apply pow2_lt_exponent; lia).
  assert (Hd1 : d - 1 < 32 + - ez).
  { apply pow2_lt_exponent; [lia|].
    pose proof (Z.div_mod (Zpos M) (2 ^ (- ez)) ltac:(lia)).
    pose proof (Z.mod_pos_bound (Zpos M) (2 ^ (- ez)) ltac:(lia)).
    rewrite Z.pow_add_r by lia. unfold UINT_MODULUS in Hfits. nia. }
  cbn [binary_normalize]. unfold binary_round. rewrite <- Ed.
  rewrite shl_align_id by (rewrite fexp_normal by lia; lia).
  destruct (binary_round_aux_exact M ez) as (m' & e' & q' & -> & Hval & He' & Hq');
    rewrite <- ?Ed; try lia.
  rewrite <- Ed in *.
  remember (d - 53) as k eqn:Ek.
  assert (Hk : 0 <= k) by lia.
  pose proof (pow2_pos k Hk) as Hpk.
  (* the integral part of the double *)
  cbn [double_to_unsigned].
  assert (Hint : Z.shiftl (Zpos m') e' = q' / 2 ^ (- ez - k)).
  { replace e' with (- - e') at 1 by lia.
    rewrite Z.shiftl_opp_r, Z.shiftr_div_pow2 by lia.
    rewrite <- Hval.
    replace (- ez - k) with (- e' + (e' - (ez + k))) by lia.
    rewrite Z.pow_add_r by lia.
    apply eq_sym, Z.div_mul_cancel_r; apply Z.neq_sym, Z.lt_neq, pow2_pos; lia. }
  assert (Hquot : Zpos M / 2 ^ k / 2 ^ (- ez - k) = Zpos M / 2 ^ (- ez)).
  { rewrite Z.div_div by (try apply pow2_pos; lia).
    rewrite <- Z.pow_add_r by lia. f_equal. f_equal. lia. }
  assert (Hsame : q' / 2 ^ (- ez - k) = Zpos M / 2 ^ (- ez)).
  { destruct Hq' as [->|(-> & Hk1 & Hrem)]; [exact Hquot|].
    rewrite <- Hquot. clear Hquot Hint Hval He'.
    destruct Hcase as [[Hsmall ->]|[Hbig ->]].
    - (* below one half *)
      replace (e - e) with 0 in HM by lia. change (2 ^ 0) with 1 in HM.
      rewrite Z.mul_1_r in HM.
      assert (Hd : d - 1 < 53 + (-53 - e)).
      { apply pow2_lt_exponent; [lia|].
        replace (53 + (-53 - e)) with (-1 - e + 1) by lia. rewrite Z.pow_add_r by lia.
        change (2 ^ 1) with 2.
        assert (2 ^ 53 <= 2 ^ (-1 - e)) by (apply pow2_le; lia). lia. }
      assert (Ek' : k = -53 - e) by lia.
      replace (- e - k) with 53 by lia.
      rewrite HM. replace (-1 - e) with (52 + k) by lia.
      apply round_up_below_half; try lia.
      + intros [H1 H2]. apply Hnot. unfold double_below_half.
        assert (He : e = -54) by lia. rewrite He. f_equal.
        change (2 ^ 53 - 1) with (Zpos 9007199254740991) in H1. congruence.
      + rewrite HM in Hrem. replace (-1 - e) with (52 + k) in Hrem by lia.
        rewrite (Z.pow_add_r 2 52 k) in Hrem by lia.
        rewrite Z.mod_add in Hrem by lia. exact Hrem.
    - (* from one half on *)
      change (- -53) with 53 in *. change (-1 - -53) with 52 in *.
      replace (e - -53) with (e + 53) in HM by lia.
      apply (round_up_from_half (Zpos m) (e + 53) k (Zpos M)); try lia.
      + replace (52 + k) with (d - 1) by lia. replace (53 + k) with d by lia. lia.
      + unfold UINT_MODULUS in Hfits. exact Hfits. }
  rewrite Hint, Hsame.
  destruct (Z.ltb_spec (Zpos M / 2 ^ (- ez)) UINT_MODULUS) as [_|Hge]; [reflexivity | lia].
Qed.

(** The sum with one half, cut off, is the round-half-up value of every
    positive double of at most 53 digits but the largest one below one
    half, as long as the value fits in [unsigned]. *)
Lemma add_half_rounds (m : positive) (e : Z) :
  Zpos m < 2 ^ 53 ->
  S754_finite false m e <> double_below_half ->
  round_half_up (double_numerator m e) (double_denominator e) < UINT_MODULUS ->
  double_to_unsigned (double_add (S754_finite false m e) double_half)
  = Done (round_half_up (double_numerator m e) (double_denominator e)).
Proof.
  intros Hm Hnot Hfits. rewrite round_half_up_sum in *.
  destruct (add_half_sum m e) as (M & HM & ->). rewrite <- HM in *.
  apply (sum_integral m M e (Z.min e (-53))); try assumption. lia.
Qed.


(** ** The mantissa of a result *)

Lemma shr_record_of_loc_m (m : Z) (l : location) : shr_m (shr_record_of_loc m l) = m.
Proof. destruct l as [|[| |]]; reflexivity. Qed.

Lemma round_nearest_even_bounds (q : Z) (l : location) :
  q <= round_nearest_even q l <= q + 1.
Proof.
  destruct l as [|[| |]]; cbn [round_nearest_even]; try lia.
  destruct (Z.even q); lia.
Qed.

Lemma fexp_ge (e : Z) : e - 53 <= fexp prec emax e.
Proof. unfold fexp, prec. lia. Qed.

(** The mantissa after a shift to the exponent of the format. *)
Lemma shr_fexp_m (m e : Z) (l : location) :
  0 <= m ->
  0 <= shr_m (fst (shr_fexp prec emax m e l)) < 2 ^ 53
  /\ (0 < fexp prec emax (Zdigits2 m + e) - e ->
      shr_m (fst (shr_fexp prec emax m e l)) <= m / 2).
Proof.
  intros Hm. unfold shr_fexp, shr.
  pose proof (fexp_ge (Zdigits2 m + e)) as Hf.
  pose proof (Zdigits2_bounds m Hm) as Hd.
  assert (Hd0 : 0 <= Zdigits2 m) by (destruct m; cbn [Zdigits2]; lia).
  destruct (fexp prec emax (Zdigits2 m + e) - e) as [|p|p] eqn:Ek; cbn [fst].
  - rewrite shr_record_of_loc_m. split; [|lia]. split; [lia|].
    assert (2 ^ Zdigits2 m <= 2 ^ 53) by (apply pow2_le; lia). lia.
  - rewrite shr_m_nonneg by (rewrite shr_record_of_loc_m; exact Hm).
    rewrite shr_record_of_loc_m.
    pose proof (pow2_pos (Zpos p) ltac:(lia)) as Hp.
    split; [split|].
    + apply Z.div_pos; lia.
    + apply Z.div_lt_upper_bound; [lia|].
      assert (2 ^ Zdigits2 m <= 2 ^ (Zpos p + 53)) by (apply pow2_le; lia).
      rewrite Z.pow_add_r in * by lia. lia.
    + intros _. assert (2 ^ 1 <= 2 ^ Zpos p) by (apply pow2_le; lia).
      change (2 ^ 1) with 2 in *.
      apply Z.div_le_lower_bound; [lia|].
      pose proof (Z.div_mod m (2 ^ Zpos p) ltac:(lia)).
      pose proof (Z.mod_pos_bound m (2 ^ Zpos p) ltac:(lia)).
      assert (0 <= m / 2 ^ Zpos p) by (apply Z.div_pos; lia). nia.
  - rewrite shr_record_of_loc_m. split; [|lia]. split; [lia|].
    assert (2 ^ Zdigits2 m <= 2 ^ 53) by (apply pow2_le; lia). lia.
Qed.

(** Every finite result of a rounding has a mantissa of at most 53
    digits and the sign that was given. *)
Lemma binary_round_aux_fits (s : bool) (mx ex : Z) (lx : location) :
  0 <= mx ->
  mantissa_fits (binary_round_aux prec emax s mx ex lx)
  /\ forall s' m' e', binary_round_aux prec emax s mx ex lx = S754_finite s' m' e' -> s' = s.
Proof.
  intros Hmx. unfold binary_round_aux.
  pose proof (shr_fexp_m mx ex lx Hmx) as [Hq1 _].
  destruct (shr_fexp prec emax mx ex lx) as [mrs' e']. cbn [fst] in Hq1.
  pose proof (round_nearest_even_bounds (shr_m mrs') (loc_of_shr_record mrs')) as Hq'.
  remember (round_nearest_even (shr_m mrs') (loc_of_shr_record mrs')) as q' eqn:Eq'.
  pose proof (shr_fexp_m q' e' loc_Exact ltac:(lia)) as [Hq2 Hhalf].
  assert (Hlt : shr_m (fst (shr_fexp prec emax q' e' loc_Exact)) < 2 ^ 53) by lia.
  destruct (shr_fexp prec emax q' e' loc_Exact) as [mrs'' e'']. cbn [fst] in *.
  destruct (shr_m mrs'') as [|m|m]; cbn [mantissa_fits].
  - split; [exact I | discriminate].
  - destruct (e'' <=? emax - prec); cbn [mantissa_fits].
    + split; [exact Hlt|]. intros s' m' e0 H. injection H as <- _ _. reflexivity.
    + split; [exact I | discriminate].
  - split; [exact I | discriminate].
Qed.


Lemma double_of_ratio_fits (s : bool) (n d : positive) :
  mantissa_fits (double_of_ratio s n d).
Proof.
  unfold double_of_ratio, SFdiv_core_binary.
  remember (Z.min (fexp prec emax (Zdigits2 (Zpos n) + 0 - (Zdigits2 (Zpos d) + 0))) (0 - 0))
    as e' eqn:Ee.
  remember (match 0 - 0 - e' with
            | 0 => Zpos n
            | Zpos _ => Z.shiftl (Zpos n) (0 - 0 - e')
            | Zneg _ => 0
            end) as m' eqn:Em.
  assert (Hm : 0 <= m').
  { rewrite Em. destruct (0 - 0 - e'); try lia. apply Z.shiftl_nonneg. lia. }
  pose proof (Z.div_pos m' (Zpos d) Hm ltac:(lia)) as Hq. unfold Z.div in Hq.
  destruct (Z.div_eucl m' (Zpos d)) as [q r].
  apply binary_round_aux_fits. exact Hq.
Qed.

Lemma double_of_scientific_fits (s : bool) (base mantissa exponent : Z) :
  mantissa_fits (double_of_scientific s base mantissa exponent).
Proof.
  unfold double_of_scientific. destruct mantissa as [|m|m]; try exact I.
  destruct (0 <=? exponent); apply double_of_ratio_fits.
Qed.

Lemma read_special_fits (s : bool) (text : string) (x : double) (rest : string) :
  read_special s text = Some (x, rest) -> mantissa_fits x.
Proof.
  unfold read_special. intros H.
  destruct (strip_word "infinity" text); [injection H as <- _; exact I|].
  destruct (strip_word "inf" text); [injection H as <- _; exact I|].
  destruct (strip_word "nan" text) as [r|]; [|discriminate].
  destruct r as [|ch r]; [injection H as <- _; exact I|].
  assert (E : x = S754_nan).
  { destruct ch as [[] [] [] [] [] [] [] []]; try (injection H as <- _; reflexivity).
    destruct (skip_nan_chars r) as [|ch' r']; [injection H as <- _; reflexivity|].
    destruct ch' as [[] [] [] [] [] [] [] []]; injection H as <- _; reflexivity. }
  rewrite E. exact I.
Qed.

Lemma read_decimal_fits (s : bool) (text : string) (x : double) (rest : string) :
  read_decimal s text = Some (x, rest) -> mantissa_fits x.
Proof.
  unfold read_decimal. intros H.
  destruct (read_mantissa digit_value 10 text) as [[[mantissa count] fraction_digits] r].
  destruct (count =? 0); [discriminate|].
  destruct (read_exponent "e" r) as [exponent rest'].
  injection H as <- _. apply double_of_scientific_fits.
Qed.

Lemma read_hexadecimal_fits (s : bool) (text : string) (x : double) (rest : string) :
  read_hexadecimal s text = Some (x, rest) -> mantissa_fits x.
Proof.
  unfold read_hexadecimal. intros H.
  destruct text as [|c0 [|cx digits]]; try discriminate.
  - destruct c0 as [[] [] [] [] [] [] [] []]; discriminate H.
  - destruct c0 as [[] [] [] [] [] [] [] []]; try discriminate H.
    destruct (Ascii.eqb (tolower cx) "x"); [|discriminate].
    destruct (read_mantissa hex_digit_value 16 digits)
      as [[[mantissa count] fraction_digits] r].
    destruct (count =? 0); [discriminate|].
    destruct (read_exponent "p" r) as [exponent rest'].
    injection H as <- _. apply double_of_scientific_fits.
Qed.

(** [strtod] returns a double. *)
Lemma strtod_fits (nptr : string) : mantissa_fits (fst (strtod nptr)).
Proof.
  unfold strtod. destruct (read_sign (skip_spaces nptr)) as [negative subject].
  destruct (read_special negative subject) as [[x r]|] eqn:Hs.
  - apply (read_special_fits _ _ _ _ Hs).
  - destruct (read_hexadecimal negative subject) as [[x r]|] eqn:Hh.
    + apply (read_hexadecimal_fits _ _ _ _ Hh).
    + destruct (read_decimal negative subject) as [[x r]|] eqn:Hd.
      * apply (read_decimal_fits _ _ _ _ Hd).
      * exact I.
Qed.

Lemma double_mul_fits (x y : double) : mantissa_fits (double_mul x y).
Proof.
  unfold double_mul, SFmul.
  destruct x as [sx|sx| |sx mx ex], y as [sy|sy| |sy my ey]; try exact I.
  apply binary_round_aux_fits. lia.
Qed.


(** ** Extraction of the clock speed *)

Lemma prefix_at (s : string) :
  String.prefix "@" s = match s with String c _ => Ascii.eqb "@" c | EmptyString => false end.
Proof.
  destruct s as [|c s]; [reflexivity|].
  change (String.prefix "@" (String c s))
    with (if ascii_dec "@" c then String.prefix "" s else false).
  destruct (ascii_dec "@" c) as [E|Hne].
  - rewrite <- E. destruct s; reflexivity.
  - symmetry. apply (proj2 (Ascii.eqb_neq _ _)). exact Hne.
Qed.

Lemma strstr_unfold (haystack needle : string) :
  strstr haystack needle
  = if String.prefix needle haystack then Some haystack
    else match haystack with
         | EmptyString => None
         | String _ rest => strstr rest needle
         end.
Proof. destruct haystack; reflexivity. Qed.

Lemma string_mem_cons (c d : ascii) (s : string) :
  string_mem c (String d s) = Ascii.eqb c d || string_mem c s.
Proof. reflexivity. Qed.


Lemma strstr_first_at (pre rest : string) :
  string_mem "@" pre = false ->
  strstr (pre ++ String "@" rest) "@" = Some (String "@" rest).
Proof.
  induction pre as [|c pre IH]; intros H.
  - change ("" ++ String "@" rest) with (String "@" rest).
    rewrite strstr_unfold, prefix_at. reflexivity.
  - rewrite string_mem_cons in H. apply orb_false_elim in H as [Hc Hs].
    change (String c pre ++ String "@" rest) with (String c (pre ++ String "@" rest)).
    rewrite strstr_unfold, prefix_at, Hc. apply IH. exact Hs.
Qed.

(** [strncmp] with the length of the word compares the word with the
    token of that length. *)
Lemma strncmp_token (word : string) :
  forall s, (strncmp s word (String.length word) =? 0)
            = String.eqb (String.substring 0 (String.length word) s) word.
Proof.
  induction word as [|b word IH]; intros s; simpl.
  - destruct s; reflexivity.
  - destruct s as [|a s]; simpl; [reflexivity|].
    destruct (Ascii.eqb a b); [apply IH|].
    destruct (nat_of_ascii a <? nat_of_ascii b)%nat; reflexivity.
Qed.

Lemma set_processorSpeedMHz_same (c : Collection) :
  set_processorSpeedMHz (processorSpeedMHz c) c = c.
Proof. destruct c; reflexivity. Qed.

Lemma extract_unfold (s : string) (c : Collection) :
  extractProcessorSpeedFromModelName (Some s) c
  = match strstr s "@" with
    | None => Done c
    | Some text' =>
      if negb (processorSpeedMHz c =? 0) then Done c
      else
        let '(speed, unit) := strtod (string_drop 1 text') in
        v <- double_to_unsigned
               (if (strncmp (skip_spaces unit) "GHz" 3 =? 0)
                   || (double_ltb speed double_100
                       && negb (strncmp (skip_spaces unit) "MHz" 3 =? 0))
                then double_add (double_mul double_1000 speed) double_half
                else double_add speed double_half) ;;
        Done (set_processorSpeedMHz v c)
    end.
Proof. reflexivity. Qed.



Lemma extract_at_first (pre rest : string) (c : Collection) :
  string_mem "@" pre = false ->
  processorSpeedMHz c = 0 ->
  extractProcessorSpeedFromModelName (Some (pre ++ String "@" rest)) c
  = let '(speed, unit) := strtod rest in
    let isMHz := String.eqb (unit_token (skip_spaces unit)) "MHz" in
    let isGHz := String.eqb (unit_token (skip_spaces unit)) "GHz" in
    v <- double_to_unsigned
           (if isGHz || (double_ltb speed double_100 && negb isMHz)
            then double_add (double_mul double_1000 speed) double_half
            else double_add speed double_half) ;;
    Done (set_processorSpeedMHz v c).
Proof.
  intros Hpre Hc. rewrite extract_unfold, (strstr_first_at pre rest Hpre), Hc.
  change (string_drop 1 (String "@" rest)) with rest.
  change (negb (0 =? 0)) with false. cbv iota.
  destruct (strtod rest) as [speed unit].
  rewrite (strncmp_token "MHz"), (strncmp_token "GHz"). reflexivity.
Qed.


Lemma speed_in_MHz_fits (rest : string) : mantissa_fits (speed_in_MHz rest).
Proof.
  unfold speed_in_MHz. pose proof (strtod_fits rest) as H.
  destruct (strtod rest) as [speed unit]. cbn [fst] in H.
  match goal with |- mantissa_fits (if ?b then _ else _) => destruct b end;
    [apply double_mul_fits | exact H].
Qed.

(** The extraction on a value with [@], when no speed is stored: one half
    is added to the speed in MHz and the fraction is cut off. *)
Lemma extract_speed (pre rest : string) (c : Collection) :
  string_mem "@" pre = false ->
  processorSpeedMHz c = 0 ->
  extractProcessorSpeedFromModelName (Some (pre ++ String "@" rest)) c
  = (v <- double_to_unsigned (double_add (speed_in_MHz rest) double_half) ;;
     Done (set_processorSpeedMHz v c)).
Proof.
  intros Hpre Hc. rewrite extract_unfold, (strstr_first_at pre rest Hpre), Hc.
  change (string_drop 1 (String "@" rest)) with rest.
  change (negb (0 =? 0)) with false. cbv iota.
  unfold speed_in_MHz. destruct (strtod rest) as [speed unit].
  match goal with |- context [if ?b then _ else _] => destruct b end; reflexivity.
Qed.

(** What is stored is the round-half-up value of the speed in MHz, for
    every speed above zero but the largest double below one half. *)
Lemma extract_rounds (pre rest : string) (c : Collection) (m : positive) (e : Z) :
  string_mem "@" pre = false ->
  processorSpeedMHz c = 0 ->
  speed_in_MHz rest = S754_finite false m e ->
  speed_in_MHz rest <> double_below_half ->
  round_half_up (double_numerator m e) (double_denominator e) < UINT_MODULUS ->
  extractProcessorSpeedFromModelName (Some (pre ++ String "@" rest)) c
  = Done (set_processorSpeedMHz
            (round_half_up (double_numerator m e) (double_denominator e)) c).
Proof.
  intros Hpre Hc Hspeed Hnot Hfits.
  pose proof (speed_in_MHz_fits rest) as Hm.
  rewrite (extract_speed pre rest c Hpre Hc). rewrite Hspeed in *. cbn [mantissa_fits] in Hm.
  rewrite (add_half_rounds m e Hm Hnot Hfits). reflexivity.
Qed.

Lemma extract_zero (pre rest : string) (c : Collection) (s : bool) :
  string_mem "@" pre = false ->
  processorSpeedMHz c = 0 ->
  speed_in_MHz rest = S754_zero s ->
  extractProcessorSpeedFromModelName (Some (pre ++ String "@" rest)) c = Done c.
Proof.
  intros Hpre Hc Hspeed. rewrite (extract_speed pre rest c Hpre Hc), Hspeed.
  assert (E : double_to_unsigned (double_add (S754_zero s) double_half) = Done 0)
    by (destruct s; reflexivity).
  rewrite E. cbn [bind]. f_equal.
  destruct c as [ps current speed sockets cores]. cbn [processorSpeedMHz] in Hc.
  rewrite Hc. reflexivity.
Qed.

Lemma round_half_up_positive (m : positive) (e : Z) :
  double_denominator e <= 2 * double_numerator m e ->
  0 < round_half_up (double_numerator m e) (double_denominator e).
Proof.
  unfold round_half_up. intros H.
  assert (Hd : 0 < double_denominator e) by (apply pow2_pos; lia).
  apply Z.div_str_pos. lia.
Qed.

Lemma round_half_up_zero (m : positive) (e : Z) :
  2 * double_numerator m e < double_denominator e ->
  round_half_up (double_numerator m e) (double_denominator e) = 0.
Proof.
  unfold round_half_up. intros H.
  assert (Hn : 0 < double_numerator m e).
  { unfold double_numerator. pose proof (pow2_pos (Z.max e 0) ltac:(lia)). nia. }
  apply Z.div_small. lia.
Qed.




(** C10: a first value whose token is no number, or whose speed is below
    one half, stores 0.  When an extraction has stored 0, the next value
    with [@] is processed in full and sets the speed: what it stores is
    the round-half-up value of its speed in MHz, which is not zero from
    one half on; after any such first value, ["Model @ 2.40GHz"] stores
    2400. *)
Theorem zero_speed_is_not_locked (s1 : string) (c c1 : Collection) :
  processorSpeedMHz c = 0 ->
  extractProcessorSpeedFromModelName (Some s1) c = Done c1 ->
  processorSpeedMHz c1 = 0 ->
  (forall pre rest m e,
     string_mem "@" pre = false ->
     speed_in_MHz rest = S754_finite false m e ->
     speed_in_MHz rest <> double_below_half ->
     round_half_up (double_numerator m e) (double_denominator e) < UINT_MODULUS ->
     exists c2,
       extractProcessorSpeedFromModelName (Some (pre ++ String "@" rest)) c1 = Done c2
       /\ c2 = set_processorSpeedMHz
                 (round_half_up (double_numerator m e) (double_denominator e)) c
       /\ (double_denominator e <= 2 * double_numerator m e -> processorSpeedMHz c2 <> 0))
  /\ extractProcessorSpeedFromModelName (Some "Model @ 2.40GHz") c1
     = Done (set_processorSpeedMHz 2400 c)
  /\ (forall pre rest m e,
        string_mem "@" pre = false ->
        speed_in_MHz rest = S754_finite false m e ->
        speed_in_MHz rest <> double_below_half ->
        2 * double_numerator m e < double_denominator e ->
        extractProcessorSpeedFromModelName (Some (pre ++ String "@" rest)) c = Done c)
  /\ (forall pre rest,
        string_mem "@" pre = false ->
        fst (strtod rest) = S754_zero false ->
        extractProcessorSpeedFromModelName (Some (pre ++ String "@" rest)) c = Done c).
Proof.
  intros Hc H1 Hc1.
  assert (E : c1 = c).
  { rewrite extract_unfold in H1.
    destruct (strstr s1 "@") as [text'|]; [|congruence].
    rewrite Hc in H1. change (negb (0 =? 0)) with false in H1. cbv iota in H1.
    destruct (strtod (string_drop 1 text')) as [speed unit].
    match type of H1 with
    | bind (double_to_unsigned ?x) _ = _ => destruct (double_to_unsigned x) as [v| |]
    end; try discriminate H1.
    change (Done (set_processorSpeedMHz v c) = Done c1) in H1.
    injection H1 as <-. change (v = 0) in Hc1. subst v.
    rewrite <- Hc. apply set_processorSpeedMHz_same. }
  rewrite E. split; [|split; [|split]].
  - intros pre rest m e Hpre Hspeed Hnot Hfits.
    exists (set_processorSpeedMHz
              (round_half_up (double_numerator m e) (double_denominator e)) c).
    split; [apply extract_rounds; assumption|]. split; [reflexivity|].
    intros Hhalf. pose proof (round_half_up_positive m e Hhalf). destruct c. simpl. lia.
  - change "Model @ 2.40GHz" with ("Model " ++ String "@" " 2.40GHz").
    rewrite (extract_rounds "Model " " 2.40GHz" c 5277655813324800%positive (-41)).
    + reflexivity.
    + reflexivity.
    + exact Hc.
    + vm_compute. reflexivity.
    + vm_compute. discriminate.
    + vm_compute. reflexivity.
  - intros pre rest m e Hpre Hspeed Hnot Hsmall.
    pose proof (round_half_up_zero m e Hsmall) as Hzero.
    rewrite (extract_rounds pre rest c m e Hpre Hc Hspeed Hnot)
      by (rewrite Hzero; reflexivity).
    rewrite Hzero, <- Hc. rewrite set_processorSpeedMHz_same. reflexivity.
  - intros pre rest Hpre Hzero.
    apply (extract_zero pre rest c false Hpre Hc).
    unfold speed_in_MHz. destruct (strtod rest) as [speed unit]. cbn [fst] in Hzero.
    rewrite Hzero.
    match goal with |- (if ?b then _ else _) = _ => destruct b end; reflexivity.
Qed.

Lemma zero_speed_is_not_locked_witness :
  (forall pre rest m e,
     string_mem "@" pre = false ->
     speed_in_MHz rest = S754_finite false m e ->
     speed_in_MHz rest <> double_below_half ->
     round_half_up (double_numerator m e) (double_denominator e) < UINT_MODULUS ->
     exists c2,
       extractProcessorSpeedFromModelName (Some (pre ++ String "@" rest))
         (mkCollection [] None 0 0 0) = Done c2
       /\ c2 = set_processorSpeedMHz
                 (round_half_up (double_numerator m e) (double_denominator e))
                 (mkCollection [] None 0 0 0)
       /\ (double_denominator e <= 2 * double_numerator m e -> processorSpeedMHz c2 <> 0))
  /\ extractProcessorSpeedFromModelName (Some "Model @ 2.40GHz") (mkCollection [] None 0 0 0)
     = Done (set_processorSpeedMHz 2400 (mkCollection [] None 0 0 0))
  /\ (forall pre rest m e,
        string_mem "@" pre = false ->
        speed_in_MHz rest = S754_finite false m e ->
        speed_in_MHz rest <> double_below_half ->
        2 * double_numerator m e < double_denominator e ->
        extractProcessorSpeedFromModelName (Some (pre ++ String "@" rest))
          (mkCollection [] None 0 0 0)
        = Done (mkCollection [] None 0 0 0))
  /\ (forall pre rest,
        string_mem "@" pre = false ->
        fst (strtod rest) = S754_zero false ->
        extractProcessorSpeedFromModelName (Some (pre ++ String "@" rest))
          (mkCollection [] None 0 0 0)
        = Done (mkCollection [] None 0 0 0)).
Proof.
  apply (zero_speed_is_not_locked "Model @ unknown"
           (mkCollection [] None 0 0 0) (mkCollection [] None 0 0 0)).
  - reflexivity.
  - vm_compute. reflexivity.
  - reflexivity.
Defined.

(** The values of C10: a token that is no number and a value below one
    half each store 0, and the next value with [@] sets the speed. *)
Example zero_speed_examples :
  speeds_after ["Model @ unknown"; "Model @ 2.40GHz"] = Done [0; 2400]
  /\ speeds_after ["Model @ 0.3MHz"; "Model @ 2400MHz"] = Done [0; 2400].
Proof. split; vm_compute; reflexivity. Qed.


(** ** Processor sets *)

Lemma cpu_in_range_spec (cpu : Z) : cpu_in_range cpu = true <-> 0 <= cpu < CPU_SETSIZE.
Proof. unfold cpu_in_range. rewrite andb_true_iff, Z.leb_le, Z.ltb_lt. tauto. Qed.

Lemma CPU_ISSET_ZERO (cpu : Z) : CPU_ISSET cpu CPU_ZERO = false.
Proof. unfold CPU_ISSET, CPU_ZERO. rewrite Z.testbit_0_l. apply andb_false_r. Qed.

Lemma CPU_ISSET_in_range (cpu : Z) (set : cpu_set_t) :
  CPU_ISSET cpu set = true -> 0 <= cpu < CPU_SETSIZE.
Proof.
  unfold CPU_ISSET. intros H. apply andb_true_iff in H as [H _].
  apply cpu_in_range_spec. exact H.
Qed.

Lemma CPU_ISSET_SET (cpu other : Z) (set : cpu_set_t) :
  CPU_ISSET other (CPU_SET cpu set)
  = (cpu_in_range cpu && (cpu =? other)) || CPU_ISSET other set.
Proof.
  unfold CPU_SET, CPU_ISSET. destruct (cpu_in_range cpu) eqn:R; [|reflexivity].
  pose proof (proj1 (cpu_in_range_spec cpu) R) as Hr.
  rewrite Z.setbit_eqb by lia.
  destruct (Z.eqb_spec cpu other) as [<-|Hne]; simpl.
  - rewrite R. reflexivity.
  - reflexivity.
Qed.

Lemma CPU_ISSET_SET_iff (cpu other : Z) (set : cpu_set_t) :
  0 <= cpu < CPU_SETSIZE ->
  (CPU_ISSET other (CPU_SET cpu set) = true <-> other = cpu \/ CPU_ISSET other set = true).
Proof.
  intros Hr. rewrite CPU_ISSET_SET, (proj2 (cpu_in_range_spec cpu) Hr).
  rewrite orb_true_iff. simpl. rewrite Z.eqb_eq. intuition congruence.
Qed.

Lemma Zseq_In (count : nat) :
  forall first x, In x (Zseq first count) <-> first <= x < first + Z.of_nat count.
Proof.
  induction count as [|count IH]; intros first x; simpl Zseq.
  - simpl. lia.
  - simpl In. rewrite IH. lia.
Qed.

Lemma Zseq_length (count : nat) : forall first, List.length (Zseq first count) = count.
Proof. induction count as [|count IH]; intros first; simpl; [|rewrite IH]; reflexivity. Qed.

Lemma Zseq_app (n m : nat) :
  forall first, Zseq first (n + m) = (Zseq first n ++ Zseq (first + Z.of_nat n) m)%list.
Proof.
  induction n as [|n IH]; intros first.
  - simpl. f_equal. lia.
  - change (S n + m)%nat with (S (n + m)). simpl Zseq. rewrite IH. simpl.
    do 3 f_equal. lia.
Qed.

Lemma Zseq_sorted (count : nat) : forall first, StronglySorted Z.lt (Zseq first count).
Proof.
  induction count as [|count IH]; intros first; simpl; constructor.
  - apply IH.
  - apply Forall_forall. intros x Hx. apply Zseq_In in Hx. lia.
Qed.

Lemma filter_sorted (f : Z -> bool) (l : list Z) :
  StronglySorted Z.lt l -> StronglySorted Z.lt (filter f l).
Proof.
  induction 1 as [|x l Hl IH Hx]; simpl; [constructor|].
  destruct (f x); [|exact IH]. constructor; [exact IH|].
  apply Forall_forall. intros y Hy. apply filter_In in Hy as [Hy _].
  rewrite Forall_forall in Hx. apply Hx. exact Hy.
Qed.

Lemma sorted_NoDup (l : list Z) : StronglySorted Z.lt l -> NoDup l.
Proof.
  induction 1 as [|x l Hl IH Hx]; constructor; [|exact IH].
  intros Hin. rewrite Forall_forall in Hx. specialize (Hx x Hin). lia.
Qed.

Lemma CPU_members_In (set : cpu_set_t) (cpu : Z) :
  In cpu (CPU_members set) <-> CPU_ISSET cpu set = true.
Proof.
  unfold CPU_members. rewrite filter_In, Zseq_In. split; [tauto|].
  intros H. split; [|exact H]. apply CPU_ISSET_in_range in H.
  unfold CPU_SETSIZE in *. lia.
Qed.

Lemma CPU_members_sorted (set : cpu_set_t) : StronglySorted Z.lt (CPU_members set).
Proof. apply filter_sorted, Zseq_sorted. Qed.

Lemma CPU_members_NoDup (set : cpu_set_t) : NoDup (CPU_members set).
Proof. apply sorted_NoDup, CPU_members_sorted. Qed.

Lemma CPU_COUNT_length (set : cpu_set_t) :
  CPU_COUNT set = Z.of_nat (List.length (CPU_members set)).
Proof. reflexivity. Qed.

Lemma CPU_COUNT_range (set : cpu_set_t) : 0 <= CPU_COUNT set <= 1024.
Proof.
  unfold CPU_COUNT, CPU_members.
  pose proof (filter_length_le (fun cpu => CPU_ISSET cpu set)
                (Zseq 0 (Z.to_nat CPU_SETSIZE))) as Hlen.
  rewrite Zseq_length in Hlen.
  assert (Hsize : Z.to_nat CPU_SETSIZE = 1024%nat) by reflexivity.
  lia.
Qed.

(** ** Loops over an [int] counter *)

Lemma for_int_invariant {S : Type} (P : Z -> S -> Prop) (body : Z -> S -> outcome S) :
  forall (count : nat) (i : Z) (s : S),
    i + Z.of_nat count <= INT_MAX ->
    P i s ->
    (forall j t, i <= j < i + Z.of_nat count -> P j t ->
                 exists t', body j t = Done t' /\ P (j + 1) t') ->
    exists s', for_int count i body s = Done s' /\ P (i + Z.of_nat count) s'.
Proof.
  induction count as [|count IH]; intros i s Hmax HP Hbody.
  - exists s. split; [reflexivity|]. replace (i + Z.of_nat 0) with i by lia. exact HP.
  - destruct (Hbody i s) as (t & Ht & HPt); [lia | exact HP |].
    replace (i + Z.of_nat (Datatypes.S count)) with (i + 1 + Z.of_nat count) by lia.
    cbn [for_int]. rewrite Ht. cbn [bind].
    destruct (Z.ltb_spec i INT_MAX) as [_|Hge]; [|lia].
    apply IH; [lia | exact HPt |].
    intros j u Hj. apply Hbody. lia.
Qed.

Lemma for_int_done {S : Type} (body : Z -> S -> outcome S) :
  forall (count : nat) (i : Z) (s s' : S),
    for_int count i body s = Done s' ->
    count = O \/ i + Z.of_nat count <= INT_MAX.
Proof.
  induction count as [|count IH]; intros i s s' H; [left; reflexivity|right].
  cbn [for_int] in H. destruct (body i s) as [t| |]; cbn [bind] in H; try discriminate.
  destruct (Z.ltb_spec i INT_MAX) as [Hlt|_]; [|discriminate].
  apply IH in H as [->|H]; lia.
Qed.

(** ** Core deduplication *)

Lemma core_sets_upto_start (total : Z) (cpuSet : cpu_set_t) :
  core_sets_upto total cpuSet 0 (CPU_ZERO, CPU_ZERO).
Proof.
  split; intros x; simpl; rewrite CPU_ISSET_ZERO; split; try discriminate.
  - intros (p & Hp & _). lia.
  - intros (Hp & _). lia.
Qed.

Lemma core_sets_upto_step (total : Z) (cpuSet : cpu_set_t) (i : Z)
    (sets : cpu_set_t * cpu_set_t) :
  0 < total -> 0 <= i ->
  core_sets_upto total cpuSet i sets ->
  exists sets', getCurrentCoreSet_body total cpuSet i sets = Done sets'
                /\ core_sets_upto total cpuSet (i + 1) sets'.
Proof.
  intros Htotal Hi [Hused Hcore]. destruct sets as [used core]. simpl in Hused, Hcore.
  unfold getCurrentCoreSet_body.
  destruct (CPU_ISSET i cpuSet) eqn:Hperm.
  - destruct (Z.eqb_spec total 0) as [E|_]; [lia|].
    pose proof (CPU_ISSET_in_range _ _ Hperm) as Hrange.
    assert (Hb : 0 <= i mod total < CPU_SETSIZE).
    { pose proof (Z.mod_pos_bound i total Htotal).
      pose proof (Z.mod_le i total Hi Htotal). lia. }
    destruct (CPU_ISSET (i mod total) used) eqn:Hu; simpl.
    + (* the bucket is taken: a smaller permitted processor has it *)
      eexists. split; [reflexivity|]. split; simpl.
      * intros b. rewrite Hused. split.
        -- intros (p & Hp & H). exists p. split; [lia | exact H].
        -- intros (p & Hp & Hpp & Hpb).
           destruct (Z.eq_dec p i) as [->|Hne].
           ++ apply Hused. rewrite <- Hpb. exact Hu.
           ++ exists p. split; [lia | tauto].
      * intros p. rewrite Hcore. split.
        -- intros (Hp & H). split; [lia | exact H].
        -- intros (Hp & Hpp & Hlow).
           destruct (Z.eq_dec p i) as [->|Hne]; [|split; [lia | tauto]].
           exfalso. apply Hused in Hu as (q & Hq & Hqp & Hqb).
           apply (Hlow q); [lia | exact Hqp | exact Hqb].
    + (* a new bucket *)
      eexists. split; [reflexivity|]. split; simpl.
      * intros b. rewrite CPU_ISSET_SET_iff by exact Hb. rewrite Hused. split.
        -- intros [->|(p & Hp & H)].
           ++ exists i. split; [lia | tauto].
           ++ exists p. split; [lia | exact H].
        -- intros (p & Hp & Hpp & Hpb).
           destruct (Z.eq_dec p i) as [->|Hne]; [left; congruence|].
           right. exists p. split; [lia | tauto].
      * intros p. rewrite CPU_ISSET_SET_iff by exact Hrange. rewrite Hcore. split.
        -- intros [->|(Hp & H)].
           ++ split; [lia|]. split; [exact Hperm|].
              intros q Hq Hqp Hqb.
              assert (Hq' : CPU_ISSET (i mod total) used = true).
              { apply Hused. exists q. tauto. }
              congruence.
           ++ split; [lia | exact H].
        -- intros (Hp & Hpp & Hlow).
           destruct (Z.eq_dec p i) as [->|Hne]; [left; reflexivity|].
           right. split; [lia | tauto].
  - exists (used, core). split; [reflexivity|]. split; simpl.
    + intros b. rewrite Hused. split.
      * intros (p & Hp & H). exists p. split; [lia | exact H].
      * intros (p & Hp & Hpp & Hpb).
        destruct (Z.eq_dec p i) as [->|Hne]; [congruence|].
        exists p. split; [lia | tauto].
    + intros p. rewrite Hcore. split.
      * intros (Hp & H). split; [lia | exact H].
      * intros (Hp & Hpp & Hlow).
        destruct (Z.eq_dec p i) as [->|Hne]; [congruence|].
        split; [lia | tauto].
Qed.

Lemma getNumberOfProcessors_nonneg (c : Collection) : 0 <= getNumberOfProcessors c.
Proof. unfold getNumberOfProcessors. apply to_unsigned_range. Qed.

Lemma getCurrentCoreSet_unfold (c : Collection) (m : OpenMpManager) :
  getCurrentCoreSet c m
  = sets <- for_int (Z.to_nat (getNumberOfProcessors c)) 0
              (getCurrentCoreSet_body (getTotalNumberOfCpuCores c) (currentCpuSet m))
              (CPU_ZERO, CPU_ZERO) ;;
    Done (set_currentCoreSet (snd sets) m).
Proof. reflexivity. Qed.

(** With a positive core count and a number of processors that an [int]
    can count, the loop ends with the sets of the invariant. *)
Lemma getCurrentCoreSet_sets (c : Collection) (m : OpenMpManager) :
  0 < getTotalNumberOfCpuCores c ->
  getNumberOfProcessors c <= INT_MAX ->
  exists sets,
    getCurrentCoreSet c m = Done (set_currentCoreSet (snd sets) m)
    /\ core_sets_upto (getTotalNumberOfCpuCores c) (currentCpuSet m)
                      (getNumberOfProcessors c) sets.
Proof.
  intros Htotal Hmax. pose proof (getNumberOfProcessors_nonneg c) as Hn.
  destruct (for_int_invariant
              (core_sets_upto (getTotalNumberOfCpuCores c) (currentCpuSet m))
              (getCurrentCoreSet_body (getTotalNumberOfCpuCores c) (currentCpuSet m))
              (Z.to_nat (getNumberOfProcessors c)) 0 (CPU_ZERO, CPU_ZERO))
    as (sets & Hrun & Hinv).
  - lia.
  - apply core_sets_upto_start.
  - intros j t Hj Ht. apply core_sets_upto_step; [exact Htotal | lia | exact Ht].
  - exists sets. rewrite getCurrentCoreSet_unfold, Hrun. split; [reflexivity|].
    replace (0 + Z.of_nat (Z.to_nat (getNumberOfProcessors c)))
      with (getNumberOfProcessors c) in Hinv by lia.
    exact Hinv.
Qed.

Lemma core_sets_lowest (total n : Z) (cpuSet : cpu_set_t) (sets : cpu_set_t * cpu_set_t) :
  core_sets_upto total cpuSet n sets ->
  forall cpu, CPU_ISSET cpu (snd sets) = true <-> lowest_of_bucket n total cpuSet cpu.
Proof.
  intros [_ Hcore] cpu. rewrite Hcore. unfold lowest_of_bucket, usable. split.
  - intros (Hr & Hp & Hlow). split; [tauto|].
    intros other [Ho Hor] Hb.
    destruct (Z.lt_ge_cases other cpu) as [Hlt|Hge]; [|exact Hge].
    exfalso. apply (Hlow other); [lia | exact Ho | exact Hb].
  - intros ((Hp & Hr) & Hlow). split; [exact Hr|]. split; [exact Hp|].
    intros q Hq Hqp Hqb.
    assert (cpu <= q); [|lia]. apply Hlow; [split; [exact Hqp | lia] | exact Hqb].
Qed.

(** A usable processor of a bucket makes the bucket have a lowest one. *)
Lemma lowest_of_bucket_exists (n total : Z) (cpuSet : cpu_set_t) :
  forall (k : nat) (cpu : Z),
    Z.to_nat cpu = k ->
    usable n cpuSet cpu ->
    exists lowest, lowest_of_bucket n total cpuSet lowest
                   /\ lowest mod total = cpu mod total.
Proof.
  induction k as [k IH] using (well_founded_induction lt_wf). intros cpu Hk Hu.
  destruct (existsb (fun other => CPU_ISSET other cpuSet && (other mod total =? cpu mod total))
                    (Zseq 0 (Z.to_nat cpu))) eqn:E.
  - apply existsb_exists in E as (other & Hin & H).
    apply Zseq_In in Hin. apply andb_true_iff in H as [Ho Hb]. apply Z.eqb_eq in Hb.
    destruct (IH (Z.to_nat other)) with (cpu := other) as (lowest & Hl & Hlb).
    + lia.
    + reflexivity.
    + destruct Hu as [_ Hr]. split; [exact Ho | lia].
    + exists lowest. split; [exact Hl | congruence].
  - exists cpu. split; [|reflexivity]. split; [exact Hu|].
    intros other [Ho Hor] Hb.
    destruct (Z.lt_ge_cases other cpu) as [Hlt|Hge]; [|exact Hge].
    exfalso.
    assert (F : existsb (fun other => CPU_ISSET other cpuSet
                                      && (other mod total =? cpu mod total))
                        (Zseq 0 (Z.to_nat cpu)) = true).
    { apply existsb_exists. exists other. split.
      - apply Zseq_In. lia.
      - rewrite Ho, Hb, Z.eqb_refl. reflexivity. }
    congruence.
Qed.

(** C4, as the code has it: with a positive core count, core
    deduplication returns, leaves the permitted set as it was, and puts
    a processor into [currentCoreSet] iff it is the smallest id of its
    bucket among the permitted ids below the number of processors; so
    every bucket that holds such an id has exactly one member. *)
Theorem getCurrentCoreSet_lowest_of_buckets (c : Collection) (m : OpenMpManager) :
  0 < getTotalNumberOfCpuCores c ->
  getNumberOfProcessors c <= INT_MAX ->
  exists m',
    getCurrentCoreSet c m = Done m'
    /\ currentCpuSet m' = currentCpuSet m
    /\ (forall cpu,
          CPU_ISSET cpu (currentCoreSet m') = true
          <-> lowest_of_bucket (getNumberOfProcessors c) (getTotalNumberOfCpuCores c)
                               (currentCpuSet m) cpu)
    /\ (forall cpu,
          usable (getNumberOfProcessors c) (currentCpuSet m) cpu ->
          exists member,
            CPU_ISSET member (currentCoreSet m') = true
            /\ member mod getTotalNumberOfCpuCores c = cpu mod getTotalNumberOfCpuCores c
            /\ forall other,
                 CPU_ISSET other (currentCoreSet m') = true ->
                 other mod getTotalNumberOfCpuCores c = cpu mod getTotalNumberOfCpuCores c ->
                 other = member).
Proof.
  intros Htotal Hmax.
  destruct (getCurrentCoreSet_sets c m Htotal Hmax) as (sets & Hrun & Hinv).
  pose proof (core_sets_lowest _ _ _ _ Hinv) as Hlow.
  exists (set_currentCoreSet (snd sets) m).
  split; [exact Hrun|]. split; [reflexivity|]. split; [exact Hlow|].
  intros cpu Hu.
  destruct (lowest_of_bucket_exists (getNumberOfProcessors c) (getTotalNumberOfCpuCores c)
              (currentCpuSet m) (Z.to_nat cpu) cpu eq_refl Hu) as (member & Hm & Hmb).
  exists member. split; [apply Hlow; exact Hm|]. split; [exact Hmb|].
  intros other Ho Hob. simpl in Ho. apply Hlow in Ho.
  destruct Hm as [Hmu Hml], Ho as [Hou Hol].
  specialize (Hml other Hou). specialize (Hol member Hmu). lia.
Qed.

(** Two sockets of four cores with two threads each: 16 processors, 8
    cores, every processor permitted; the set has 8 members. *)
Lemma getCurrentCoreSet_lowest_of_buckets_witness :
  (exists m',
     getCurrentCoreSet (topology 16 2 8) (mkOpenMpManager false false 65535 CPU_ZERO)
     = Done m'
     /\ currentCpuSet m' = 65535
     /\ (forall cpu,
           CPU_ISSET cpu (currentCoreSet m') = true
           <-> lowest_of_bucket 16 8 65535 cpu)
     /\ (forall cpu,
           usable 16 65535 cpu ->
           exists member,
             CPU_ISSET member (currentCoreSet m') = true
             /\ member mod 8 = cpu mod 8
             /\ forall other,
                  CPU_ISSET other (currentCoreSet m') = true ->
                  other mod 8 = cpu mod 8 -> other = member))
  /\ core_members_of
       (getCurrentCoreSet (topology 16 2 8) (mkOpenMpManager false false 65535 CPU_ZERO))
     = Done [0; 1; 2; 3; 4; 5; 6; 7].
Proof.
  split.
  - apply (getCurrentCoreSet_lowest_of_buckets
             (topology 16 2 8) (mkOpenMpManager false false 65535 CPU_ZERO)).
    + reflexivity.
    + vm_compute. discriminate.
  - vm_compute. reflexivity.
Defined.

(** C4 as stated fails when a permitted processor is not below the number
    of records.  Processor 1 of four is offline: the file lists three
    records, the mask permits 0, 2 and 3, the core count is 4.  Processor
    3 is the only permitted id of bucket 3 and is left out. *)
Lemma getCurrentCoreSet_beyond_records_counterexample :
  CPU_members 13 = [0; 2; 3]
  /\ map (fun cpu => cpu mod 4) (CPU_members 13) = [0; 2; 3]
  /\ getNumberOfProcessors (topology 3 1 4) = 3
  /\ core_members_of
       (getCurrentCoreSet (topology 3 1 4) (mkOpenMpManager false false 13 CPU_ZERO))
     = Done [0; 2].
Proof. repeat split; vm_compute; reflexivity. Qed.


(** ** Construction of the manager *)

Lemma getOpenMpEnvVars_fold (w : World) (names : list string) :
  forall m,
    let m' := fold_left
                (fun m name =>
                   match getenv w name with
                   | Some _ => set_isAnyOpenMpEnvVarSpecified true m
                   | None => m
                   end) names m in
    isAnyOpenMpEnvVarSpecified m'
    = isAnyOpenMpEnvVarSpecified m
      || existsb (fun name => match getenv w name with Some _ => true | None => false end)
                 names
    /\ isGpuEnabled m' = isGpuEnabled m
    /\ currentCpuSet m' = currentCpuSet m
    /\ currentCoreSet m' = currentCoreSet m.
Proof.
  induction names as [|name names IH]; intros m; simpl.
  - rewrite orb_false_r. repeat split.
  - destruct (getenv w name) as [value|].
    + destruct (IH (set_isAnyOpenMpEnvVarSpecified true m)) as (H1 & H2 & H3 & H4).
      rewrite H1, H2, H3, H4. simpl. rewrite orb_true_r. repeat split.
    + apply IH.
Qed.

Lemma getOpenMpEnvVars_spec (w : World) (m : OpenMpManager) :
  isAnyOpenMpEnvVarSpecified (getOpenMpEnvVars w m) = false
  <-> forall name, In name openMpEnvVars -> getenv w name = None.
Proof.
  unfold getOpenMpEnvVars.
  destruct (getOpenMpEnvVars_fold w openMpEnvVars (set_isAnyOpenMpEnvVarSpecified false m))
    as (H & _).
  rewrite H. simpl isAnyOpenMpEnvVarSpecified. rewrite orb_false_l. split.
  - intros E name Hin. destruct (getenv w name) as [value|] eqn:G; [|reflexivity].
    assert (T : existsb (fun name => match getenv w name with Some _ => true | None => false end)
                        openMpEnvVars = true).
    { apply existsb_exists. exists name. rewrite G. split; [exact Hin | reflexivity]. }
    congruence.
  - intros Hnone.
    destruct (existsb _ openMpEnvVars) eqn:E; [|reflexivity].
    apply existsb_exists in E as (name & Hin & Hn).
    rewrite (Hnone name Hin) in Hn. discriminate.
Qed.

Lemma getOpenMpEnvVars_fields (w : World) (m : OpenMpManager) :
  isGpuEnabled (getOpenMpEnvVars w m) = isGpuEnabled m
  /\ currentCpuSet (getOpenMpEnvVars w m) = currentCpuSet m
  /\ currentCoreSet (getOpenMpEnvVars w m) = currentCoreSet m.
Proof.
  unfold getOpenMpEnvVars.
  destruct (getOpenMpEnvVars_fold w openMpEnvVars (set_isAnyOpenMpEnvVarSpecified false m))
    as (_ & H2 & H3 & H4).
  rewrite H2, H3, H4. repeat split.
Qed.

(** Without a positive core count the loop of [getCurrentCoreSet] goes
    through only where it meets no permitted processor. *)
Lemma getCurrentCoreSet_body_zero (cpuSet : cpu_set_t) (i : Z) (sets sets' : cpu_set_t * cpu_set_t) :
  getCurrentCoreSet_body 0 cpuSet i sets = Done sets' ->
  sets' = sets /\ CPU_ISSET i cpuSet = false.
Proof.
  unfold getCurrentCoreSet_body. destruct sets as [used core].
  destruct (CPU_ISSET i cpuSet); simpl; [discriminate|].
  intros H. injection H as <-. split; reflexivity.
Qed.

Lemma for_int_zero_cores (cpuSet : cpu_set_t) :
  forall (count : nat) (i : Z) (sets sets' : cpu_set_t * cpu_set_t),
    for_int count i (getCurrentCoreSet_body 0 cpuSet) sets = Done sets' ->
    sets' = sets
    /\ forall cpu, i <= cpu < i + Z.of_nat count -> CPU_ISSET cpu cpuSet = false.
Proof.
  induction count as [|count IH]; intros i sets sets' H.
  - simpl in H. injection H as <-. split; [reflexivity | lia].
  - cbn [for_int] in H.
    destruct (getCurrentCoreSet_body 0 cpuSet i sets) as [t| |] eqn:B;
      cbn [bind] in H; try discriminate.
    apply getCurrentCoreSet_body_zero in B as [-> Hi].
    destruct (i <? INT_MAX); [|discriminate].
    apply IH in H as [-> Hrest]. split; [reflexivity|].
    intros cpu Hc. destruct (Z.eq_dec cpu i) as [->|Hne]; [exact Hi|].
    apply Hrest. lia.
Qed.

Lemma for_int_invariant_done {S : Type} (P : Z -> S -> Prop) (body : Z -> S -> outcome S) :
  (forall j t t', P j t -> body j t = Done t' -> P (j + 1) t') ->
  forall (count : nat) (i : Z) (s s' : S),
    P i s ->
    for_int count i body s = Done s' ->
    P (i + Z.of_nat count) s'.
Proof.
  intros Hstep. induction count as [|count IH]; intros i s s' HP H.
  - simpl in H. injection H as <-. replace (i + Z.of_nat 0) with i by lia. exact HP.
  - cbn [for_int] in H. destruct (body i s) as [t| |] eqn:B; cbn [bind] in H;
      try discriminate.
    destruct (i <? INT_MAX); [|discriminate].
    replace (i + Z.of_nat (Datatypes.S count)) with (i + 1 + Z.of_nat count) by lia.
    apply (IH (i + 1) t s'); [|exact H]. apply (Hstep i s t HP B).
Qed.

(** What a run of [getCurrentCoreSet] that returns has established. *)
Lemma getCurrentCoreSet_done (c : Collection) (m1 m : OpenMpManager) :
  getCurrentCoreSet c m1 = Done m ->
  getNumberOfProcessors c <= INT_MAX
  /\ isGpuEnabled m = isGpuEnabled m1
  /\ isAnyOpenMpEnvVarSpecified m = isAnyOpenMpEnvVarSpecified m1
  /\ currentCpuSet m = currentCpuSet m1
  /\ (forall cpu, CPU_ISSET cpu (currentCoreSet m) = true ->
                  usable (getNumberOfProcessors c) (currentCpuSet m) cpu
                  /\ getTotalNumberOfCpuCores c <> 0)
  /\ (0 < getTotalNumberOfCpuCores c ->
      forall cpu, CPU_ISSET cpu (currentCoreSet m) = true
                  <-> lowest_of_bucket (getNumberOfProcessors c)
                                       (getTotalNumberOfCpuCores c) (currentCpuSet m) cpu).
Proof.
  intros Hrun. rewrite getCurrentCoreSet_unfold in Hrun.
  destruct (for_int (Z.to_nat (getNumberOfProcessors c)) 0
              (getCurrentCoreSet_body (getTotalNumberOfCpuCores c) (currentCpuSet m1))
              (CPU_ZERO, CPU_ZERO)) as [sets| |] eqn:Hloop; cbn [bind] in Hrun;
    try discriminate.
  injection Hrun as <-.
  pose proof (getNumberOfProcessors_nonneg c) as Hn.
  assert (Hmax : getNumberOfProcessors c <= INT_MAX).
  { apply for_int_done in Hloop as [H|H]; [|lia].
    assert (getNumberOfProcessors c = 0) by lia. unfold INT_MAX. lia. }
  split; [exact Hmax|]. do 3 (split; [reflexivity|]). split.
  - pose proof (for_int_invariant_done
                  (fun i sets => forall cpu, CPU_ISSET cpu (snd sets) = true ->
                     (CPU_ISSET cpu (currentCpuSet m1) = true /\ 0 <= cpu < i)
                     /\ getTotalNumberOfCpuCores c <> 0)
                  (getCurrentCoreSet_body (getTotalNumberOfCpuCores c) (currentCpuSet m1)))
      as Hinv.
    simpl. intros cpu H.
    replace (getNumberOfProcessors c)
      with (0 + Z.of_nat (Z.to_nat (getNumberOfProcessors c))) at 1 by lia.
    revert cpu H. apply (Hinv) with (s := (CPU_ZERO, CPU_ZERO)); [| |exact Hloop].
    + intros j [used core] t' HP B. unfold getCurrentCoreSet_body in B.
      destruct (CPU_ISSET j (currentCpuSet m1)) eqn:Hperm.
      * destruct (Z.eqb_spec (getTotalNumberOfCpuCores c) 0) as [E|Hne]; [discriminate|].
        pose proof (CPU_ISSET_in_range _ _ Hperm) as Hrange.
        destruct (negb (CPU_ISSET (j mod getTotalNumberOfCpuCores c) used));
          injection B as <-; simpl; intros cpu H.
        -- apply CPU_ISSET_SET_iff in H as [->|H]; [| |exact Hrange].
           ++ split; [split; [exact Hperm | lia] | exact Hne].
           ++ destruct (HP cpu H) as [[H1 H2] H3]. split; [split; [exact H1 | lia] | exact H3].
        -- destruct (HP cpu H) as [[H1 H2] H3]. split; [split; [exact H1 | lia] | exact H3].
      * injection B as <-. simpl. intros cpu H.
        destruct (HP cpu H) as [[H1 H2] H3]. split; [split; [exact H1 | lia] | exact H3].
    + simpl. intros cpu H. rewrite CPU_ISSET_ZERO in H. discriminate.
  - intros Hpos.
    destruct (getCurrentCoreSet_sets c m1 Hpos Hmax) as (sets1 & Hrun & Hinv).
    rewrite getCurrentCoreSet_unfold, Hloop in Hrun. cbn [bind] in Hrun.
    injection Hrun as Hcore.
    pose proof (core_sets_lowest _ _ _ _ Hinv) as Hlow.
    simpl. rewrite Hcore. exact Hlow.
Qed.

(** What the constructor establishes. *)
Lemma OpenMpManager_new_facts (c : Collection) (self : Z) (w : World) (m : OpenMpManager) :
  OpenMpManager_new c self w = Done m ->
  getNumberOfProcessors c <= INT_MAX
  /\ isGpuEnabled m = false
  /\ (isAnyOpenMpEnvVarSpecified m = false
      <-> forall name, In name openMpEnvVars -> getenv w name = None)
  /\ (forall cpu, CPU_ISSET cpu (currentCoreSet m) = true ->
                  usable (getNumberOfProcessors c) (currentCpuSet m) cpu
                  /\ getTotalNumberOfCpuCores c <> 0)
  /\ (0 < getTotalNumberOfCpuCores c ->
      forall cpu, CPU_ISSET cpu (currentCoreSet m) = true
                  <-> lowest_of_bucket (getNumberOfProcessors c)
                                       (getTotalNumberOfCpuCores c) (currentCpuSet m) cpu).
Proof.
  intros Hnew. unfold OpenMpManager_new in Hnew.
  destruct (getOpenMpEnvVars_fields w (mkOpenMpManager false false CPU_ZERO CPU_ZERO))
    as (Hgpu0 & _).
  pose proof (getOpenMpEnvVars_spec w (mkOpenMpManager false false CPU_ZERO CPU_ZERO)) as Henv0.
  remember (getOpenMpEnvVars w (mkOpenMpManager false false CPU_ZERO CPU_ZERO)) as m0 eqn:Em0.
  clear Em0. cbn [isGpuEnabled] in Hgpu0.
  destruct (getCurrentCpuSet c self w m0) as [m1| |] eqn:Hcpu; cbn [bind] in Hnew;
    try discriminate.
  assert (Hm1 : isGpuEnabled m1 = isGpuEnabled m0
                /\ isAnyOpenMpEnvVarSpecified m1 = isAnyOpenMpEnvVarSpecified m0).
  { unfold getCurrentCpuSet in Hcpu. destruct (sched_getaffinity self w).
    - injection Hcpu as <-. split; reflexivity.
    - destruct (getDefaultCpuSet c); cbn [bind] in Hcpu; try discriminate.
      injection Hcpu as <-. split; reflexivity. }
  destruct Hm1 as [Hgpu1 Henv1].
  apply getCurrentCoreSet_done in Hnew as (Hmax & Hgpu & Henv & _ & Hsub & Hlow).
  split; [exact Hmax|]. split; [congruence|].
  split; [rewrite Henv, Henv1; exact Henv0|].
  split; [exact Hsub | exact Hlow].
Qed.

(** The constructor returns for every topology of a positive core count
    whose records an [int] can count. *)
Lemma OpenMpManager_new_returns (c : Collection) (self : Z) (w : World) :
  0 < getTotalNumberOfCpuCores c ->
  getNumberOfProcessors c <= INT_MAX ->
  exists m, OpenMpManager_new c self w = Done m.
Proof.
  intros Htotal Hmax. unfold OpenMpManager_new.
  generalize (getOpenMpEnvVars w (mkOpenMpManager false false CPU_ZERO CPU_ZERO)).
  intros m0.
  assert (H1 : exists m1, getCurrentCpuSet c self w m0 = Done m1).
  { unfold getCurrentCpuSet. destruct (sched_getaffinity self w); [eexists; reflexivity|].
    unfold getDefaultCpuSet.
    destruct (for_int_invariant (fun _ _ => True)
                (fun processorId defaultCpuSet => Done (CPU_SET processorId defaultCpuSet))
                (Z.to_nat (getNumberOfProcessors c)) 0 CPU_ZERO) as (s & Hs & _).
    - pose proof (getNumberOfProcessors_nonneg c). lia.
    - exact I.
    - intros j t _ _. eexists. split; [reflexivity | exact I].
    - rewrite Hs. eexists. reflexivity. }
  destruct H1 as (m1 & ->). cbn [bind].
  destruct (getCurrentCoreSet_sets c m1 Htotal Hmax) as (sets & -> & _).
  eexists. reflexivity.
Qed.

(** ** The calls leave the sets alone *)

Lemma step_preserves (c : Collection) (k : call) (m m' : OpenMpManager) (w w' : World) :
  step c k (m, w) = Done (m', w') ->
  currentCpuSet m' = currentCpuSet m
  /\ currentCoreSet m' = currentCoreSet m
  /\ isAnyOpenMpEnvVarSpecified m' = isAnyOpenMpEnvVarSpecified m.
Proof.
  destruct k as [| |self|self workers|]; simpl; intros H.
  - injection H as <- <-. repeat split.
  - injection H as <- <-. repeat split.
  - destruct (bindCurrentThreadToNonPrimaryCoreIfPossible c m self w); simpl in H;
      try discriminate.
    injection H as <- <-. repeat split.
  - destruct (bindOpenMpThreads c m self workers w); simpl in H; try discriminate.
    injection H as <- <-. repeat split.
  - injection H as <- <-. repeat split.
Qed.

Lemma run_preserves (c : Collection) (calls : list call) :
  forall (m m' : OpenMpManager) (w w' : World),
    run c calls (m, w) = Done (m', w') ->
    currentCpuSet m' = currentCpuSet m
    /\ currentCoreSet m' = currentCoreSet m
    /\ isAnyOpenMpEnvVarSpecified m' = isAnyOpenMpEnvVarSpecified m.
Proof.
  induction calls as [|k calls IH]; intros m m' w w' H.
  - simpl in H. injection H as <- <-. repeat split.
  - cbn [run] in H. destruct (step c k (m, w)) as [[m1 w1]| |] eqn:Hk; cbn [bind] in H;
      try discriminate.
    apply step_preserves in Hk as (H1 & H2 & H3).
    apply IH in H as (H4 & H5 & H6). repeat split; congruence.
Qed.

(** ** Division by a core count of zero *)

(** C3 fails on the code: neither computation tests the core count.  For
    a file that lists a processor and no [cpu cores] the count is 0, and
    with processor 0 permitted the constructor takes the remainder of a
    division by it. *)
Theorem getCurrentCoreSet_divides_by_zero :
  Collection_new (Some cpuinfo_without_cores) = Done collection_without_cores
  /\ getTotalNumberOfCpuCores collection_without_cores = 0
  /\ OpenMpManager_new collection_without_cores 0 (world (Some 1) 4) = Undefined
  /\ selectAllCoreCpus collection_without_cores
       (mkOpenMpManager false false 1 CPU_ZERO) CPU_ZERO 0 = Undefined.
Proof. repeat split; vm_compute; reflexivity. Qed.

(** The sibling computation divides by the core count whatever the sets
    are. *)
Lemma selectAllCoreCpus_zero_cores (c : Collection) (m : OpenMpManager)
    (set : cpu_set_t) (physicalCoreId : Z) :
  getTotalNumberOfCpuCores c = 0 ->
  selectAllCoreCpus c m set physicalCoreId = Undefined.
Proof. intros H. unfold selectAllCoreCpus. rewrite H. reflexivity. Qed.


(** ** The invariants of the sets *)

Lemma NoDup_bounded_length (l : list Z) (bound : Z) :
  0 <= bound ->
  NoDup l -> (forall x, In x l -> 0 <= x < bound) -> Z.of_nat (List.length l) <= bound.
Proof.
  intros Hb Hnd Hl.
  assert (H : (List.length l <= List.length (Zseq 0 (Z.to_nat bound)))%nat).
  { apply NoDup_incl_length; [exact Hnd|].
    intros x Hx. apply Zseq_In. specialize (Hl x Hx). lia. }
  rewrite Zseq_length in H. lia.
Qed.

(** One member for each bucket at most: the members are no more than the
    buckets. *)
Lemma lowest_of_bucket_count (n total : Z) (cpuSet coreSet : cpu_set_t) :
  0 < total ->
  (forall cpu, CPU_ISSET cpu coreSet = true <-> lowest_of_bucket n total cpuSet cpu) ->
  CPU_COUNT coreSet <= total.
Proof.
  intros Htotal Hlow. unfold CPU_COUNT.
  rewrite <- (length_map (fun cpu => cpu mod total)).
  apply NoDup_bounded_length; [lia | |].
  - apply NoDup_map_NoDup_ForallPairs; [|apply CPU_members_NoDup].
    intros x y Hx Hy Hxy.
    apply CPU_members_In, Hlow in Hx. apply CPU_members_In, Hlow in Hy.
    destruct Hx as [Hxu Hxl], Hy as [Hyu Hyl].
    specialize (Hxl y Hyu). specialize (Hyl x Hxu). lia.
  - intros b Hb. apply in_map_iff in Hb as (cpu & <- & _).
    apply Z.mod_pos_bound. exact Htotal.
Qed.

(** C9: after the construction every core representative is a permitted
    processor, the representatives are no more than the cores, and no
    later call changes either set. *)
Theorem OpenMpManager_sets_invariant
    (c : Collection) (self : Z) (w0 : World) (m : OpenMpManager) :
  0 < getTotalNumberOfCpuCores c ->
  OpenMpManager_new c self w0 = Done m ->
  (forall cpu, CPU_ISSET cpu (currentCoreSet m) = true ->
               CPU_ISSET cpu (currentCpuSet m) = true)
  /\ CPU_COUNT (currentCoreSet m) <= getTotalNumberOfCpuCores c
  /\ forall calls w m' w',
       run c calls (m, w) = Done (m', w') ->
       currentCpuSet m' = currentCpuSet m /\ currentCoreSet m' = currentCoreSet m.
Proof.
  intros Htotal Hnew.
  apply OpenMpManager_new_facts in Hnew as (_ & _ & _ & Hsub & Hlow).
  split; [|split].
  - intros cpu H. apply Hsub in H as [[H _] _]. exact H.
  - apply (lowest_of_bucket_count (getNumberOfProcessors c) _ (currentCpuSet m));
      [exact Htotal | exact (Hlow Htotal)].
  - intros calls w m' w' Hrun. apply run_preserves in Hrun as (H1 & H2 & _).
    split; assumption.
Qed.

Lemma OpenMpManager_sets_invariant_witness :
  (forall cpu, CPU_ISSET cpu 255 = true -> CPU_ISSET cpu 65535 = true)
  /\ CPU_COUNT 255 <= 8
  /\ forall calls w m' w',
       run (topology 16 2 8) calls (mkOpenMpManager false false 65535 255, w) = Done (m', w') ->
       currentCpuSet m' = 65535 /\ currentCoreSet m' = 255.
Proof.
  apply (OpenMpManager_sets_invariant (topology 16 2 8) 0 (world (Some 65535) 16)
           (mkOpenMpManager false false 65535 255)).
  - reflexivity.
  - vm_compute. reflexivity.
Defined.

(** ** The binding policy *)

(** C5: at any time after the construction, binding is allowed iff none
    of the listed variables was in the environment when the manager was
    constructed and the GPU flag is off; when it is not allowed, the two
    binding calls return without touching the world. *)
Theorem isThreadsBindAllowed_policy
    (c : Collection) (self : Z) (w0 w1 w : World) (m0 m : OpenMpManager) (calls : list call) :
  OpenMpManager_new c self w0 = Done m0 ->
  run c calls (m0, w1) = Done (m, w) ->
  (isThreadsBindAllowed m = true
   <-> (forall name, In name openMpEnvVars -> getenv w0 name = None)
       /\ isGpuEnabled m = false)
  /\ (isThreadsBindAllowed m = false ->
      forall caller workers w',
        bindCurrentThreadToNonPrimaryCoreIfPossible c m caller w' = Done w'
        /\ bindOpenMpThreads c m caller workers w' = Done w').
Proof.
  intros Hnew Hrun.
  apply OpenMpManager_new_facts in Hnew as (_ & _ & Henv & _).
  apply run_preserves in Hrun as (_ & _ & Hflag).
  split.
  - unfold isThreadsBindAllowed. rewrite andb_true_iff, !negb_true_iff, Hflag, Henv.
    tauto.
  - intros Hoff caller workers w'.
    unfold bindCurrentThreadToNonPrimaryCoreIfPossible, bindOpenMpThreads.
    rewrite Hoff. split; reflexivity.
Qed.

Lemma isThreadsBindAllowed_policy_witness :
  (isThreadsBindAllowed (mkOpenMpManager true false 65535 255) = true
   <-> (forall name, In name openMpEnvVars -> getenv (world (Some 65535) 16) name = None)
       /\ isGpuEnabled (mkOpenMpManager true false 65535 255) = false)
  /\ (isThreadsBindAllowed (mkOpenMpManager true false 65535 255) = false ->
      forall caller workers w',
        bindCurrentThreadToNonPrimaryCoreIfPossible (topology 16 2 8)
          (mkOpenMpManager true false 65535 255) caller w' = Done w'
        /\ bindOpenMpThreads (topology 16 2 8)
             (mkOpenMpManager true false 65535 255) caller workers w' = Done w').
Proof.
  apply (isThreadsBindAllowed_policy (topology 16 2 8) 0
           (world (Some 65535) 16) (world (Some 65535) 16) (world (Some 65535) 16)
           (mkOpenMpManager false false 65535 255) (mkOpenMpManager true false 65535 255)
           [call_setGpuEnabled]).
  - vm_compute. reflexivity.
  - reflexivity.
Defined.


(** ** From a worker index to a processor *)

Lemma filter_none {A : Type} (f : A -> bool) (l : list A) :
  (forall x, In x l -> f x = false) -> filter f l = [].
Proof.
  induction l as [|x l IH]; intros H; simpl; [reflexivity|].
  rewrite (H x) by (left; reflexivity). apply IH. intros y Hy. apply H. right. exact Hy.
Qed.

(** Scanning the processors below [n] meets every member of a set that
    lies below [n]. *)
Lemma members_below (set : cpu_set_t) (n : Z) :
  0 <= n ->
  (forall cpu, CPU_ISSET cpu set = true -> cpu < n) ->
  filter (fun cpu => CPU_ISSET cpu set) (Zseq 0 (Z.to_nat n)) = CPU_members set.
Proof.
  intros Hn Hbelow. unfold CPU_members.
  assert (Hsize : CPU_SETSIZE = 1024) by reflexivity.
  destruct (Z.le_gt_cases n CPU_SETSIZE) as [Hle|Hgt].
  - replace (Z.to_nat CPU_SETSIZE)
      with (Z.to_nat n + Z.to_nat (CPU_SETSIZE - n))%nat by lia.
    rewrite Zseq_app, filter_app.
    rewrite (filter_none _ (Zseq (0 + Z.of_nat (Z.to_nat n)) _));
      [symmetry; apply app_nil_r|].
    intros cpu Hin. apply Zseq_In in Hin.
    destruct (CPU_ISSET cpu set) eqn:E; [|reflexivity].
    apply Hbelow in E. lia.
  - replace (Z.to_nat n)
      with (Z.to_nat CPU_SETSIZE + Z.to_nat (n - CPU_SETSIZE))%nat by lia.
    rewrite Zseq_app, filter_app.
    rewrite (filter_none _ (Zseq (0 + Z.of_nat (Z.to_nat CPU_SETSIZE)) _));
      [apply app_nil_r|].
    intros cpu Hin. apply Zseq_In in Hin.
    destruct (CPU_ISSET cpu set) eqn:E; [|reflexivity].
    apply CPU_ISSET_in_range in E. lia.
Qed.

Lemma getPhysicalCoreId_loop_spec (coreSet : cpu_set_t) :
  forall (count : nat) (processorId logicalCoreId : Z),
    processorId + Z.of_nat count <= INT_MAX ->
    0 <= logicalCoreId < UINT_MODULUS ->
    getPhysicalCoreId_loop count processorId coreSet logicalCoreId
    = match nth_error (filter (fun cpu => CPU_ISSET cpu coreSet) (Zseq processorId count))
                      (Z.to_nat logicalCoreId) with
      | Some cpu => Done cpu
      | None => Fatal
      end.
Proof.
  induction count as [|count IH]; intros i k Hmax Hk.
  - simpl. destruct (Z.to_nat k); reflexivity.
  - cbn [getPhysicalCoreId_loop Zseq filter].
    destruct (Z.ltb_spec i INT_MAX) as [_|Hge]; [|lia].
    destruct (CPU_ISSET i coreSet).
    + destruct (Z.eqb_spec k 0) as [->|Hk0]; simpl andb; cbv iota.
      * reflexivity.
      * rewrite IH.
        -- rewrite to_unsigned_small by lia.
           replace (Z.to_nat k) with (S (Z.to_nat (k - 1))) by lia. reflexivity.
        -- lia.
        -- apply to_unsigned_range.
    + simpl andb. cbv iota. apply IH; [lia | exact Hk].
Qed.

(** On a set that lies below the number of processors the scan is the
    lookup in the ascending list of the members. *)
Lemma getPhysicalCoreId_members (c : Collection) (m : OpenMpManager) (logicalCoreId : Z) :
  getNumberOfProcessors c <= INT_MAX ->
  (forall cpu, CPU_ISSET cpu (currentCoreSet m) = true -> cpu < getNumberOfProcessors c) ->
  0 <= logicalCoreId < UINT_MODULUS ->
  getPhysicalCoreId c m logicalCoreId
  = match nth_error (CPU_members (currentCoreSet m)) (Z.to_nat logicalCoreId) with
    | Some cpu => Done cpu
    | None => Fatal
    end.
Proof.
  intros Hmax Hbelow Hk. pose proof (getNumberOfProcessors_nonneg c) as Hn.
  unfold getPhysicalCoreId. rewrite getPhysicalCoreId_loop_spec; [|lia | exact Hk].
  rewrite members_below; [reflexivity | exact Hn | exact Hbelow].
Qed.

(** C7: on the manager that the constructor returns, an index below the
    number of core representatives gives the representative of that
    position in ascending order, and any other index ends in
    [LOG(FATAL)]. *)
Theorem getPhysicalCoreId_nth
    (c : Collection) (self : Z) (w : World) (m : OpenMpManager) (logicalCoreId : Z) :
  OpenMpManager_new c self w = Done m ->
  0 <= logicalCoreId < UINT_MODULUS ->
  StronglySorted Z.lt (CPU_members (currentCoreSet m))
  /\ (forall cpu, In cpu (CPU_members (currentCoreSet m))
                  <-> CPU_ISSET cpu (currentCoreSet m) = true)
  /\ (logicalCoreId < CPU_COUNT (currentCoreSet m) ->
      exists cpu,
        nth_error (CPU_members (currentCoreSet m)) (Z.to_nat logicalCoreId) = Some cpu
        /\ getPhysicalCoreId c m logicalCoreId = Done cpu)
  /\ (CPU_COUNT (currentCoreSet m) <= logicalCoreId ->
      getPhysicalCoreId c m logicalCoreId = Fatal).
Proof.
  intros Hnew Hk.
  apply OpenMpManager_new_facts in Hnew as (Hmax & _ & _ & Hsub & _).
  split; [apply CPU_members_sorted|]. split; [apply CPU_members_In|].
  rewrite (getPhysicalCoreId_members c m logicalCoreId Hmax); [| |exact Hk].
  2: { intros cpu H. apply Hsub in H as [[_ H] _]. lia. }
  rewrite CPU_COUNT_length. split.
  - intros Hlt.
    destruct (nth_error (CPU_members (currentCoreSet m)) (Z.to_nat logicalCoreId))
      as [cpu|] eqn:N.
    + exists cpu. split; reflexivity.
    + apply nth_error_None in N. lia.
  - intros Hge.
    assert (N : nth_error (CPU_members (currentCoreSet m)) (Z.to_nat logicalCoreId) = None)
      by (apply nth_error_None; lia).
    rewrite N. reflexivity.
Qed.

Lemma getPhysicalCoreId_nth_witness :
  StronglySorted Z.lt (CPU_members 255)
  /\ (forall cpu, In cpu (CPU_members 255) <-> CPU_ISSET cpu 255 = true)
  /\ (3 < CPU_COUNT 255 ->
      exists cpu,
        nth_error (CPU_members 255) (Z.to_nat 3) = Some cpu
        /\ getPhysicalCoreId (topology 16 2 8) (mkOpenMpManager false false 65535 255) 3
           = Done cpu)
  /\ (CPU_COUNT 255 <= 3 ->
      getPhysicalCoreId (topology 16 2 8) (mkOpenMpManager false false 65535 255) 3 = Fatal).
Proof.
  apply (getPhysicalCoreId_nth (topology 16 2 8) 0 (world (Some 65535) 16)
           (mkOpenMpManager false false 65535 255) 3).
  - vm_compute. reflexivity.
  - vm_compute. split; [discriminate | reflexivity].
Defined.

(** The eight representatives of the sample topology, and the indices
    behind them. *)
Example getPhysicalCoreId_sample :
  map (getPhysicalCoreId (topology 16 2 8) (mkOpenMpManager false false 65535 255))
      [0; 1; 7; 8; 4294967295]
  = [Done 0; Done 1; Done 7; Fatal; Fatal].
Proof. vm_compute. reflexivity. Qed.


(** ** The siblings of a core *)

Lemma selectAllCoreCpus_loop_unfold (fuel : nat) (n total : Z) (cpuSet : cpu_set_t)
    (processorId : Z) (set : cpu_set_t) :
  selectAllCoreCpus_loop fuel n total cpuSet processorId set
  = if processorId <? n then
      match fuel with
      | O => Undefined
      | S fuel' =>
        selectAllCoreCpus_loop fuel' n total cpuSet (to_unsigned (processorId + total))
          (if CPU_ISSET processorId cpuSet then CPU_SET processorId set else set)
      end
    else Done set.
Proof. destruct fuel; reflexivity. Qed.

Lemma to_unsigned_wrap (z : Z) :
  UINT_MODULUS <= z < 2 * UINT_MODULUS -> to_unsigned z = z - UINT_MODULUS.
Proof.
  intros H. unfold to_unsigned. symmetry.
  apply (Zmod_unique z UINT_MODULUS 1); lia.
Qed.

(** The loop only adds permitted processors below [n]. *)
Lemma selectAllCoreCpus_loop_adds (n total : Z) (cpuSet : cpu_set_t) :
  forall (fuel : nat) (processorId : Z) (set set' : cpu_set_t),
    0 <= processorId ->
    selectAllCoreCpus_loop fuel n total cpuSet processorId set = Done set' ->
    (forall cpu, CPU_ISSET cpu set = true -> CPU_ISSET cpu set' = true)
    /\ (forall cpu, CPU_ISSET cpu set' = true ->
                    CPU_ISSET cpu set = true \/ usable n cpuSet cpu)
    /\ (processorId < n -> CPU_ISSET processorId cpuSet = true ->
        CPU_ISSET processorId set' = true).
Proof.
  induction fuel as [|fuel IH]; intros p set set' Hp H;
    rewrite selectAllCoreCpus_loop_unfold in H;
    destruct (Z.ltb_spec p n) as [Hlt|Hge]; try discriminate;
    try (injection H as <-; split; [tauto | split; [tauto | lia]]).
  apply IH in H as (Hmono & Hadds & _); [|pose proof (to_unsigned_range (p + total)); lia].
  destruct (CPU_ISSET p cpuSet) eqn:Hperm.
  - pose proof (CPU_ISSET_in_range _ _ Hperm) as Hrange. split; [|split].
    + intros cpu Hc. apply Hmono. apply CPU_ISSET_SET_iff; [exact Hrange | right; exact Hc].
    + intros cpu Hc. apply Hadds in Hc as [Hc|Hc]; [|right; exact Hc].
      apply CPU_ISSET_SET_iff in Hc as [->|Hc]; [| |exact Hrange].
      * right. split; [exact Hperm | lia].
      * left. exact Hc.
    + intros _ _. apply Hmono. apply CPU_ISSET_SET_iff; [exact Hrange | left; reflexivity].
  - split; [exact Hmono|]. split; [exact Hadds|]. intros _ Hc. discriminate.
Qed.

(** A core count up to 2^31: the loop climbs in steps of the core count
    and meets every processor of the bucket. *)
Lemma selectAllCoreCpus_loop_up (n total : Z) (cpuSet : cpu_set_t) :
  0 < total <= INT_MAX + 1 -> n <= INT_MAX ->
  forall (fuel : nat) (processorId : Z) (set : cpu_set_t),
    0 <= processorId ->
    n - processorId <= Z.of_nat fuel ->
    exists set',
      selectAllCoreCpus_loop fuel n total cpuSet processorId set = Done set'
      /\ forall cpu, processorId <= cpu < n -> (cpu - processorId) mod total = 0 ->
                     CPU_ISSET cpu cpuSet = true -> CPU_ISSET cpu set' = true.
Proof.
  intros Htotal Hn. unfold INT_MAX in *.
  induction fuel as [|fuel IH]; intros p set Hp Hfuel;
    rewrite selectAllCoreCpus_loop_unfold;
    destruct (Z.ltb_spec p n) as [Hlt|Hge]; try lia;
    try (exists set; split; [reflexivity | intros cpu Hc; lia]).
  assert (Hnext : to_unsigned (p + total) = p + total).
  { apply to_unsigned_small. unfold UINT_MODULUS. lia. }
  rewrite Hnext.
  destruct (IH (p + total)
               (if CPU_ISSET p cpuSet then CPU_SET p set else set)) as (set' & Hrun & Hall);
    [lia | lia |].
  exists set'. split; [exact Hrun|].
  intros cpu Hc Hmod Hperm.
  destruct (Z.eq_dec cpu p) as [->|Hne].
  - apply (selectAllCoreCpus_loop_adds n total cpuSet) in Hrun as (Hmono & _); [|lia].
    apply Hmono. rewrite Hperm.
    apply CPU_ISSET_SET_iff; [apply (CPU_ISSET_in_range _ _ Hperm) | left; reflexivity].
  - apply Zmod_divides in Hmod as [k Hk]; [|lia].
    assert (1 <= k) by nia.
    apply Hall; [nia | | exact Hperm].
    apply Zmod_divides; [lia|]. exists (k - 1). lia.
Qed.

(** A core count beyond 2^31: the sum wraps around, the loop descends,
    and ends. *)
Lemma selectAllCoreCpus_loop_down (n total : Z) (cpuSet : cpu_set_t) :
  INT_MAX + 1 < total < UINT_MODULUS -> n <= INT_MAX ->
  forall (fuel : nat) (processorId : Z) (set : cpu_set_t),
    0 <= processorId ->
    (processorId < n -> processorId < Z.of_nat fuel) ->
    exists set', selectAllCoreCpus_loop fuel n total cpuSet processorId set = Done set'.
Proof.
  intros Htotal Hn. unfold INT_MAX, UINT_MODULUS in *.
  induction fuel as [|fuel IH]; intros p set Hp Hfuel;
    rewrite selectAllCoreCpus_loop_unfold;
    destruct (Z.ltb_spec p n) as [Hlt|Hge]; try lia;
    try (exists set; reflexivity).
  destruct (Z.lt_ge_cases (p + total) (2 ^ 32)) as [Hsmall|Hwrap].
  - rewrite to_unsigned_small by (unfold UINT_MODULUS; lia).
    rewrite selectAllCoreCpus_loop_unfold.
    destruct (Z.ltb_spec (p + total) n) as [Hlt'|_]; [lia|]. eexists. reflexivity.
  - rewrite to_unsigned_wrap by (unfold UINT_MODULUS; lia).
    apply IH; unfold UINT_MODULUS; lia.
Qed.

(** The sibling set: for a core count that is a positive [unsigned] and
    processors that an [int] can count, the computation returns, the set
    it returns holds every usable processor of the bucket of the
    representative, and it holds nothing but usable processors beside
    what the set held before. *)
Lemma selectAllCoreCpus_siblings (c : Collection) (m : OpenMpManager)
    (set : cpu_set_t) (physicalCoreId : Z) :
  0 < getTotalNumberOfCpuCores c < UINT_MODULUS ->
  getNumberOfProcessors c <= INT_MAX ->
  exists set',
    selectAllCoreCpus c m set physicalCoreId = Done set'
    /\ (forall cpu,
          sibling_of (getNumberOfProcessors c) (getTotalNumberOfCpuCores c)
                     (currentCpuSet m) physicalCoreId cpu ->
          CPU_ISSET cpu set' = true)
    /\ (forall cpu, CPU_ISSET cpu set' = true ->
                    CPU_ISSET cpu set = true
                    \/ usable (getNumberOfProcessors c) (currentCpuSet m) cpu).
Proof.
  intros Htotal Hmax. pose proof (getNumberOfProcessors_nonneg c) as Hn.
  unfold selectAllCoreCpus.
  destruct (Z.eqb_spec (getTotalNumberOfCpuCores c) 0) as [E|_]; [lia|].
  set (total := getTotalNumberOfCpuCores c) in *.
  set (n := getNumberOfProcessors c) in *.
  pose proof (Z.mod_pos_bound physicalCoreId total (proj1 Htotal)) as Hstart.
  assert (Hrun : exists set',
             selectAllCoreCpus_loop (Z.to_nat n) n total (currentCpuSet m)
               (physicalCoreId mod total) set = Done set'
             /\ forall cpu, sibling_of n total (currentCpuSet m) physicalCoreId cpu ->
                            CPU_ISSET cpu set' = true).
  { destruct (Z.le_gt_cases total (INT_MAX + 1)) as [Hle|Hgt].
    - destruct (selectAllCoreCpus_loop_up n total (currentCpuSet m)) 
        with (fuel := Z.to_nat n) (processorId := physicalCoreId mod total) (set := set)
        as (set' & Hrun & Hall); try lia.
      exists set'. split; [exact Hrun|].
      intros cpu [[Hperm Hrange] Hbucket].
      pose proof (Z.mod_le cpu total (proj1 Hrange) (proj1 Htotal)) as Hle'.
      apply Hall; [lia | | exact Hperm].
      rewrite <- Hbucket. rewrite Zminus_mod, Z.mod_mod, Z.sub_diag by lia. reflexivity.
    - destruct (selectAllCoreCpus_loop_down n total (currentCpuSet m)) 
        with (fuel := Z.to_nat n) (processorId := physicalCoreId mod total) (set := set)
        as (set' & Hrun); try lia.
      exists set'. split; [exact Hrun|].
      intros cpu [[Hperm Hrange] Hbucket].
      assert (Hcpu : cpu = physicalCoreId mod total).
      { rewrite <- Hbucket. symmetry. apply Z.mod_small. unfold INT_MAX in *. lia. }
      apply (selectAllCoreCpus_loop_adds n total (currentCpuSet m)) in Hrun as (_ & _ & Hfirst);
        [|lia].
      rewrite Hcpu. apply Hfirst; [lia | rewrite <- Hcpu; exact Hperm]. }
  destruct Hrun as (set' & Hrun & Hall). exists set'.
  split; [exact Hrun|]. split; [exact Hall|].
  apply (selectAllCoreCpus_loop_adds n total (currentCpuSet m)) in Hrun as (_ & Hadds & _);
    [exact Hadds | lia].
Qed.


(** Binding to a full core: for an index below the number of core
    representatives the call requests a mask that holds the representative
    of that index and its siblings, and only usable processors. *)
Lemma bindCurrentThreadToLogicalCoreCpus_siblings
    (c : Collection) (m : OpenMpManager) (logicalCoreId caller : Z) (w : World) :
  getNumberOfProcessors c <= INT_MAX ->
  0 <= getTotalNumberOfCpuCores c < UINT_MODULUS ->
  (forall cpu, CPU_ISSET cpu (currentCoreSet m) = true ->
               usable (getNumberOfProcessors c) (currentCpuSet m) cpu
               /\ getTotalNumberOfCpuCores c <> 0) ->
  0 <= logicalCoreId < CPU_COUNT (currentCoreSet m) ->
  exists representative set,
    nth_error (CPU_members (currentCoreSet m)) (Z.to_nat logicalCoreId) = Some representative
    /\ bindCurrentThreadToLogicalCoreCpus c m logicalCoreId caller w
       = Done (sched_setaffinity caller set w)
    /\ CPU_ISSET representative set = true
    /\ (forall cpu,
          sibling_of (getNumberOfProcessors c) (getTotalNumberOfCpuCores c)
                     (currentCpuSet m) representative cpu ->
          CPU_ISSET cpu set = true)
    /\ (forall cpu, CPU_ISSET cpu set = true ->
                    usable (getNumberOfProcessors c) (currentCpuSet m) cpu).
Proof.
  intros Hmax Htotal Hsub Hindex.
  destruct (nth_error (CPU_members (currentCoreSet m)) (Z.to_nat logicalCoreId))
    as [representative|] eqn:N.
  2: { apply nth_error_None in N. rewrite CPU_COUNT_length in Hindex. lia. }
  assert (Hrep : CPU_ISSET representative (currentCoreSet m) = true).
  { apply CPU_members_In. apply (nth_error_In _ _ N). }
  destruct (Hsub representative Hrep) as [Husable Hne].
  destruct (selectAllCoreCpus_siblings c m CPU_ZERO representative) as (set & Hset & Hall & Honly);
    [lia | exact Hmax |].
  exists representative, set.
  split; [reflexivity|]. split.
  - unfold bindCurrentThreadToLogicalCoreCpus.
    rewrite (getPhysicalCoreId_members c m logicalCoreId Hmax).
    + rewrite N. cbn [bind]. rewrite Hset. reflexivity.
    + intros cpu H. apply Hsub in H as [[_ H] _]. lia.
    + pose proof (CPU_COUNT_range (currentCoreSet m)). unfold UINT_MODULUS. lia.
  - split; [|split].
    + apply Hall. split; [exact Husable | reflexivity].
    + exact Hall.
    + intros cpu H. apply Honly in H as [H|H]; [|exact H].
      rewrite CPU_ISSET_ZERO in H. discriminate.
Qed.

(** C8, as the code has it: on the manager that the constructor returns,
    with binding allowed and at least one core representative, the call
    is the binding to the full core of representative 1, or 0 when there
    is only one; the mask it requests holds the representative and every
    permitted processor below the number of records that is congruent to
    it modulo the core count, and only permitted processors below that
    number. *)
Theorem bindCurrentThreadToNonPrimaryCoreIfPossible_full_core
    (c : Collection) (self : Z) (w0 : World) (m : OpenMpManager) (caller : Z) (w : World) :
  OpenMpManager_new c self w0 = Done m ->
  0 <= getTotalNumberOfCpuCores c < UINT_MODULUS ->
  isThreadsBindAllowed m = true ->
  1 <= CPU_COUNT (currentCoreSet m) ->
  exists representative set,
    nth_error (CPU_members (currentCoreSet m))
              (Z.to_nat (if CPU_COUNT (currentCoreSet m) >? 1 then 1 else 0))
    = Some representative
    /\ bindCurrentThreadToNonPrimaryCoreIfPossible c m caller w
       = bindCurrentThreadToLogicalCoreCpus c m
           (if CPU_COUNT (currentCoreSet m) >? 1 then 1 else 0) caller w
    /\ bindCurrentThreadToNonPrimaryCoreIfPossible c m caller w
       = Done (sched_setaffinity caller set w)
    /\ CPU_ISSET representative set = true
    /\ (forall cpu,
          sibling_of (getNumberOfProcessors c) (getTotalNumberOfCpuCores c)
                     (currentCpuSet m) representative cpu ->
          CPU_ISSET cpu set = true)
    /\ (forall cpu, CPU_ISSET cpu set = true ->
                    usable (getNumberOfProcessors c) (currentCpuSet m) cpu).
Proof.
  intros Hnew Htotal Hallowed Hcount.
  apply OpenMpManager_new_facts in Hnew as (Hmax & _ & _ & Hsub & _).
  assert (Hcall : forall index,
             (if CPU_COUNT (currentCoreSet m) >? 1 then 1 else 0) = index ->
             bindCurrentThreadToNonPrimaryCoreIfPossible c m caller w
             = bindCurrentThreadToLogicalCoreCpus c m index caller w).
  { intros index <-. unfold bindCurrentThreadToNonPrimaryCoreIfPossible.
    rewrite Hallowed. reflexivity. }
  remember (if CPU_COUNT (currentCoreSet m) >? 1 then 1 else 0) as index eqn:Ei.
  assert (Hindex : 0 <= index < CPU_COUNT (currentCoreSet m)).
  { rewrite Ei. destruct (Z.gtb_spec (CPU_COUNT (currentCoreSet m)) 1); lia. }
  destruct (bindCurrentThreadToLogicalCoreCpus_siblings c m index caller w
              Hmax Htotal Hsub Hindex) as (representative & set & H1 & H2 & H3 & H4 & H5).
  exists representative, set.
  rewrite (Hcall index eq_refl).
  split; [exact H1|]. split; [reflexivity|]. split; [exact H2|].
  split; [exact H3|]. split; [exact H4 | exact H5].
Qed.

Lemma bindCurrentThreadToNonPrimaryCoreIfPossible_full_core_witness :
  exists representative set,
    nth_error (CPU_members 255) (Z.to_nat (if CPU_COUNT 255 >? 1 then 1 else 0))
    = Some representative
    /\ bindCurrentThreadToNonPrimaryCoreIfPossible (topology 16 2 8)
         (mkOpenMpManager false false 65535 255) 5 (world (Some 65535) 16)
       = bindCurrentThreadToLogicalCoreCpus (topology 16 2 8)
           (mkOpenMpManager false false 65535 255)
           (if CPU_COUNT 255 >? 1 then 1 else 0) 5 (world (Some 65535) 16)
    /\ bindCurrentThreadToNonPrimaryCoreIfPossible (topology 16 2 8)
         (mkOpenMpManager false false 65535 255) 5 (world (Some 65535) 16)
       = Done (sched_setaffinity 5 set (world (Some 65535) 16))
    /\ CPU_ISSET representative set = true
    /\ (forall cpu, sibling_of 16 8 65535 representative cpu -> CPU_ISSET cpu set = true)
    /\ (forall cpu, CPU_ISSET cpu set = true -> usable 16 65535 cpu).
Proof.
  apply (bindCurrentThreadToNonPrimaryCoreIfPossible_full_core (topology 16 2 8) 0
           (world (Some 65535) 16) (mkOpenMpManager false false 65535 255) 5
           (world (Some 65535) 16)).
  - vm_compute. reflexivity.
  - vm_compute. split; [discriminate | reflexivity].
  - reflexivity.
  - vm_compute. discriminate.
Defined.

(** On the sample topology the caller is bound to processors 1 and 9, the
    two threads of the second core. *)
Example bindCurrentThreadToNonPrimaryCoreIfPossible_sample :
  affinity_after
    (bindCurrentThreadToNonPrimaryCoreIfPossible (topology 16 2 8)
       (mkOpenMpManager false false 65535 255) 5 (world (Some 65535) 16)) 5
  = Done (Some [1; 9]).
Proof. vm_compute. reflexivity. Qed.

(** C8 as stated fails in two places.  Where the mask permits processors
    that the file does not list (two records, processors 0 to 3 permitted,
    two cores), the caller is bound to processor 1 alone, without the
    permitted processor 3 of the same bucket.  And without any core
    representative (no record at all) the call ends in [LOG(FATAL)]. *)
Lemma bindCurrentThreadToNonPrimaryCoreIfPossible_counterexample :
  (OpenMpManager_new (topology 2 1 2) 0 (world (Some 15) 4)
   = Done (mkOpenMpManager false false 15 3)
   /\ CPU_members 15 = [0; 1; 2; 3]
   /\ CPU_members 3 = [0; 1]
   /\ 3 mod 2 = 1 mod 2
   /\ affinity_after
        (bindCurrentThreadToNonPrimaryCoreIfPossible (topology 2 1 2)
           (mkOpenMpManager false false 15 3) 5 (world (Some 15) 4)) 5
      = Done (Some [1]))
  /\ (OpenMpManager_new (topology 0 0 0) 0 (world (Some 15) 4)
      = Done (mkOpenMpManager false false 15 0)
      /\ isThreadsBindAllowed (mkOpenMpManager false false 15 0) = true
      /\ bindCurrentThreadToNonPrimaryCoreIfPossible (topology 0 0 0)
           (mkOpenMpManager false false 15 0) 5 (world (Some 15) 4)
         = Fatal).
Proof. repeat split; vm_compute; reflexivity. Qed.


(** ** One worker for each core *)

Lemma singleton_members (cpu : Z) :
  0 <= cpu < CPU_SETSIZE -> CPU_members (CPU_SET cpu CPU_ZERO) = [cpu].
Proof.
  intros Hrange.
  assert (Hmem : forall x, In x (CPU_members (CPU_SET cpu CPU_ZERO)) <-> x = cpu).
  { intros x. rewrite CPU_members_In, CPU_ISSET_SET_iff by exact Hrange.
    rewrite CPU_ISSET_ZERO. intuition discriminate. }
  pose proof (CPU_members_NoDup (CPU_SET cpu CPU_ZERO)) as Hnd.
  destruct (CPU_members (CPU_SET cpu CPU_ZERO)) as [|x l].
  - exfalso. apply (Hmem cpu). reflexivity.
  - assert (x = cpu) by (apply Hmem; left; reflexivity). subst x.
    destruct l as [|y l]; [reflexivity|].
    assert (y = cpu) by (apply Hmem; right; left; reflexivity). subst y.
    inversion Hnd as [|? ? Hnotin _]. exfalso. apply Hnotin. left. reflexivity.
Qed.

Lemma sched_setaffinity_other (self other : Z) (set : cpu_set_t) (w : World) :
  other <> self ->
  thread_affinity (sched_setaffinity self set w) other = thread_affinity w other.
Proof.
  intros Hne. simpl. destruct (Z.eqb_spec other self) as [E|_]; [contradiction | reflexivity].
Qed.

Lemma sched_setaffinity_self (self : Z) (set : cpu_set_t) (w : World) :
  thread_affinity (sched_setaffinity self set w) self = Some set.
Proof. simpl. rewrite Z.eqb_refl. reflexivity. Qed.

(** The threads of a team: the thread of number [first + i] requests the
    mask of the representative of that index alone. *)
Lemma omp_run_team_binds (c : Collection) (m : OpenMpManager) :
  getNumberOfProcessors c <= INT_MAX ->
  (forall cpu, CPU_ISSET cpu (currentCoreSet m) = true -> cpu < getNumberOfProcessors c) ->
  forall (team : list Z) (first : Z) (w : World),
    NoDup team ->
    0 <= first ->
    first + Z.of_nat (List.length team) <= CPU_COUNT (currentCoreSet m) ->
    exists w',
      omp_run_team team first
        (fun thread_num self w =>
           bindCurrentThreadToLogicalCoreCpu c m (to_unsigned thread_num) self w) w
      = Done w'
      /\ nthreads_var w' = nthreads_var w
      /\ (forall i thread,
            nth_error team i = Some thread ->
            exists cpu,
              nth_error (CPU_members (currentCoreSet m)) (Z.to_nat first + i) = Some cpu
              /\ thread_affinity w' thread = Some (CPU_SET cpu CPU_ZERO))
      /\ (forall thread, ~ In thread team ->
                         thread_affinity w' thread = thread_affinity w thread).
Proof.
  intros Hmax Hbelow. pose proof (CPU_COUNT_range (currentCoreSet m)) as Hcount.
  induction team as [|self team IH]; intros first w Hnd Hfirst Hlen.
  - exists w. split; [reflexivity|]. split; [reflexivity|]. split.
    + intros [|i] thread H; discriminate.
    + reflexivity.
  - simpl List.length in Hlen. inversion Hnd as [|? ? Hnotin Hnd']. subst.
    cbn [omp_run_team]. unfold bindCurrentThreadToLogicalCoreCpu at 1.
    rewrite (to_unsigned_small first) by (unfold UINT_MODULUS; lia).
    rewrite (getPhysicalCoreId_members c m first Hmax Hbelow)
      by (unfold UINT_MODULUS; lia).
    destruct (nth_error (CPU_members (currentCoreSet m)) (Z.to_nat first)) as [cpu|] eqn:N.
    2: { apply nth_error_None in N. rewrite CPU_COUNT_length in Hlen. lia. }
    cbn [bind].
    destruct (IH (first + 1) (sched_setaffinity self (CPU_SET cpu CPU_ZERO) w))
      as (w' & Hrun & Hn & Hteam & Hrest); [exact Hnd' | lia | lia |].
    exists w'. split; [exact Hrun|]. split; [exact Hn|]. split.
    + intros [|i] thread H.
      * injection H as <-. exists cpu. rewrite Nat.add_0_r. split; [exact N|].
        rewrite (Hrest self Hnotin). apply sched_setaffinity_self.
      * simpl in H. destruct (Hteam i thread H) as (cpu' & H1 & H2).
        exists cpu'. split; [|exact H2].
        replace (Z.to_nat first + S i)%nat with (Z.to_nat (first + 1) + i)%nat by lia.
        exact H1.
    + intros thread Hthread. rewrite Hrest by (intros H; apply Hthread; right; exact H).
      apply sched_setaffinity_other. intros ->. apply Hthread. left. reflexivity.
Qed.

Lemma omp_run_team_cons (self : Z) (team : list Z) (thread_num : Z)
    (body : Z -> Z -> World -> outcome World) (w : World) :
  omp_run_team (self :: team) thread_num body w
  = (w' <- body thread_num self w ;; omp_run_team team (thread_num + 1) body w').
Proof. reflexivity. Qed.

Lemma firstn_In {A : Type} (n : nat) (l : list A) (x : A) :
  In x (firstn n l) -> In x l.
Proof. intros H. rewrite <- (firstn_skipn n l). apply in_or_app. left. exact H. Qed.

Lemma omp_team_NoDup (self : Z) (workers : list Z) (w : World) :
  NoDup (self :: workers) -> NoDup (omp_team self workers w).
Proof.
  intros H. inversion H as [|? ? Hnotin Hnd]. subst. unfold omp_team. constructor.
  - intros Hin. apply Hnotin. apply (firstn_In _ _ _ Hin).
  - rewrite <- (firstn_skipn (Z.to_nat (nthreads_var w - 1)) workers) in Hnd.
    apply NoDup_app_remove_r in Hnd. exact Hnd.
Qed.

Lemma omp_team_length (self : Z) (workers : list Z) (w : World) :
  (1 <= List.length (omp_team self workers w))%nat
  /\ Z.of_nat (List.length (omp_team self workers w)) <= Z.max 1 (nthreads_var w).
Proof.
  unfold omp_team. cbn [List.length]. rewrite length_firstn. lia.
Qed.

Lemma setOpenMpThreadNumberLimit_request (m : OpenMpManager) (w : World) :
  nthreads_var (setOpenMpThreadNumberLimit m w)
  = if 0 <? CPU_COUNT (currentCoreSet m) then CPU_COUNT (currentCoreSet m) else 1.
Proof. reflexivity. Qed.

(** The fan-out on a manager with at least one core representative. *)
Lemma bindOpenMpThreads_binds (c : Collection) (m : OpenMpManager)
    (self : Z) (workers : list Z) (w : World) :
  getNumberOfProcessors c <= INT_MAX ->
  (forall cpu, CPU_ISSET cpu (currentCoreSet m) = true -> cpu < getNumberOfProcessors c) ->
  isThreadsBindAllowed m = true ->
  NoDup (self :: workers) ->
  0 < CPU_COUNT (currentCoreSet m) ->
  exists w',
    bindOpenMpThreads c m self workers w = Done w'
    /\ nthreads_var w' = CPU_COUNT (currentCoreSet m)
    /\ Z.of_nat (List.length (omp_team self workers (setOpenMpThreadNumberLimit m w)))
       <= CPU_COUNT (currentCoreSet m)
    /\ (forall i thread,
          nth_error (omp_team self workers (setOpenMpThreadNumberLimit m w)) i = Some thread ->
          exists cpu,
            nth_error (CPU_members (currentCoreSet m)) i = Some cpu
            /\ thread_affinity w' thread = Some (CPU_SET cpu CPU_ZERO))
    /\ (forall thread,
          ~ In thread (omp_team self workers (setOpenMpThreadNumberLimit m w)) ->
          thread_affinity w' thread = thread_affinity w thread).
Proof.
  intros Hmax Hbelow Hallowed Hnd Hcount.
  pose proof (omp_team_length self workers (setOpenMpThreadNumberLimit m w)) as [_ Hlen].
  pose proof (setOpenMpThreadNumberLimit_request m w) as Hreq.
  destruct (Z.ltb_spec 0 (CPU_COUNT (currentCoreSet m))) as [_|Hle]; [|lia].
  rewrite Hreq in Hlen.
  destruct (omp_run_team_binds c m Hmax Hbelow
              (omp_team self workers (setOpenMpThreadNumberLimit m w)) 0
              (setOpenMpThreadNumberLimit m w))
    as (w' & Hrun & Hn & Hteam & Hrest); [apply omp_team_NoDup; exact Hnd | lia | lia |].
  exists w'. split.
  { unfold bindOpenMpThreads, omp_parallel. rewrite Hallowed. exact Hrun. }
  split; [rewrite Hn; exact Hreq|]. split; [lia|]. split; [exact Hteam | exact Hrest].
Qed.

(** The fan-out on a manager without core representative: the region runs
    its thread 0, for which there is no representative. *)
Lemma bindOpenMpThreads_no_representative (c : Collection) (m : OpenMpManager)
    (self : Z) (workers : list Z) (w : World) :
  getNumberOfProcessors c <= INT_MAX ->
  (forall cpu, CPU_ISSET cpu (currentCoreSet m) = true -> cpu < getNumberOfProcessors c) ->
  isThreadsBindAllowed m = true ->
  CPU_COUNT (currentCoreSet m) = 0 ->
  bindOpenMpThreads c m self workers w = Fatal.
Proof.
  intros Hmax Hbelow Hallowed Hcount.
  assert (Hbody : forall w1,
             bindCurrentThreadToLogicalCoreCpu c m (to_unsigned 0) self w1 = Fatal).
  { intros w1. unfold bindCurrentThreadToLogicalCoreCpu.
    rewrite (to_unsigned_small 0) by (unfold UINT_MODULUS; lia).
    rewrite (getPhysicalCoreId_members c m 0 Hmax Hbelow) by (unfold UINT_MODULUS; lia).
    assert (N : nth_error (CPU_members (currentCoreSet m)) (Z.to_nat 0) = None).
    { apply nth_error_None. rewrite CPU_COUNT_length in Hcount. lia. }
    rewrite N. reflexivity. }
  unfold bindOpenMpThreads. rewrite Hallowed. cbn [negb].
  unfold omp_parallel, omp_team. rewrite omp_run_team_cons, Hbody. reflexivity.
Qed.

(** C6, as the code has it: on the manager that the constructor returns
    and with binding allowed.  With at least one core representative the
    call sets the number of threads of the next regions to the number of
    representatives, whatever it was, so that the team of its region has
    no more threads than that; the thread of number [i] requests the mask
    that holds the representative of index [i] alone, no other thread is
    touched, the masks of two threads share no processor and hold only
    representatives, and when the team has as many threads as there are
    representatives, the masks together hold all of them.  Without a core
    representative the call ends in [LOG(FATAL)]. *)
Theorem bindOpenMpThreads_one_per_core
    (c : Collection) (self0 : Z) (w0 : World) (m : OpenMpManager)
    (self : Z) (workers : list Z) (w : World) :
  OpenMpManager_new c self0 w0 = Done m ->
  isThreadsBindAllowed m = true ->
  NoDup (self :: workers) ->
  (0 < CPU_COUNT (currentCoreSet m) ->
   exists w',
     bindOpenMpThreads c m self workers w = Done w'
     /\ nthreads_var w' = CPU_COUNT (currentCoreSet m)
     /\ Z.of_nat (List.length (omp_team self workers (setOpenMpThreadNumberLimit m w)))
        <= CPU_COUNT (currentCoreSet m)
     /\ (forall i thread,
           nth_error (omp_team self workers (setOpenMpThreadNumberLimit m w)) i
           = Some thread ->
           exists cpu,
             nth_error (CPU_members (currentCoreSet m)) i = Some cpu
             /\ thread_affinity w' thread = Some (CPU_SET cpu CPU_ZERO)
             /\ CPU_members (CPU_SET cpu CPU_ZERO) = [cpu])
     /\ (forall thread,
           ~ In thread (omp_team self workers (setOpenMpThreadNumberLimit m w)) ->
           thread_affinity w' thread = thread_affinity w thread)
     /\ (forall thread mask cpu,
           In thread (omp_team self workers (setOpenMpThreadNumberLimit m w)) ->
           thread_affinity w' thread = Some mask ->
           CPU_ISSET cpu mask = true ->
           CPU_ISSET cpu (currentCoreSet m) = true)
     /\ (forall thread1 thread2 mask1 mask2 cpu,
           In thread1 (omp_team self workers (setOpenMpThreadNumberLimit m w)) ->
           In thread2 (omp_team self workers (setOpenMpThreadNumberLimit m w)) ->
           thread1 <> thread2 ->
           thread_affinity w' thread1 = Some mask1 ->
           thread_affinity w' thread2 = Some mask2 ->
           CPU_ISSET cpu mask1 = true -> CPU_ISSET cpu mask2 = false)
     /\ (Z.of_nat (List.length (omp_team self workers (setOpenMpThreadNumberLimit m w)))
         = CPU_COUNT (currentCoreSet m) ->
         forall cpu,
           CPU_ISSET cpu (currentCoreSet m) = true ->
           exists thread mask,
             In thread (omp_team self workers (setOpenMpThreadNumberLimit m w))
             /\ thread_affinity w' thread = Some mask
             /\ CPU_ISSET cpu mask = true))
  /\ (CPU_COUNT (currentCoreSet m) = 0 ->
      bindOpenMpThreads c m self workers w = Fatal).
Proof.
  intros Hnew Hallowed Hnd.
  apply OpenMpManager_new_facts in Hnew as (Hmax & _ & _ & Hsub & _).
  assert (Hbelow : forall cpu, CPU_ISSET cpu (currentCoreSet m) = true ->
                               cpu < getNumberOfProcessors c).
  { intros cpu H. apply Hsub in H as [[_ H] _]. lia. }
  split; [|apply bindOpenMpThreads_no_representative; assumption].
  intros Hcount.
  destruct (bindOpenMpThreads_binds c m self workers w Hmax Hbelow Hallowed Hnd Hcount)
    as (w' & Hrun & Hn & Hlen & Hteam & Hrest).
  remember (omp_team self workers (setOpenMpThreadNumberLimit m w)) as team eqn:Eteam.
  assert (Hmask : forall i thread,
             nth_error team i = Some thread ->
             exists cpu,
               nth_error (CPU_members (currentCoreSet m)) i = Some cpu
               /\ thread_affinity w' thread = Some (CPU_SET cpu CPU_ZERO)
               /\ CPU_members (CPU_SET cpu CPU_ZERO) = [cpu]).
  { intros i thread H. destruct (Hteam i thread H) as (cpu & H1 & H2).
    exists cpu. split; [exact H1|]. split; [exact H2|].
    apply singleton_members. apply (CPU_ISSET_in_range cpu (currentCoreSet m)).
    apply CPU_members_In. apply (nth_error_In _ _ H1). }
  assert (Hin : forall cpu' cpu, 0 <= cpu' < CPU_SETSIZE ->
                  (CPU_ISSET cpu (CPU_SET cpu' CPU_ZERO) = true <-> cpu = cpu')).
  { intros cpu' cpu Hr. rewrite CPU_ISSET_SET_iff by exact Hr.
    rewrite CPU_ISSET_ZERO. intuition discriminate. }
  assert (Hrange : forall i cpu, nth_error (CPU_members (currentCoreSet m)) i = Some cpu ->
                                 0 <= cpu < CPU_SETSIZE).
  { intros i cpu H. apply (CPU_ISSET_in_range cpu (currentCoreSet m)).
    apply CPU_members_In. apply (nth_error_In _ _ H). }
  exists w'. split; [exact Hrun|]. split; [exact Hn|]. split; [exact Hlen|].
  split; [exact Hmask|]. split; [exact Hrest|]. split; [|split].
  - intros thread mask cpu Ht Hm Hc.
    apply In_nth_error in Ht as [i Hi].
    destruct (Hmask i thread Hi) as (cpu' & H1 & H2 & _).
    assert (mask = CPU_SET cpu' CPU_ZERO) by congruence. subst mask.
    apply Hin in Hc; [|apply (Hrange i); exact H1]. subst cpu'.
    apply CPU_members_In. apply (nth_error_In _ _ H1).
  - intros thread1 thread2 mask1 mask2 cpu Ht1 Ht2 Hne Hm1 Hm2 Hc1.
    apply In_nth_error in Ht1 as [i1 Hi1]. apply In_nth_error in Ht2 as [i2 Hi2].
    destruct (Hmask i1 thread1 Hi1) as (cpu1 & H11 & H12 & _).
    destruct (Hmask i2 thread2 Hi2) as (cpu2 & H21 & H22 & _).
    assert (mask1 = CPU_SET cpu1 CPU_ZERO) by congruence.
    assert (mask2 = CPU_SET cpu2 CPU_ZERO) by congruence. subst mask1 mask2.
    apply Hin in Hc1; [|apply (Hrange i1); exact H11]. subst cpu1.
    destruct (CPU_ISSET cpu (CPU_SET cpu2 CPU_ZERO)) eqn:Hc2; [|reflexivity].
    apply Hin in Hc2; [|apply (Hrange i2); exact H21]. subst cpu2.
    exfalso. apply Hne.
    assert (i1 = i2).
    { apply (proj1 (NoDup_nth_error (CPU_members (currentCoreSet m)))
                   (CPU_members_NoDup (currentCoreSet m))).
      - apply nth_error_Some. congruence.
      - congruence. }
    congruence.
  - intros Hfull cpu H. apply CPU_members_In in H. apply In_nth_error in H as [i Hi].
    assert (Hi' : (i < List.length team)%nat).
    { rewrite CPU_COUNT_length in Hfull.
      assert (i < List.length (CPU_members (currentCoreSet m)))%nat
        by (apply nth_error_Some; congruence).
      lia. }
    destruct (nth_error team i) as [thread|] eqn:T;
      [|apply nth_error_None in T; lia].
    destruct (Hmask i thread T) as (cpu' & H1 & H2 & _).
    assert (cpu' = cpu) by congruence. subst cpu'.
    exists thread, (CPU_SET cpu CPU_ZERO).
    split; [apply (nth_error_In _ _ T)|]. split; [exact H2|].
    apply Hin; [apply (Hrange i); exact H1 | reflexivity].
Qed.

Lemma bindOpenMpThreads_one_per_core_witness :
  (0 < CPU_COUNT 3 ->
   exists w',
     bindOpenMpThreads (topology 4 1 2) (mkOpenMpManager false false 15 3) 10 [11; 12]
       (world (Some 15) 1) = Done w'
     /\ nthreads_var w' = CPU_COUNT 3
     /\ Z.of_nat (List.length 
             (omp_team 10 [11; 12] (setOpenMpThreadNumberLimit (mkOpenMpManager false false 15 3) (world (Some 15) 1)))) <= CPU_COUNT 3
     /\ (forall i thread,
           nth_error 
             (omp_team 10 [11; 12] (setOpenMpThreadNumberLimit (mkOpenMpManager false false 15 3) (world (Some 15) 1))) i = Some thread ->
           exists cpu,
             nth_error (CPU_members 3) i = Some cpu
             /\ thread_affinity w' thread = Some (CPU_SET cpu CPU_ZERO)
             /\ CPU_members (CPU_SET cpu CPU_ZERO) = [cpu])
     /\ (forall thread,
           ~ In thread 
             (omp_team 10 [11; 12] (setOpenMpThreadNumberLimit (mkOpenMpManager false false 15 3) (world (Some 15) 1))) ->
           thread_affinity w' thread = thread_affinity (world (Some 15) 1) thread)
     /\ (forall thread mask cpu,
           In thread 
             (omp_team 10 [11; 12] (setOpenMpThreadNumberLimit (mkOpenMpManager false false 15 3) (world (Some 15) 1))) ->
           thread_affinity w' thread = Some mask ->
           CPU_ISSET cpu mask = true ->
           CPU_ISSET cpu 3 = true)
     /\ (forall thread1 thread2 mask1 mask2 cpu,
           In thread1 
             (omp_team 10 [11; 12] (setOpenMpThreadNumberLimit (mkOpenMpManager false false 15 3) (world (Some 15) 1))) ->
           In thread2 
             (omp_team 10 [11; 12] (setOpenMpThreadNumberLimit (mkOpenMpManager false false 15 3) (world (Some 15) 1))) ->
           thread1 <> thread2 ->
           thread_affinity w' thread1 = Some mask1 ->
           thread_affinity w' thread2 = Some mask2 ->
           CPU_ISSET cpu mask1 = true -> CPU_ISSET cpu mask2 = false)
     /\ (Z.of_nat (List.length 
             (omp_team 10 [11; 12] (setOpenMpThreadNumberLimit (mkOpenMpManager false false 15 3) (world (Some 15) 1)))) = CPU_COUNT 3 ->
         forall cpu,
           CPU_ISSET cpu 3 = true ->
           exists thread mask,
             In thread 
             (omp_team 10 [11; 12] (setOpenMpThreadNumberLimit (mkOpenMpManager false false 15 3) (world (Some 15) 1)))
             /\ thread_affinity w' thread = Some mask
             /\ CPU_ISSET cpu mask = true))
  /\ (CPU_COUNT 3 = 0 ->
      bindOpenMpThreads (topology 4 1 2) (mkOpenMpManager false false 15 3) 10 [11; 12]
        (world (Some 15) 1) = Fatal).
Proof.
  apply (bindOpenMpThreads_one_per_core (topology 4 1 2) 0 (world (Some 15) 1)
           (mkOpenMpManager false false 15 3) 10 [11; 12] (world (Some 15) 1)).
  - vm_compute. reflexivity.
  - reflexivity.
  - repeat constructor; simpl; intuition discriminate.
Defined.

(** C6 as stated fails for a request below the number of cores: with one
    thread requested and two core representatives the call requests two
    threads, where clamping would leave the request at one. *)
Lemma bindOpenMpThreads_raises_request_counterexample :
  nthreads_var (world (Some 15) 1) = 1
  /\ CPU_COUNT (currentCoreSet (mkOpenMpManager false false 15 3)) = 2
  /\ Z.min 1 2 = 1
  /\ nthreads_after
       (bindOpenMpThreads (topology 4 1 2) (mkOpenMpManager false false 15 3) 10 [11; 12]
          (world (Some 15) 1))
     = Done 2.
Proof. repeat split; vm_compute; reflexivity. Qed.


(** * Further properties of the topology parser *)

(** ** Lines and field names *)

(** [beginsWith] holds exactly of the lines that start with the text. *)
Theorem beginsWith_prefix (text : string) :
  forall lineBuffer,
    beginsWith lineBuffer text = true <-> exists rest, lineBuffer = (text ++ rest)%string.
Proof.
  induction text as [|t text IH]; intros lineBuffer.
  - split; [intros _; exists lineBuffer; reflexivity | destruct lineBuffer; reflexivity].
  - destruct lineBuffer as [|l lineBuffer]; cbn [beginsWith].
    + split; [discriminate | intros [rest H]; discriminate H].
    + destruct (Ascii.eqb_spec l t) as [->|Hne].
      * rewrite IH. split; intros [rest H]; exists rest.
        -- simpl. rewrite H. reflexivity.
        -- simpl in H. injection H as H. exact H.
      * split; [discriminate|]. intros [rest H]. simpl in H. injection H as H _.
        contradiction.
Qed.

Lemma string_mem_colon (ch : ascii) : string_mem ch ":" = Ascii.eqb ":" ch.
Proof.
  change (string_mem ch ":") with (Ascii.eqb ch ":" || false).
  rewrite orb_false_r. apply Ascii.eqb_sym.
Qed.

Lemma strcspn_no_colon (lineBuffer : string) :
  string_mem ":" lineBuffer = false ->
  string_drop (strcspn lineBuffer ":") lineBuffer = EmptyString.
Proof.
  induction lineBuffer as [|ch lineBuffer IH]; intros H; [reflexivity|].
  rewrite string_mem_cons in H. apply orb_false_elim in H as [Hch Hrest].
  cbn [strcspn]. rewrite string_mem_colon, Hch. cbn [string_drop]. apply IH. exact Hrest.
Qed.

Lemma strcspn_colon (lineBuffer : string) :
  string_mem ":" lineBuffer = true ->
  exists rest, string_drop (strcspn lineBuffer ":") lineBuffer = String ":" rest.
Proof.
  induction lineBuffer as [|ch lineBuffer IH]; intros H; [discriminate|].
  rewrite string_mem_cons in H. cbn [strcspn]. rewrite string_mem_colon.
  destruct (Ascii.eqb_spec ":" ch) as [<-|Hne].
  - exists lineBuffer. reflexivity.
  - cbn [string_drop]. apply IH. exact H.
Qed.

Lemma parseCpuFileLine_cases (lineBuffer : string) (c : Collection) :
  parseCpuFileLine lineBuffer c
  = if string_mem ":" lineBuffer
    then parseValue lineBuffer (pointer_at (strcspn lineBuffer ":" + 2) lineBuffer) c
    else Done (set_currentProcessor None c).
Proof.
  unfold parseCpuFileLine. destruct (string_mem ":" lineBuffer) eqn:H.
  - destruct (strcspn_colon lineBuffer H) as [rest ->]. reflexivity.
  - rewrite (strcspn_no_colon lineBuffer H). reflexivity.
Qed.


(** ** What parsing keeps *)

Lemma update_at_length {A : Type} (f : A -> A) (l : list A) :
  forall i, List.length (update_at i f l) = List.length l.
Proof.
  induction l as [|x l IH]; intros [|i]; simpl; try reflexivity.
  rewrite IH. reflexivity.
Qed.

Lemma update_at_firstn {A : Type} (f : A -> A) (l : list A) :
  forall i, firstn i (update_at i f l) = firstn i l.
Proof.
  induction l as [|x l IH]; intros [|i]; simpl; try reflexivity.
  rewrite IH. reflexivity.
Qed.

Lemma double_to_unsigned_range (x : double) (v : Z) :
  double_to_unsigned x = Done v -> 0 <= v < UINT_MODULUS.
Proof.
  unfold double_to_unsigned, UINT_MODULUS. destruct x as [s|s| |s mant e]; try discriminate.
  - intros H. injection H as <-. lia.
  - destruct s.
    + destruct (Z.shiftl (Z.pos mant) e =? 0); [|discriminate].
      intros H. injection H as <-. lia.
    + destruct (Z.ltb_spec (Z.shiftl (Z.pos mant) e) (2 ^ 32)) as [Hlt|_]; [|discriminate].
      intros H. injection H as <-. split; [|exact Hlt].
      apply Z.shiftl_nonneg. lia.
Qed.

Lemma extract_fields (text : option string) (c c' : Collection) :
  extractProcessorSpeedFromModelName text c = Done c' ->
  processors c' = processors c
  /\ currentProcessor c' = currentProcessor c
  /\ totalNumberOfSockets c' = totalNumberOfSockets c
  /\ totalNumberOfCpuCores c' = totalNumberOfCpuCores c
  /\ (0 <= processorSpeedMHz c < UINT_MODULUS -> 0 <= processorSpeedMHz c' < UINT_MODULUS).
Proof.
  intros H. destruct text as [s|]; [|discriminate H].
  rewrite extract_unfold in H.
  destruct (strstr s "@") as [text'|]; [|injection H as <-; repeat split; tauto].
  destruct (negb (processorSpeedMHz c =? 0));
    [injection H as <-; repeat split; tauto|].
  destruct (strtod (string_drop 1 text')) as [speed unit].
  match type of H with
  | bind (double_to_unsigned ?x) _ = _ =>
    destruct (double_to_unsigned x) as [v| |] eqn:V
  end; try discriminate H.
  change (Done (set_processorSpeedMHz v c) = Done c') in H. injection H as <-.
  apply double_to_unsigned_range in V. repeat split; apply V.
Qed.

(** The extraction touches nothing but the clock speed, and what it
    stores is a value of [unsigned]. *)
Theorem extractProcessorSpeedFromModelName_keeps
    (text : option string) (c c' : Collection) :
  extractProcessorSpeedFromModelName text c = Done c' ->
  0 <= processorSpeedMHz c < UINT_MODULUS ->
  0 <= processorSpeedMHz c' < UINT_MODULUS
  /\ processors c' = processors c
  /\ currentProcessor c' = currentProcessor c
  /\ totalNumberOfSockets c' = totalNumberOfSockets c
  /\ totalNumberOfCpuCores c' = totalNumberOfCpuCores c.
Proof.
  intros H Hrange. apply extract_fields in H as (H1 & H2 & H3 & H4 & H5).
  split; [exact (H5 Hrange)|]. repeat split; assumption.
Qed.

Lemma extractProcessorSpeedFromModelName_keeps_witness :
  0 <= processorSpeedMHz (mkCollection [] None 2400 0 0) < UINT_MODULUS
  /\ processors (mkCollection [] None 2400 0 0) = processors (mkCollection [] None 0 0 0)
  /\ currentProcessor (mkCollection [] None 2400 0 0)
     = currentProcessor (mkCollection [] None 0 0 0)
  /\ totalNumberOfSockets (mkCollection [] None 2400 0 0)
     = totalNumberOfSockets (mkCollection [] None 0 0 0)
  /\ totalNumberOfCpuCores (mkCollection [] None 2400 0 0)
     = totalNumberOfCpuCores (mkCollection [] None 0 0 0).
Proof.
  apply (extractProcessorSpeedFromModelName_keeps (Some "Model @ 2.40GHz")
           (mkCollection [] None 0 0 0) (mkCollection [] None 2400 0 0)).
  - vm_compute. reflexivity.
  - vm_compute. split; [discriminate | reflexivity].
Defined.

Lemma parseInteger_keeps (f : field) (text : option string) (c c' : Collection) :
  parseInteger f text c = Done c' ->
  currentProcessor c' = currentProcessor c
  /\ List.length (processors c') = List.length (processors c)
  /\ closed_records c' = closed_records c
  /\ processorSpeedMHz c' = processorSpeedMHz c
  /\ totalNumberOfSockets c' = totalNumberOfSockets c
  /\ totalNumberOfCpuCores c' = totalNumberOfCpuCores c.
Proof.
  unfold parseInteger. destruct text as [s|]; [|discriminate]. cbn [read_string bind].
  destruct (atol s) as [v| |]; cbn [bind]; try discriminate.
  destruct (currentProcessor c) as [i|] eqn:Hcur; [|discriminate].
  intros H. injection H as <-. unfold closed_records. simpl. rewrite Hcur.
  rewrite update_at_length, update_at_firstn. repeat split.
Qed.

Lemma appendNewProcessor_keeps (c : Collection) :
  currentProcessor c = None ->
  current_is_last (appendNewProcessor c)
  /\ closed_records (appendNewProcessor c) = closed_records c
  /\ List.length (processors (appendNewProcessor c)) = S (List.length (processors c)).
Proof.
  intros Hcur. unfold current_is_last, closed_records, appendNewProcessor. simpl.
  rewrite Hcur, length_app, firstn_app, Nat.sub_diag, firstn_all. simpl.
  rewrite app_nil_r. repeat split; lia.
Qed.

(** One line: the pointer stays null or on the last record, the closed
    records stay as they are, at most one record is added, and the totals
    are not touched. *)
Lemma parseCpuFileLine_keeps (lineBuffer : string) (c c' : Collection) :
  current_is_last c ->
  parseCpuFileLine lineBuffer c = Done c' ->
  current_is_last c'
  /\ (exists newer, closed_records c' = (closed_records c ++ newer)%list)
  /\ (List.length (processors c) <= List.length (processors c')
      <= S (List.length (processors c)))%nat
  /\ totalNumberOfSockets c' = totalNumberOfSockets c
  /\ totalNumberOfCpuCores c' = totalNumberOfCpuCores c
  /\ (0 <= processorSpeedMHz c < UINT_MODULUS -> 0 <= processorSpeedMHz c' < UINT_MODULUS).
Proof.
  intros Hlast H. rewrite parseCpuFileLine_cases in H.
  destruct (string_mem ":" lineBuffer).
  - unfold parseValue in H.
    set (c1 := match currentProcessor c with
               | None => appendNewProcessor c
               | Some _ => c
               end) in H.
    assert (H1 : current_is_last c1 /\ closed_records c1 = closed_records c
                 /\ (List.length (processors c) <= List.length (processors c1)
                     <= S (List.length (processors c)))%nat
                 /\ totalNumberOfSockets c1 = totalNumberOfSockets c
                 /\ totalNumberOfCpuCores c1 = totalNumberOfCpuCores c
                 /\ processorSpeedMHz c1 = processorSpeedMHz c).
    { unfold c1. destruct (currentProcessor c) eqn:Hcur.
      - repeat split; try exact Hlast; lia.
      - destruct (appendNewProcessor_keeps c Hcur) as (Ha & Hb & Hc).
        repeat split; try assumption; lia. }
    clearbody c1. destruct H1 as (Hl1 & Hc1 & Hn1 & Hs1 & Ht1 & Hp1).
    assert (Hint : forall f, parseInteger f (pointer_at (strcspn lineBuffer ":" + 2) lineBuffer) c1
                             = Done c' ->
                   current_is_last c'
                   /\ (exists newer, closed_records c' = (closed_records c ++ newer)%list)
                   /\ (List.length (processors c) <= List.length (processors c')
                       <= S (List.length (processors c)))%nat
                   /\ totalNumberOfSockets c' = totalNumberOfSockets c
                   /\ totalNumberOfCpuCores c' = totalNumberOfCpuCores c
                   /\ (0 <= processorSpeedMHz c < UINT_MODULUS ->
                       0 <= processorSpeedMHz c' < UINT_MODULUS)).
    { intros f Hf. apply parseInteger_keeps in Hf as (Ha & Hb & Hc & Hd & He & Hg).
      split; [unfold current_is_last in *; rewrite Ha, Hb; exact Hl1|].
      split; [exists []; rewrite app_nil_r; congruence|].
      split; [lia|]. split; [congruence|]. split; [congruence|]. rewrite Hd, Hp1. tauto. }
    destruct (beginsWith lineBuffer "processor"); [apply (Hint _ H)|].
    destruct (beginsWith lineBuffer "physical id"); [apply (Hint _ H)|].
    destruct (beginsWith lineBuffer "siblings"); [apply (Hint _ H)|].
    destruct (beginsWith lineBuffer "core id"); [apply (Hint _ H)|].
    destruct (beginsWith lineBuffer "cpu cores"); [apply (Hint _ H)|].
    destruct (beginsWith lineBuffer "model name").
    + apply extract_fields in H as (Ha & Hb & Hc & Hd & He).
      split; [unfold current_is_last in *; rewrite Ha, Hb; exact Hl1|].
      split; [exists []; rewrite app_nil_r; unfold closed_records in *;
              rewrite Ha, Hb; exact Hc1|].
      split; [rewrite Ha; exact Hn1|]. split; [congruence|]. split; [congruence|].
      rewrite <- Hp1. exact He.
    + injection H as <-. 
      split; [exact Hl1|]. split; [exists []; rewrite app_nil_r; exact Hc1|].
      split; [exact Hn1|]. split; [exact Hs1|]. split; [exact Ht1|]. rewrite Hp1. tauto.
  - injection H as <-. split; [exact I|]. split.
    + unfold closed_records, current_is_last in *. simpl.
      destruct (currentProcessor c) as [i|].
      * exists (skipn i (processors c)). symmetry. apply firstn_skipn.
      * exists []. symmetry. apply app_nil_r.
    + simpl. repeat split; try lia; tauto.
Qed.

Lemma parseCpuFileLines_invariant (lines : list string) :
  forall c c',
    current_is_last c ->
    parseCpuFileLines lines c = Done c' ->
    current_is_last c'
    /\ (exists newer, closed_records c' = (closed_records c ++ newer)%list)
    /\ (List.length (processors c) <= List.length (processors c')
        <= List.length (processors c) + List.length lines)%nat
    /\ totalNumberOfSockets c' = totalNumberOfSockets c
    /\ totalNumberOfCpuCores c' = totalNumberOfCpuCores c
    /\ (0 <= processorSpeedMHz c < UINT_MODULUS -> 0 <= processorSpeedMHz c' < UINT_MODULUS).
Proof.
  induction lines as [|lineBuffer lines IH]; intros c c' Hlast H.
  - simpl in H. injection H as <-. split; [exact Hlast|].
    split; [exists []; symmetry; apply app_nil_r|]. simpl. repeat split; try lia; tauto.
  - cbn [parseCpuFileLines] in H.
    destruct (parseCpuFileLine lineBuffer c) as [c1| |] eqn:H1; cbn [bind] in H;
      try discriminate.
    apply (parseCpuFileLine_keeps lineBuffer c c1 Hlast) in H1
      as (Hl1 & [newer1 Hc1] & Hn1 & Hs1 & Ht1 & Hp1).
    apply (IH c1 c' Hl1) in H as (Hl & [newer Hc] & Hn & Hs & Ht & Hp).
    split; [exact Hl|].
    split; [exists (newer1 ++ newer)%list; rewrite Hc, Hc1; symmetry; apply app_assoc|].
    simpl List.length. split; [lia|]. split; [congruence|]. split; [congruence|]. tauto.
Qed.

(** Records are delimited by the lines without a colon.  Such a line
    closes the open record and changes nothing else.  Every line with a
    colon, whatever its field name, opens a new record at the end when
    none is open, and stays in the open record otherwise. *)
Theorem parseCpuFileLine_record_boundary (lineBuffer : string) (c c' : Collection) :
  string_mem "000" lineBuffer = false ->
  parseCpuFileLine lineBuffer c = Done c' ->
  if string_mem ":" lineBuffer
  then match currentProcessor c with
       | None =>
         currentProcessor c' = Some (List.length (processors c))
         /\ List.length (processors c') = S (List.length (processors c))
         /\ firstn (List.length (processors c)) (processors c') = processors c
       | Some i =>
         currentProcessor c' = Some i
         /\ List.length (processors c') = List.length (processors c)
         /\ firstn i (processors c') = firstn i (processors c)
       end
  else c' = set_currentProcessor None c.
Proof.
  intros _ H. rewrite parseCpuFileLine_cases in H.
  destruct (string_mem ":" lineBuffer); [|injection H as <-; reflexivity].
  unfold parseValue in H.
  remember (match currentProcessor c with
            | None => appendNewProcessor c
            | Some _ => c
            end) as c1 eqn:E1.
  assert (Hkeep : currentProcessor c' = currentProcessor c1
                  /\ List.length (processors c') = List.length (processors c1)
                  /\ closed_records c' = closed_records c1).
  { assert (Hint : forall f,
               parseInteger f (pointer_at (strcspn lineBuffer ":" + 2) lineBuffer) c1
               = Done c' ->
               currentProcessor c' = currentProcessor c1
               /\ List.length (processors c') = List.length (processors c1)
               /\ closed_records c' = closed_records c1).
    { intros f Hf. apply parseInteger_keeps in Hf as (Ha & Hb & Hc & _).
      repeat split; assumption. }
    destruct (beginsWith lineBuffer "processor"); [apply (Hint _ H)|].
    destruct (beginsWith lineBuffer "physical id"); [apply (Hint _ H)|].
    destruct (beginsWith lineBuffer "siblings"); [apply (Hint _ H)|].
    destruct (beginsWith lineBuffer "core id"); [apply (Hint _ H)|].
    destruct (beginsWith lineBuffer "cpu cores"); [apply (Hint _ H)|].
    destruct (beginsWith lineBuffer "model name").
    - apply extract_fields in H as (Ha & Hb & _).
      unfold closed_records. rewrite Ha, Hb. repeat split.
    - injection H as <-. repeat split. }
  destruct Hkeep as (Hcur & Hlen & Hclosed).
  destruct (currentProcessor c) as [i|] eqn:Hc.
  - subst c1. unfold closed_records in Hclosed. rewrite Hcur, Hc in Hclosed.
    rewrite Hcur, Hc, Hlen. repeat split. exact Hclosed.
  - subst c1. unfold closed_records in Hclosed. rewrite Hcur in Hclosed.
    unfold appendNewProcessor in *. cbn [currentProcessor processors set_currentProcessor
                                         set_processors] in *.
    rewrite Hcur, Hlen, length_app, Hclosed. cbn [List.length].
    rewrite firstn_app, Nat.sub_diag, firstn_all. cbn [firstn].
    rewrite app_nil_r. repeat split. lia.
Qed.

Lemma parseCpuFileLine_record_boundary_witness :
  currentProcessor (mkCollection [mkProcessor 3 0 0 0 0; Processor_new] (Some 1%nat) 0 0 0)
  = Some (List.length (processors (mkCollection [mkProcessor 3 0 0 0 0] None 0 0 0)))
  /\ List.length
       (processors (mkCollection [mkProcessor 3 0 0 0 0; Processor_new] (Some 1%nat) 0 0 0))
     = S (List.length (processors (mkCollection [mkProcessor 3 0 0 0 0] None 0 0 0)))
  /\ firstn (List.length (processors (mkCollection [mkProcessor 3 0 0 0 0] None 0 0 0)))
       (processors (mkCollection [mkProcessor 3 0 0 0 0; Processor_new] (Some 1%nat) 0 0 0))
     = processors (mkCollection [mkProcessor 3 0 0 0 0] None 0 0 0).
Proof.
  apply (parseCpuFileLine_record_boundary "flags : fpu vme"
           (mkCollection [mkProcessor 3 0 0 0 0] None 0 0 0)
           (mkCollection [mkProcessor 3 0 0 0 0; Processor_new] (Some 1%nat) 0 0 0)).
  - reflexivity.
  - vm_compute. reflexivity.
Defined.

(** Every line list: the pointer ends null or on the last record, the
    records that a separator has closed are never changed or removed
    afterwards, every line adds at most one record, the totals are left
    to [collectBasicCpuInformation], and the clock speed stays a value of
    [unsigned]. *)
Theorem parseCpuFileLines_keeps (lines : list string) (c c' : Collection) :
  current_is_last c ->
  parseCpuFileLines lines c = Done c' ->
  current_is_last c'
  /\ (exists newer, closed_records c' = (closed_records c ++ newer)%list)
  /\ (List.length (processors c) <= List.length (processors c')
      <= List.length (processors c) + List.length lines)%nat
  /\ totalNumberOfSockets c' = totalNumberOfSockets c
  /\ totalNumberOfCpuCores c' = totalNumberOfCpuCores c
  /\ (0 <= processorSpeedMHz c < UINT_MODULUS -> 0 <= processorSpeedMHz c' < UINT_MODULUS).
Proof. apply parseCpuFileLines_invariant. Qed.

Lemma parseCpuFileLines_keeps_witness :
  current_is_last (mkCollection [mkProcessor 3 0 0 0 0] (Some 0%nat) 0 0 0)
  /\ (exists newer,
        closed_records (mkCollection [mkProcessor 3 0 0 0 0] (Some 0%nat) 0 0 0)
        = (closed_records (mkCollection [] None 0 0 0) ++ newer)%list)
  /\ (List.length (processors (mkCollection [] None 0 0 0))
      <= List.length (processors (mkCollection [mkProcessor 3 0 0 0 0] (Some 0%nat) 0 0 0))
      <= List.length (processors (mkCollection [] None 0 0 0))
         + List.length ["processor : 3"])%nat
  /\ totalNumberOfSockets (mkCollection [mkProcessor 3 0 0 0 0] (Some 0%nat) 0 0 0)
     = totalNumberOfSockets (mkCollection [] None 0 0 0)
  /\ totalNumberOfCpuCores (mkCollection [mkProcessor 3 0 0 0 0] (Some 0%nat) 0 0 0)
     = totalNumberOfCpuCores (mkCollection [] None 0 0 0)
  /\ (0 <= processorSpeedMHz (mkCollection [] None 0 0 0) < UINT_MODULUS ->
      0 <= processorSpeedMHz (mkCollection [mkProcessor 3 0 0 0 0] (Some 0%nat) 0 0 0)
      < UINT_MODULUS).
Proof.
  apply (parseCpuFileLines_keeps ["processor : 3"] (mkCollection [] None 0 0 0)
           (mkCollection [mkProcessor 3 0 0 0 0] (Some 0%nat) 0 0 0)).
  - exact I.
  - vm_compute. reflexivity.
Defined.

(** ** The constructor of the collection *)

Lemma collect_loop_keeps (ps : list Processor) :
  forall u c,
    processors (collect_loop ps u c) = processors c
    /\ currentProcessor (collect_loop ps u c) = currentProcessor c
    /\ processorSpeedMHz (collect_loop ps u c) = processorSpeedMHz c.
Proof.
  induction ps as [|p ps IH]; intros u c; [repeat split|].
  cbn [collect_loop].
  destruct (IH (set_add Z.eq_dec (physicalId p) u)
               (updateCpuInformation p
                  (to_unsigned (Z.of_nat (List.length (set_add Z.eq_dec (physicalId p) u)))) c))
    as (H1 & H2 & H3).
  rewrite H1, H2, H3. unfold updateCpuInformation.
  destruct (totalNumberOfSockets c =? _); repeat split.
Qed.

Lemma collectBasicCpuInformation_keeps (c : Collection) :
  processors (collectBasicCpuInformation c) = processors c
  /\ currentProcessor (collectBasicCpuInformation c) = currentProcessor c
  /\ processorSpeedMHz (collectBasicCpuInformation c) = processorSpeedMHz c.
Proof. unfold collectBasicCpuInformation. apply collect_loop_keeps. Qed.

Lemma distinct_sockets_le (ps : list Processor) :
  0 <= distinct_sockets ps <= Z.of_nat (List.length ps).
Proof.
  unfold distinct_sockets. split; [lia|].
  assert (H : (List.length (nodup Z.eq_dec (map physicalId ps))
               <= List.length (map physicalId ps))%nat).
  { apply NoDup_incl_length; [apply NoDup_nodup|]. intros x Hx. apply nodup_In in Hx. exact Hx. }
  rewrite length_map in H. lia.
Qed.

(** What the constructor returns: whether the file can be opened or not,
    the totals are those of the records it holds, the sockets are no
    more than the records, and the clock speed and the core count are
    values of [unsigned]; a file that cannot be opened gives no record
    and zeros. *)
Theorem Collection_new_aggregates (cpuinfo : option string) (c : Collection) :
  Collection_new cpuinfo = Done c ->
  totalNumberOfSockets c = to_unsigned (distinct_sockets (processors c))
  /\ totalNumberOfCpuCores c = to_unsigned (cores_of_sockets (processors c))
  /\ 0 <= totalNumberOfSockets c <= Z.of_nat (List.length (processors c))
  /\ 0 <= totalNumberOfCpuCores c < UINT_MODULUS
  /\ 0 <= processorSpeedMHz c < UINT_MODULUS
  /\ current_is_last c
  /\ (cpuinfo = None -> c = mkCollection [] None 0 0 0).
Proof.
  unfold Collection_new. intros H.
  destruct (parseCpuFile cpuinfo (mkCollection [] None 0 0 0)) as [c0| |] eqn:P;
    cbn [bind] in H; try discriminate.
  injection H as <-.
  assert (K : current_is_last c0 /\ totalNumberOfSockets c0 = 0
              /\ totalNumberOfCpuCores c0 = 0
              /\ 0 <= processorSpeedMHz c0 < UINT_MODULUS).
  { destruct cpuinfo as [content|]; simpl in P.
    - unfold parseCpuFileContent in P.
      apply parseCpuFileLines_invariant in P as (H1 & _ & _ & H2 & H3 & H4); [|exact I].
      repeat split; try assumption; apply H4; simpl; unfold UINT_MODULUS; lia.
    - injection P as <-. simpl. unfold UINT_MODULUS. repeat split; lia. }
  destruct K as (Hlast & Hs & Ht & Hp).
  destruct c0 as [ps current speed sockets cores]. simpl in Hs, Ht, Hp. subst sockets cores.
  destruct (collect_from_zero ps current speed) as [Hsock Hcore].
  destruct (collectBasicCpuInformation_keeps (mkCollection ps current speed 0 0))
    as (Hps & Hcur & Hspeed).
  cbn [processors currentProcessor processorSpeedMHz] in Hps, Hcur, Hspeed, Hlast.
  cbv zeta in Hsock, Hcore.
  rewrite Hps. split; [exact Hsock|]. split; [exact Hcore|]. split.
  - rewrite Hsock. pose proof (distinct_sockets_le ps) as Hle.
    pose proof (to_unsigned_range (distinct_sockets ps)).
    assert (to_unsigned (distinct_sockets ps) <= distinct_sockets ps).
    { unfold to_unsigned. apply Z.mod_le; [lia | reflexivity]. }
    lia.
  - split; [rewrite Hcore; apply to_unsigned_range|].
    split; [rewrite Hspeed; exact Hp|]. split.
    + unfold current_is_last in *. rewrite Hcur, Hps. exact Hlast.
    + intros ->. simpl in P. injection P as <- <- <-. reflexivity.
Qed.

Lemma Collection_new_aggregates_witness :
  totalNumberOfSockets collection_wrapping
  = to_unsigned (distinct_sockets (processors collection_wrapping))
  /\ totalNumberOfCpuCores collection_wrapping
     = to_unsigned (cores_of_sockets (processors collection_wrapping))
  /\ 0 <= totalNumberOfSockets collection_wrapping
     <= Z.of_nat (List.length (processors collection_wrapping))
  /\ 0 <= totalNumberOfCpuCores collection_wrapping < UINT_MODULUS
  /\ 0 <= processorSpeedMHz collection_wrapping < UINT_MODULUS
  /\ current_is_last collection_wrapping
  /\ (Some cpuinfo_wrapping = None -> collection_wrapping = mkCollection [] None 0 0 0).
Proof.
  apply (Collection_new_aggregates (Some cpuinfo_wrapping) collection_wrapping).
  vm_compute. reflexivity.
Defined.


(** * Further properties of the manager *)

(** ** The permitted set *)

Lemma getDefaultCpuSet_members (c : Collection) :
  getNumberOfProcessors c <= INT_MAX ->
  exists set,
    getDefaultCpuSet c = Done set
    /\ forall cpu, CPU_ISSET cpu set = true
                   <-> 0 <= cpu < getNumberOfProcessors c /\ cpu < CPU_SETSIZE.
Proof.
  intros Hmax. pose proof (getNumberOfProcessors_nonneg c) as Hn.
  unfold getDefaultCpuSet.
  destruct (for_int_invariant
              (fun i set => forall cpu, CPU_ISSET cpu set = true
                                        <-> 0 <= cpu < i /\ cpu < CPU_SETSIZE)
              (fun processorId defaultCpuSet => Done (CPU_SET processorId defaultCpuSet))
              (Z.to_nat (getNumberOfProcessors c)) 0 CPU_ZERO) as (set & Hrun & Hset).
  - lia.
  - intros cpu. rewrite CPU_ISSET_ZERO. split; [discriminate | lia].
  - intros j t Hj Ht. eexists. split; [reflexivity|].
    intros cpu. rewrite CPU_ISSET_SET, orb_true_iff, andb_true_iff, Ht.
    rewrite cpu_in_range_spec, Z.eqb_eq. lia.
  - exists set. split; [exact Hrun|].
    replace (0 + Z.of_nat (Z.to_nat (getNumberOfProcessors c)))
      with (getNumberOfProcessors c) in Hset by lia.
    exact Hset.
Qed.

(** The permitted set is the mask of the calling thread when the
    scheduler gives it, whatever the topology; otherwise it is made of
    the processors below the number of records, as far as the set has
    room for them.  Nothing else of the manager changes. *)
Theorem getCurrentCpuSet_fallback (c : Collection) (self : Z) (w : World) (m : OpenMpManager) :
  getNumberOfProcessors c <= INT_MAX ->
  exists m',
    getCurrentCpuSet c self w m = Done m'
    /\ isGpuEnabled m' = isGpuEnabled m
    /\ isAnyOpenMpEnvVarSpecified m' = isAnyOpenMpEnvVarSpecified m
    /\ currentCoreSet m' = currentCoreSet m
    /\ match sched_getaffinity self w with
       | Some mask => currentCpuSet m' = mask
       | None =>
         forall cpu, CPU_ISSET cpu (currentCpuSet m') = true
                     <-> 0 <= cpu < getNumberOfProcessors c /\ cpu < CPU_SETSIZE
       end.
Proof.
  intros Hmax. unfold getCurrentCpuSet.
  destruct (sched_getaffinity self w) as [mask|].
  - exists (set_currentCpuSet mask m). repeat split.
  - destruct (getDefaultCpuSet_members c Hmax) as (set & -> & Hset).
    exists (set_currentCpuSet set m). split; [reflexivity|].
    split; [reflexivity|]. split; [reflexivity|]. split; [reflexivity|]. exact Hset.
Qed.

Lemma getCurrentCpuSet_fallback_witness :
  exists m',
    getCurrentCpuSet (topology 4 1 2) 0 (world None 4) (mkOpenMpManager false false 0 0)
    = Done m'
    /\ isGpuEnabled m' = false
    /\ isAnyOpenMpEnvVarSpecified m' = false
    /\ currentCoreSet m' = 0
    /\ forall cpu, CPU_ISSET cpu (currentCpuSet m') = true
                   <-> 0 <= cpu < getNumberOfProcessors (topology 4 1 2) /\ cpu < CPU_SETSIZE.
Proof.
  apply (getCurrentCpuSet_fallback (topology 4 1 2) 0 (world None 4)
           (mkOpenMpManager false false 0 0)).
  vm_compute. discriminate.
Defined.

(** ** The representatives of a full mask *)

Lemma filter_all {A : Type} (f : A -> bool) (l : list A) :
  (forall x, In x l -> f x = true) -> filter f l = l.
Proof.
  induction l as [|x l IH]; intros H; simpl; [reflexivity|].
  rewrite (H x) by (left; reflexivity). f_equal. apply IH.
  intros y Hy. apply H. right. exact Hy.
Qed.

Lemma members_interval (set : cpu_set_t) (k : Z) :
  0 <= k <= CPU_SETSIZE ->
  (forall cpu, CPU_ISSET cpu set = true <-> 0 <= cpu < k) ->
  CPU_members set = Zseq 0 (Z.to_nat k).
Proof.
  intros Hk Hset. unfold CPU_members.
  replace (Z.to_nat CPU_SETSIZE) with (Z.to_nat k + Z.to_nat (CPU_SETSIZE - k))%nat by lia.
  rewrite Zseq_app, filter_app, filter_all, filter_none; [apply app_nil_r | |].
  - intros cpu Hin. apply Zseq_In in Hin.
    destruct (CPU_ISSET cpu set) eqn:E; [|reflexivity]. apply Hset in E. lia.
  - intros cpu Hin. apply Zseq_In in Hin. apply Hset. lia.
Qed.

(** When every processor that the topology lists is permitted, the core
    representatives are the processors 0, 1, ... below the core count
    (and below the number of records and the size of the set). *)
Theorem getCurrentCoreSet_full_mask (c : Collection) (m m' : OpenMpManager) :
  0 < getTotalNumberOfCpuCores c ->
  getCurrentCoreSet c m = Done m' ->
  (forall cpu, 0 <= cpu < getNumberOfProcessors c -> cpu < CPU_SETSIZE ->
               CPU_ISSET cpu (currentCpuSet m) = true) ->
  CPU_members (currentCoreSet m')
  = Zseq 0 (Z.to_nat (Z.min (getTotalNumberOfCpuCores c)
                            (Z.min (getNumberOfProcessors c) CPU_SETSIZE)))
  /\ CPU_COUNT (currentCoreSet m')
     = Z.min (getTotalNumberOfCpuCores c) (Z.min (getNumberOfProcessors c) CPU_SETSIZE).
Proof.
  intros Htotal Hrun Hfull. pose proof (getNumberOfProcessors_nonneg c) as Hn.
  apply getCurrentCoreSet_done in Hrun as (_ & _ & _ & Hcpu & _ & Hlow).
  specialize (Hlow Htotal). rewrite Hcpu in Hlow.
  assert (Hsize : CPU_SETSIZE = 1024) by reflexivity.
  assert (Hset : forall cpu,
             CPU_ISSET cpu (currentCoreSet m') = true
             <-> 0 <= cpu < Z.min (getTotalNumberOfCpuCores c)
                                  (Z.min (getNumberOfProcessors c) CPU_SETSIZE)).
  { intros cpu. rewrite Hlow. unfold lowest_of_bucket, usable. split.
    - intros [[Hperm Hrange] Hleast].
      pose proof (CPU_ISSET_in_range _ _ Hperm) as Hr.
      destruct (Z.lt_ge_cases cpu (getTotalNumberOfCpuCores c)) as [Hlt|Hge]; [lia|].
      exfalso.
      pose proof (Z.mod_pos_bound cpu (getTotalNumberOfCpuCores c) Htotal) as Hb.
      assert (Hother : cpu <= cpu mod getTotalNumberOfCpuCores c).
      { apply Hleast.
        - split; [apply Hfull; lia | lia].
        - apply Z.mod_mod. lia. }
      lia.
    - intros Hcpu'. split; [split; [apply Hfull; lia | lia]|].
      intros other [_ Hor] Hb.
      rewrite (Z.mod_small cpu) in Hb by lia.
      pose proof (Z.mod_le other (getTotalNumberOfCpuCores c) (proj1 Hor) Htotal). lia. }
  assert (Hmem : CPU_members (currentCoreSet m')
                 = Zseq 0 (Z.to_nat (Z.min (getTotalNumberOfCpuCores c)
                                           (Z.min (getNumberOfProcessors c) CPU_SETSIZE)))).
  { apply members_interval; [lia | exact Hset]. }
  split; [exact Hmem|].
  rewrite CPU_COUNT_length, Hmem, Zseq_length. lia.
Qed.

Lemma getCurrentCoreSet_full_mask_witness :
  CPU_members (currentCoreSet (mkOpenMpManager false false 65535 255))
  = Zseq 0 (Z.to_nat (Z.min (getTotalNumberOfCpuCores (topology 16 2 8))
                            (Z.min (getNumberOfProcessors (topology 16 2 8)) CPU_SETSIZE)))
  /\ CPU_COUNT (currentCoreSet (mkOpenMpManager false false 65535 255))
     = Z.min (getTotalNumberOfCpuCores (topology 16 2 8))
             (Z.min (getNumberOfProcessors (topology 16 2 8)) CPU_SETSIZE).
Proof.
  apply (getCurrentCoreSet_full_mask (topology 16 2 8)
           (mkOpenMpManager false false 65535 0) (mkOpenMpManager false false 65535 255)).
  - reflexivity.
  - vm_compute. reflexivity.
  - intros cpu H _. change (getNumberOfProcessors (topology 16 2 8)) with 16 in H.
    assert (In cpu (Zseq 0 16)) as Hin by (apply Zseq_In; lia).
    simpl in Hin. repeat (destruct Hin as [<-|Hin]; [reflexivity|]). contradiction.
Defined.


(** ** Where the constructor divides by zero *)

Lemma for_int_zero_cores_outcome (cpuSet : cpu_set_t) :
  forall (count : nat) (i : Z) (sets : cpu_set_t * cpu_set_t),
    i + Z.of_nat count <= INT_MAX ->
    for_int count i (getCurrentCoreSet_body 0 cpuSet) sets
    = if existsb (fun cpu => CPU_ISSET cpu cpuSet) (Zseq i count) then Undefined
      else Done sets.
Proof.
  induction count as [|count IH]; intros i sets Hmax; [reflexivity|].
  cbn [for_int Zseq existsb]. unfold getCurrentCoreSet_body at 1. destruct sets as [used core].
  destruct (CPU_ISSET i cpuSet); [reflexivity|]. cbn [bind orb].
  destruct (Z.ltb_spec i INT_MAX) as [_|Hge]; [|lia].
  apply IH. lia.
Qed.

(** With a core count of zero the core deduplication is undefined iff a
    permitted processor is below the number of records; otherwise it
    returns the empty set. *)
Theorem getCurrentCoreSet_zero_cores (c : Collection) (m : OpenMpManager) :
  getTotalNumberOfCpuCores c = 0 ->
  getNumberOfProcessors c <= INT_MAX ->
  (getCurrentCoreSet c m = Undefined
   <-> exists cpu, usable (getNumberOfProcessors c) (currentCpuSet m) cpu)
  /\ (getCurrentCoreSet c m <> Undefined ->
      getCurrentCoreSet c m = Done (set_currentCoreSet CPU_ZERO m)).
Proof.
  intros Htotal Hmax. pose proof (getNumberOfProcessors_nonneg c) as Hn.
  rewrite getCurrentCoreSet_unfold, Htotal, for_int_zero_cores_outcome by lia.
  destruct (existsb (fun cpu => CPU_ISSET cpu (currentCpuSet m))
                    (Zseq 0 (Z.to_nat (getNumberOfProcessors c)))) eqn:E.
  - cbn [bind]. split; [|intros H; contradiction]. split; [intros _|reflexivity].
    apply existsb_exists in E as (cpu & Hin & Hperm). apply Zseq_In in Hin.
    exists cpu. split; [exact Hperm | lia].
  - cbn [bind]. split; [|reflexivity]. split; [discriminate|].
    intros (cpu & Hperm & Hrange). exfalso.
    assert (T : existsb (fun cpu => CPU_ISSET cpu (currentCpuSet m))
                        (Zseq 0 (Z.to_nat (getNumberOfProcessors c))) = true).
    { apply existsb_exists. exists cpu. split; [apply Zseq_In; lia | exact Hperm]. }
    congruence.
Qed.

Lemma getCurrentCoreSet_zero_cores_witness :
  (getCurrentCoreSet collection_without_cores (mkOpenMpManager false false 1 0) = Undefined
   <-> exists cpu, usable (getNumberOfProcessors collection_without_cores) 1 cpu)
  /\ (getCurrentCoreSet collection_without_cores (mkOpenMpManager false false 1 0)
      <> Undefined ->
      getCurrentCoreSet collection_without_cores (mkOpenMpManager false false 1 0)
      = Done (set_currentCoreSet CPU_ZERO (mkOpenMpManager false false 1 0))).
Proof.
  apply (getCurrentCoreSet_zero_cores collection_without_cores
           (mkOpenMpManager false false 1 0)).
  - reflexivity.
  - vm_compute. discriminate.
Defined.

(** ** The exact sibling set *)

Lemma selectAllCoreCpus_loop_only (n total : Z) (cpuSet : cpu_set_t) :
  0 < total <= INT_MAX + 1 -> n <= INT_MAX ->
  forall (fuel : nat) (processorId : Z) (set set' : cpu_set_t),
    0 <= processorId ->
    selectAllCoreCpus_loop fuel n total cpuSet processorId set = Done set' ->
    forall cpu, CPU_ISSET cpu set' = true ->
                CPU_ISSET cpu set = true
                \/ (processorId <= cpu /\ (cpu - processorId) mod total = 0).
Proof.
  intros Htotal Hn. unfold INT_MAX in *.
  induction fuel as [|fuel IH]; intros p set set' Hp H cpu Hc;
    rewrite selectAllCoreCpus_loop_unfold in H;
    destruct (Z.ltb_spec p n) as [Hlt|Hge]; try discriminate;
    try (injection H as <-; left; exact Hc).
  rewrite to_unsigned_small in H by (unfold UINT_MODULUS; lia).
  apply (IH (p + total)) with (cpu := cpu) in H; [|lia | exact Hc].
  destruct H as [H|[Hle Hmod]].
  - destruct (CPU_ISSET p cpuSet) eqn:Hperm; [|left; exact H].
    apply CPU_ISSET_SET_iff in H as [->|H];
      [|left; exact H | apply (CPU_ISSET_in_range _ _ Hperm)].
    right. split; [lia|]. rewrite Z.sub_diag. reflexivity.
  - right. split; [lia|].
    apply Zmod_divides in Hmod as [k Hk]; [|lia].
    apply Zmod_divides; [lia|]. exists (k + 1). lia.
Qed.

(** For a core count up to 2^31 the sibling set is exact: started from
    the empty set, [selectAllCoreCpus] returns the set of the permitted
    processors below the number of records that are congruent to the
    representative modulo the core count. *)
Theorem selectAllCoreCpus_exact (c : Collection) (m : OpenMpManager) (physicalCoreId : Z) :
  0 < getTotalNumberOfCpuCores c <= INT_MAX + 1 ->
  getNumberOfProcessors c <= INT_MAX ->
  exists set,
    selectAllCoreCpus c m CPU_ZERO physicalCoreId = Done set
    /\ forall cpu,
         CPU_ISSET cpu set = true
         <-> sibling_of (getNumberOfProcessors c) (getTotalNumberOfCpuCores c)
                        (currentCpuSet m) physicalCoreId cpu.
Proof.
  intros Htotal Hmax.
  destruct (selectAllCoreCpus_siblings c m CPU_ZERO physicalCoreId) as (set & Hrun & Hall & Honly);
    [unfold INT_MAX, UINT_MODULUS in *; lia | exact Hmax |].
  exists set. split; [exact Hrun|]. intros cpu. split; [|apply Hall].
  intros Hc. split.
  - apply Honly in Hc as [Hc|Hc]; [|exact Hc]. rewrite CPU_ISSET_ZERO in Hc. discriminate.
  - unfold selectAllCoreCpus in Hrun.
    destruct (Z.eqb_spec (getTotalNumberOfCpuCores c) 0) as [E|_]; [lia|].
    pose proof (Z.mod_pos_bound physicalCoreId (getTotalNumberOfCpuCores c) (proj1 Htotal)).
    apply (selectAllCoreCpus_loop_only _ _ _ Htotal Hmax) with (cpu := cpu) in Hrun;
      [|lia | exact Hc].
    destruct Hrun as [Hz|[Hle Hmod]]; [rewrite CPU_ISSET_ZERO in Hz; discriminate|].
    apply Zmod_divides in Hmod as [k Hk]; [|lia].
    replace cpu with (physicalCoreId mod getTotalNumberOfCpuCores c
                      + k * getTotalNumberOfCpuCores c) by lia.
    rewrite Z.mod_add by lia. apply Z.mod_mod. lia.
Qed.

Lemma selectAllCoreCpus_exact_witness :
  exists set,
    selectAllCoreCpus (topology 16 2 8) (mkOpenMpManager false false 65535 255) CPU_ZERO 3
    = Done set
    /\ forall cpu,
         CPU_ISSET cpu set = true
         <-> sibling_of (getNumberOfProcessors (topology 16 2 8))
                        (getTotalNumberOfCpuCores (topology 16 2 8)) 65535 3 cpu.
Proof.
  apply (selectAllCoreCpus_exact (topology 16 2 8) (mkOpenMpManager false false 65535 255) 3).
  - vm_compute. split; [reflexivity | discriminate].
  - vm_compute. discriminate.
Defined.

(** ** The team of the fan-out *)

(** With binding allowed, the fan-out returns iff the team of its region
    has no more threads than there are core representatives; with more
    (a team has at least one thread: when there is no representative) it
    ends in [LOG(FATAL)].  When it returns, the thread of number [i] has
    requested the mask of the representative of index [i] alone. *)
Theorem bindOpenMpThreads_team
    (c : Collection) (self0 : Z) (w0 : World) (m : OpenMpManager)
    (self : Z) (workers : list Z) (w : World) :
  OpenMpManager_new c self0 w0 = Done m ->
  isThreadsBindAllowed m = true ->
  NoDup (self :: workers) ->
  (Z.of_nat (List.length (omp_team self workers (setOpenMpThreadNumberLimit m w)))
   <= CPU_COUNT (currentCoreSet m) ->
   exists w',
     bindOpenMpThreads c m self workers w = Done w'
     /\ nthreads_var w' = CPU_COUNT (currentCoreSet m)
     /\ (forall i thread,
           nth_error (omp_team self workers (setOpenMpThreadNumberLimit m w)) i
           = Some thread ->
           exists cpu,
             nth_error (CPU_members (currentCoreSet m)) i = Some cpu
             /\ thread_affinity w' thread = Some (CPU_SET cpu CPU_ZERO))
     /\ (forall thread,
           ~ In thread (omp_team self workers (setOpenMpThreadNumberLimit m w)) ->
           thread_affinity w' thread = thread_affinity w thread))
  /\ (CPU_COUNT (currentCoreSet m)
      < Z.of_nat (List.length (omp_team self workers (setOpenMpThreadNumberLimit m w))) ->
      bindOpenMpThreads c m self workers w = Fatal).
Proof.
  intros Hnew Hallowed Hnd.
  apply OpenMpManager_new_facts in Hnew as (Hmax & _ & _ & Hsub & _).
  assert (Hbelow : forall cpu, CPU_ISSET cpu (currentCoreSet m) = true ->
                               cpu < getNumberOfProcessors c).
  { intros cpu H. apply Hsub in H as [[_ H] _]. lia. }
  pose proof (CPU_COUNT_range (currentCoreSet m)) as Hcount.
  pose proof (omp_team_length self workers (setOpenMpThreadNumberLimit m w)) as [Hone _].
  destruct (Z.eq_dec (CPU_COUNT (currentCoreSet m)) 0) as [Hzero|Hpos].
  - split; [intros Hlen; lia|]. intros _.
    apply bindOpenMpThreads_no_representative; assumption.
  - destruct (bindOpenMpThreads_binds c m self workers w Hmax Hbelow Hallowed Hnd)
      as (w' & Hrun & Hn & Hlen & Hteam & Hrest); [lia|].
    split; [|intros H; lia]. intros _.
    exists w'. split; [exact Hrun|]. split; [exact Hn|]. split; [exact Hteam | exact Hrest].
Qed.

Lemma bindOpenMpThreads_team_witness :
  (Z.of_nat (List.length 
        (omp_team 10 [11; 12] (setOpenMpThreadNumberLimit (mkOpenMpManager false false 15 3) (world (Some 15) 4)))) <= CPU_COUNT 3 ->
   exists w',
     bindOpenMpThreads (topology 4 1 2) (mkOpenMpManager false false 15 3) 10 [11; 12]
       (world (Some 15) 4) = Done w'
     /\ nthreads_var w' = CPU_COUNT 3
     /\ (forall i thread,
           nth_error 
        (omp_team 10 [11; 12] (setOpenMpThreadNumberLimit (mkOpenMpManager false false 15 3) (world (Some 15) 4))) i = Some thread ->
           exists cpu,
             nth_error (CPU_members 3) i = Some cpu
             /\ thread_affinity w' thread = Some (CPU_SET cpu CPU_ZERO))
     /\ (forall thread,
           ~ In thread 
        (omp_team 10 [11; 12] (setOpenMpThreadNumberLimit (mkOpenMpManager false false 15 3) (world (Some 15) 4))) ->
           thread_affinity w' thread = thread_affinity (world (Some 15) 4) thread))
  /\ (CPU_COUNT 3 < Z.of_nat (List.length 
        (omp_team 10 [11; 12] (setOpenMpThreadNumberLimit (mkOpenMpManager false false 15 3) (world (Some 15) 4)))) ->
      bindOpenMpThreads (topology 4 1 2) (mkOpenMpManager false false 15 3) 10 [11; 12]
        (world (Some 15) 4) = Fatal).
Proof.
  apply (bindOpenMpThreads_team (topology 4 1 2) 0 (world (Some 15) 4)
           (mkOpenMpManager false false 15 3) 10 [11; 12] (world (Some 15) 4)).
  - vm_compute. reflexivity.
  - reflexivity.
  - repeat constructor; simpl; intuition discriminate.
Defined.

(** ** No core representative *)

(** A collection without records: the constructor returns for every
    affinity mask and every core count, zero included, and there is no
    core representative. *)
Theorem OpenMpManager_new_no_records (c : Collection) (self : Z) (w0 : World) :
  processors c = [] ->
  exists m, OpenMpManager_new c self w0 = Done m /\ currentCoreSet m = CPU_ZERO.
Proof.
  intros Hps. unfold OpenMpManager_new.
  generalize (getOpenMpEnvVars w0 (mkOpenMpManager false false CPU_ZERO CPU_ZERO)).
  intros m0.
  assert (Hn : getNumberOfProcessors c = 0)
    by (unfold getNumberOfProcessors; rewrite Hps; reflexivity).
  unfold getCurrentCpuSet, getDefaultCpuSet, getCurrentCoreSet. rewrite Hn.
  destruct (sched_getaffinity self w0); eexists; split; reflexivity.
Qed.

Lemma OpenMpManager_new_no_records_witness :
  exists m, OpenMpManager_new (topology 0 0 0) 0 (world (Some 15) 4) = Done m
            /\ currentCoreSet m = CPU_ZERO.
Proof.
  apply (OpenMpManager_new_no_records (topology 0 0 0) 0 (world (Some 15) 4)).
  reflexivity.
Defined.

(** Where there is no core representative and binding is allowed, the
    reservation of a core ends in [LOG(FATAL)]. *)
Theorem no_representative_is_fatal
    (c : Collection) (self : Z) (w0 : World) (m : OpenMpManager) (caller : Z) (w : World) :
  OpenMpManager_new c self w0 = Done m ->
  CPU_COUNT (currentCoreSet m) = 0 ->
  isThreadsBindAllowed m = true ->
  bindCurrentThreadToNonPrimaryCoreIfPossible c m caller w = Fatal.
Proof.
  intros Hnew Hcount Hallowed.
  apply OpenMpManager_new_facts in Hnew as (Hmax & _ & _ & Hsub & _).
  unfold bindCurrentThreadToNonPrimaryCoreIfPossible. rewrite Hallowed, Hcount.
  cbn [Z.gtb Z.compare]. unfold bindCurrentThreadToLogicalCoreCpus.
  rewrite (getPhysicalCoreId_members c m 0 Hmax).
  - assert (N : nth_error (CPU_members (currentCoreSet m)) (Z.to_nat 0) = None).
    { apply nth_error_None. rewrite CPU_COUNT_length in Hcount. lia. }
    rewrite N. reflexivity.
  - intros cpu H. apply Hsub in H as [[_ H] _]. lia.
  - unfold UINT_MODULUS. lia.
Qed.

Lemma no_representative_is_fatal_witness :
  bindCurrentThreadToNonPrimaryCoreIfPossible (topology 0 0 0)
    (mkOpenMpManager false false 15 0) 5 (world (Some 15) 4) = Fatal.
Proof.
  apply (no_representative_is_fatal (topology 0 0 0) 0 (world (Some 15) 4)).
  - vm_compute. reflexivity.
  - vm_compute. reflexivity.
  - reflexivity.
Defined.


(** * The parser on the text of a topology *)

(** ** Numerals *)

Lemma digit_cases (d : Z) :
  0 <= d < 10 ->
  d = 0 \/ d = 1 \/ d = 2 \/ d = 3 \/ d = 4 \/ d = 5 \/ d = 6 \/ d = 7 \/ d = 8 \/ d = 9.
Proof. lia. Qed.

Ltac by_digit d H :=
  apply digit_cases in H;
  repeat (destruct H as [H|H]; [subst d; reflexivity|]); subst d; reflexivity.

Lemma digit_value_digit_char (d : Z) : 0 <= d < 10 -> digit_value (digit_char d) = Some d.
Proof. intros H. by_digit d H. Qed.

Lemma digit_char_not_newline (d : Z) :
  0 <= d < 10 -> Ascii.eqb (digit_char d) "010" = false.
Proof. intros H. by_digit d H. Qed.

Lemma digit_char_not_nul (d : Z) :
  0 <= d < 10 -> Ascii.eqb (digit_char d) "000" = false.
Proof. intros H. by_digit d H. Qed.

(** A numeral is read as it stands: no white space and no sign to skip. *)
Lemma atol_digit_head (d : Z) (rest : string) :
  0 <= d < 10 ->
  atol (String (digit_char d) rest)
  = let '(magnitude, _, _) := read_digits digit_value 10 (String (digit_char d) rest) 0 0 in
    if (LONG_MIN <=? magnitude) && (magnitude <=? LONG_MAX) then Done magnitude
    else Undefined.
Proof. intros H. by_digit d H. Qed.

Lemma decimal_digits_app (fuel : nat) :
  forall n acc suffix,
    (decimal_digits fuel n acc ++ suffix)%string = decimal_digits fuel n (acc ++ suffix).
Proof.
  induction fuel as [|fuel IH]; intros n acc suffix; [reflexivity|].
  cbn [decimal_digits]. destruct (n / 10 =? 0); [reflexivity|]. apply IH.
Qed.

Lemma decimal_digits_head (fuel : nat) :
  forall n acc,
    0 <= n ->
    exists d rest,
      0 <= d < 10 /\ decimal_digits (S fuel) n acc = String (digit_char d) rest.
Proof.
  induction fuel as [|fuel IH]; intros n acc Hn.
  - cbn [decimal_digits]. exists (n mod 10), acc.
    split; [apply Z.mod_pos_bound; lia|]. destruct (n / 10 =? 0); reflexivity.
  - change (decimal_digits (S (S fuel)) n acc)
      with (if n / 10 =? 0 then String (digit_char (n mod 10)) acc
            else decimal_digits (S fuel) (n / 10) (String (digit_char (n mod 10)) acc)).
    destruct (n / 10 =? 0).
    + exists (n mod 10), acc. split; [apply Z.mod_pos_bound; lia | reflexivity].
    + apply IH. apply Z.div_pos; lia.
Qed.

(** Reading the digits of [n] adds [n] behind what was read before. *)
Lemma read_digits_decimal (fuel : nat) :
  forall n acc,
    0 <= n < 10 ^ Z.of_nat fuel ->
    exists k,
      0 <= k
      /\ forall value count,
           read_digits digit_value 10 (decimal_digits fuel n acc) value count
           = read_digits digit_value 10 acc (value * 10 ^ k + n) (count + k).
Proof.
  induction fuel as [|fuel IH]; intros n acc Hn.
  - exists 0. split; [lia|]. intros value count. simpl in Hn.
    replace (value * 10 ^ 0 + n) with value by lia. rewrite Z.add_0_r. reflexivity.
  - rewrite Nat2Z.inj_succ, Z.pow_succ_r in Hn by lia.
    pose proof (Z.mod_pos_bound n 10 ltac:(lia)) as Hmod.
    pose proof (Z.div_mod n 10 ltac:(lia)) as Hdiv.
    cbn [decimal_digits]. destruct (Z.eqb_spec (n / 10) 0) as [E|Hne].
    + exists 1. split; [lia|]. intros value count. cbn [read_digits].
      rewrite digit_value_digit_char by exact Hmod. f_equal; lia.
    + destruct (IH (n / 10) (String (digit_char (n mod 10)) acc)) as (k & Hk & Hread).
      { split; [apply Z.div_pos; lia|]. apply Z.div_lt_upper_bound; lia. }
      exists (k + 1). split; [lia|]. intros value count. rewrite Hread. cbn [read_digits].
      rewrite digit_value_digit_char by exact Hmod.
      rewrite Z.pow_add_r by lia. f_equal; lia.
Qed.

(** [atol] reads the numeral of an [unsigned] back, whatever follows it
    that is not a digit. *)
Lemma atol_decimal (n : Z) (suffix : string) :
  0 <= n < UINT_MODULUS ->
  (forall value count,
     read_digits digit_value 10 suffix value count = (value, count, suffix)) ->
  atol (decimal n ++ suffix) = Done n.
Proof.
  intros Hn Hsuffix. unfold decimal. rewrite decimal_digits_app.
  change (EmptyString ++ suffix)%string with suffix.
  destruct (decimal_digits_head 9 n suffix (proj1 Hn)) as (d & rest & Hd & Hhead).
  destruct (read_digits_decimal 10 n suffix) as (k & Hk & Hread).
  { unfold UINT_MODULUS in Hn. simpl. lia. }
  specialize (Hread 0 0). rewrite Hsuffix in Hread.
  rewrite Hhead in *. rewrite atol_digit_head by exact Hd. rewrite Hread.
  replace (0 * 10 ^ k + n) with n by lia.
  unfold LONG_MIN, LONG_MAX, UINT_MODULUS in *.
  destruct (Z.leb_spec (- 2 ^ 63) n); [|lia].
  destruct (Z.leb_spec n (2 ^ 63 - 1)); [reflexivity | lia].
Qed.



(** ** Field lines and records *)

Lemma newline_ends_number :
  forall value count,
    read_digits digit_value 10 newline value count = (value, count, newline).
Proof. reflexivity. Qed.

Lemma parseInteger_decimal (f : field) (v : Z) (c : Collection) (i : nat) :
  0 <= v < UINT_MODULUS ->
  currentProcessor c = Some i ->
  parseInteger f (Some (decimal v ++ newline)%string) c
  = Done (set_processors (update_at i (store_field f v) (processors c)) c).
Proof.
  intros Hv Hcur. unfold parseInteger. cbn [read_string bind].
  rewrite (atol_decimal v newline Hv newline_ends_number). cbn [bind].
  rewrite Hcur, to_unsigned_small by exact Hv. reflexivity.
Qed.

Lemma field_line_processor (digits : string) (c : Collection) :
  parseCpuFileLine ("processor" ++ tab ++ ": " ++ digits ++ newline) c
  = parseInteger field_processor (Some (digits ++ newline)%string)
      match currentProcessor c with None => appendNewProcessor c | Some _ => c end.
Proof. reflexivity. Qed.

Lemma field_line_physicalId (digits : string) (c : Collection) :
  parseCpuFileLine ("physical id" ++ tab ++ ": " ++ digits ++ newline) c
  = parseInteger field_physicalId (Some (digits ++ newline)%string)
      match currentProcessor c with None => appendNewProcessor c | Some _ => c end.
Proof. reflexivity. Qed.

Lemma field_line_siblings (digits : string) (c : Collection) :
  parseCpuFileLine ("siblings" ++ tab ++ ": " ++ digits ++ newline) c
  = parseInteger field_siblings (Some (digits ++ newline)%string)
      match currentProcessor c with None => appendNewProcessor c | Some _ => c end.
Proof. reflexivity. Qed.

Lemma field_line_coreId (digits : string) (c : Collection) :
  parseCpuFileLine (("core id" ++ tab) ++ tab ++ ": " ++ digits ++ newline) c
  = parseInteger field_coreId (Some (digits ++ newline)%string)
      match currentProcessor c with None => appendNewProcessor c | Some _ => c end.
Proof. reflexivity. Qed.

Lemma field_line_cpuCores (digits : string) (c : Collection) :
  parseCpuFileLine ("cpu cores" ++ tab ++ ": " ++ digits ++ newline) c
  = parseInteger field_cpuCores (Some (digits ++ newline)%string)
      match currentProcessor c with None => appendNewProcessor c | Some _ => c end.
Proof. reflexivity. Qed.

Lemma update_at_last {A : Type} (f : A -> A) (l : list A) (x : A) :
  update_at (List.length l) f (l ++ [x]) = (l ++ [f x])%list.
Proof. induction l as [|y l IH]; simpl; [reflexivity | rewrite IH; reflexivity]. Qed.

Lemma field_step (f : field) (v : Z) (ps : list Processor) (x : Processor)
    (speed sockets cores : Z) :
  0 <= v < UINT_MODULUS ->
  parseInteger f (Some (decimal v ++ newline)%string)
    (mkCollection (ps ++ [x]) (Some (List.length ps)) speed sockets cores)
  = Done (mkCollection (ps ++ [store_field f v x]) (Some (List.length ps)) speed sockets cores).
Proof.
  intros Hv. rewrite (parseInteger_decimal f v _ (List.length ps) Hv) by reflexivity.
  unfold set_processors.
  cbn [processors currentProcessor processorSpeedMHz totalNumberOfSockets
       totalNumberOfCpuCores].
  rewrite update_at_last. reflexivity.
Qed.

(** The six lines of a record, read with no record open, add the record
    behind the others and leave no record open. *)
Lemma parse_record_lines (p : Processor) (rest : list string)
    (ps : list Processor) (speed sockets cores : Z) :
  unsigned_fields p ->
  parseCpuFileLines (record_lines p ++ rest) (mkCollection ps None speed sockets cores)
  = parseCpuFileLines rest (mkCollection (ps ++ [p]) None speed sockets cores).
Proof.
  intros (H1 & H2 & H3 & H4 & H5). destruct p as [v1 v2 v3 v4 v5].
  cbn [processor physicalId siblings coreId cpuCores] in H1, H2, H3, H4, H5.
  unfold record_lines, field_line.
  cbn [app parseCpuFileLines processor physicalId siblings coreId cpuCores].
  rewrite field_line_processor.
  change (match currentProcessor (mkCollection ps None speed sockets cores) with
          | None => appendNewProcessor (mkCollection ps None speed sockets cores)
          | Some _ => mkCollection ps None speed sockets cores
          end)
    with (mkCollection (ps ++ [Processor_new]) (Some (List.length ps)) speed sockets cores).
  rewrite (field_step _ v1 ps _ speed sockets cores H1). cbn [bind].
  rewrite field_line_physicalId. cbn [currentProcessor].
  rewrite (field_step _ v2 ps _ speed sockets cores H2). cbn [bind].
  rewrite field_line_siblings. cbn [currentProcessor].
  rewrite (field_step _ v3 ps _ speed sockets cores H3). cbn [bind].
  rewrite field_line_coreId. cbn [currentProcessor].
  rewrite (field_step _ v4 ps _ speed sockets cores H4). cbn [bind].
  rewrite field_line_cpuCores. cbn [currentProcessor].
  rewrite (field_step _ v5 ps _ speed sockets cores H5). cbn [bind].
  reflexivity.
Qed.

Lemma parse_cpuinfo_lines (ps : list Processor) :
  forall (before : list Processor) (speed sockets cores : Z),
    Forall unsigned_fields ps ->
    parseCpuFileLines (cpuinfo_lines ps) (mkCollection before None speed sockets cores)
    = Done (mkCollection (before ++ ps) None speed sockets cores).
Proof.
  induction ps as [|p ps IH]; intros before speed sockets cores Hps.
  - simpl. rewrite app_nil_r. reflexivity.
  - inversion Hps as [|? ? Hp Hps']. subst.
    change (cpuinfo_lines (p :: ps)) with (record_lines p ++ cpuinfo_lines ps)%list.
    rewrite (parse_record_lines p _ before speed sockets cores Hp), (IH _ _ _ _ Hps').
    rewrite <- app_assoc. reflexivity.
Qed.

(** [parseInteger] reads the numeral of any [unsigned] back: on the
    decimal digits of [v] and a newline it stores [v] in the field of the
    current record and changes nothing else. *)
Theorem parseInteger_round_trip (f : field) (v : Z) (c : Collection) (i : nat) :
  0 <= v < UINT_MODULUS ->
  currentProcessor c = Some i ->
  parseInteger f (Some (decimal v ++ newline)%string) c
  = Done (set_processors (update_at i (store_field f v) (processors c)) c).
Proof. apply parseInteger_decimal. Qed.

Lemma parseInteger_round_trip_witness :
  parseInteger field_siblings (Some (decimal 4294967295 ++ newline)%string)
    (mkCollection [Processor_new; Processor_new] (Some 1%nat) 0 0 0)
  = Done (set_processors
            (update_at 1 (store_field field_siblings 4294967295)
               (processors (mkCollection [Processor_new; Processor_new] (Some 1%nat) 0 0 0)))
            (mkCollection [Processor_new; Processor_new] (Some 1%nat) 0 0 0)).
Proof.
  apply (parseInteger_round_trip field_siblings 4294967295
           (mkCollection [Processor_new; Processor_new] (Some 1%nat) 0 0 0) 1).
  - vm_compute. split; [discriminate | reflexivity].
  - reflexivity.
Defined.


(** ** Lines of a file *)

Lemma string_app_assoc (a b c : string) : ((a ++ b) ++ c = a ++ (b ++ c))%string.
Proof. induction a as [|x a IH]; cbn [String.append]; [reflexivity | rewrite IH; reflexivity]. Qed.

Lemma string_app_nil (a : string) : (a ++ EmptyString)%string = a.
Proof. induction a as [|x a IH]; cbn [String.append]; [reflexivity | rewrite IH; reflexivity]. Qed.

Lemma string_mem_app (ch : ascii) (a b : string) :
  string_mem ch (a ++ b) = string_mem ch a || string_mem ch b.
Proof.
  induction a as [|x a IH]; cbn [String.append string_mem]; [reflexivity|].
  rewrite IH, orb_assoc. reflexivity.
Qed.

Lemma string_length_app (a b : string) :
  String.length (a ++ b) = (String.length a + String.length b)%nat.
Proof. induction a as [|x a IH]; cbn [String.append String.length plus]; [reflexivity | rewrite IH; reflexivity]. Qed.

(** One call of [fgets] on a line that fits returns the line. *)
Lemma fgets_lines_line (size : nat) (body : string) :
  forall (rest line : string) (room : nat),
    string_mem "010" body = false ->
    (String.length body < room)%nat ->
    fgets_lines size (body ++ newline ++ rest) line room
    = (line ++ body ++ newline)%string :: fgets_lines size rest EmptyString (size - 1).
Proof.
  induction body as [|ch body IH]; intros rest line room Hmem Hroom.
  - reflexivity.
  - cbn [string_mem] in Hmem. apply orb_false_elim in Hmem. destruct Hmem as [Hch Hmem].
    cbn [String.length] in Hroom. cbn [String.append fgets_lines].
    rewrite Ascii.eqb_sym, Hch. cbn [orb].
    destruct (Nat.leb_spec room 1) as [Hle|Hgt]; [lia|].
    rewrite (IH rest _ (room - 1)%nat Hmem) by lia.
    rewrite string_app_assoc. reflexivity.
Qed.

Lemma fgets_lines_whole_lines (size : nat) (lines : list string) :
  Forall (whole_line size) lines ->
  fgets_lines size (fold_right String.append EmptyString lines) EmptyString (size - 1)
  = lines.
Proof.
  induction 1 as [|l lines (body & -> & Hmem & Hlen) _ IH]; [reflexivity|].
  cbn [fold_right]. rewrite string_app_assoc.
  rewrite (fgets_lines_line size body _ EmptyString (size - 1)%nat Hmem) by lia.
  rewrite IH. reflexivity.
Qed.


Lemma c_string_id (s : string) : string_mem "000" s = false -> c_string s = s.
Proof.
  induction s as [|ch s IH]; intros H; [reflexivity|].
  cbn [string_mem] in H. apply orb_false_elim in H. destruct H as [Hch Hs].
  cbn [c_string]. rewrite Ascii.eqb_sym, Hch, (IH Hs). reflexivity.
Qed.





(** ** The file of a topology *)

Lemma decimal_digits_shape (fuel : nat) :
  forall n acc,
    0 <= n ->
    exists digits,
      decimal_digits fuel n acc = (digits ++ acc)%string
      /\ string_mem "010" digits = false
      /\ string_mem "000" digits = false
      /\ (String.length digits <= fuel)%nat.
Proof.
  induction fuel as [|fuel IH]; intros n acc Hn.
  - exists EmptyString. repeat split. simpl. lia.
  - pose proof (Z.mod_pos_bound n 10 ltac:(lia)) as Hmod.
    cbn [decimal_digits]. destruct (n / 10 =? 0).
    + exists (String (digit_char (n mod 10)) EmptyString). split; [reflexivity|].
      cbn [string_mem String.length].
      rewrite (Ascii.eqb_sym "010"), (Ascii.eqb_sym "000"),
        digit_char_not_newline, digit_char_not_nul by exact Hmod.
      split; [reflexivity|]. split; [reflexivity | lia].
    + destruct (IH (n / 10) (String (digit_char (n mod 10)) acc))
        as (ds & E & Hmem & Hnul & Hlen).
      { apply Z.div_pos; lia. }
      exists (ds ++ String (digit_char (n mod 10)) EmptyString)%string.
      rewrite E, string_app_assoc. split; [reflexivity|].
      rewrite !string_mem_app, Hmem, Hnul, string_length_app.
      cbn [string_mem String.length orb].
      rewrite (Ascii.eqb_sym "010"), (Ascii.eqb_sym "000"),
        digit_char_not_newline, digit_char_not_nul by exact Hmod.
      split; [reflexivity|]. split; [reflexivity | lia].
Qed.

Lemma field_line_whole (name : string) (value : Z) :
  string_mem "010" name = false ->
  string_mem "000" name = false ->
  (String.length name <= 16)%nat ->
  0 <= value ->
  whole_line 1024 (field_line name value)
  /\ c_string (field_line name value) = field_line name value.
Proof.
  intros Hname Hnul Hlen Hv.
  destruct (decimal_digits_shape 10 value EmptyString Hv) as (ds & E & Hmem & Hds0 & Hds).
  rewrite string_app_nil in E. unfold field_line, decimal. rewrite E. split.
  - exists (name ++ tab ++ ": " ++ ds)%string. split; [|split].
    + rewrite !string_app_assoc. reflexivity.
    + rewrite !string_mem_app, Hname, Hmem. reflexivity.
    + rewrite !string_length_app. cbn [tab String.length]. lia.
  - apply c_string_id. rewrite !string_mem_app, Hnul, Hds0. reflexivity.
Qed.

Lemma record_lines_whole (p : Processor) :
  unsigned_fields p ->
  Forall (whole_line 1024) (record_lines p)
  /\ map c_string (record_lines p) = record_lines p.
Proof.
  intros (H1 & H2 & H3 & H4 & H5). unfold record_lines.
  destruct (field_line_whole "processor" (processor p)) as [W1 C1];
    [reflexivity | reflexivity | simpl; lia | lia |].
  destruct (field_line_whole "physical id" (physicalId p)) as [W2 C2];
    [reflexivity | reflexivity | simpl; lia | lia |].
  destruct (field_line_whole "siblings" (siblings p)) as [W3 C3];
    [reflexivity | reflexivity | simpl; lia | lia |].
  destruct (field_line_whole ("core id" ++ tab) (coreId p)) as [W4 C4];
    [reflexivity | reflexivity | simpl; lia | lia |].
  destruct (field_line_whole "cpu cores" (cpuCores p)) as [W5 C5];
    [reflexivity | reflexivity | simpl; lia | lia |].
  split.
  - repeat (apply Forall_cons; [assumption|]).
    apply Forall_cons; [|apply Forall_nil].
    exists EmptyString. repeat split. simpl. lia.
  - cbn [map]. rewrite C1, C2, C3, C4, C5. reflexivity.
Qed.

Lemma cpuinfo_lines_whole (ps : list Processor) :
  Forall unsigned_fields ps ->
  Forall (whole_line 1024) (cpuinfo_lines ps)
  /\ map c_string (cpuinfo_lines ps) = cpuinfo_lines ps.
Proof.
  induction 1 as [|p ps Hp _ [IHw IHc]]; [split; [apply Forall_nil | reflexivity]|].
  change (cpuinfo_lines (p :: ps)) with (record_lines p ++ cpuinfo_lines ps)%list.
  destruct (record_lines_whole p Hp) as [Hw Hc]. split.
  - apply Forall_app. split; assumption.
  - rewrite map_app, Hc, IHc. reflexivity.
Qed.

Lemma collectBasicCpuInformation_record (ps : list Processor) (speed : Z) :
  collectBasicCpuInformation (mkCollection ps None speed 0 0)
  = mkCollection ps None speed (to_unsigned (distinct_sockets ps))
      (to_unsigned (cores_of_sockets ps)).
Proof.
  destruct (collect_from_zero ps None speed) as [Hsockets Hcores].
  destruct (collectBasicCpuInformation_keeps (mkCollection ps None speed 0 0))
    as (Hps & Hcurrent & Hspeed).
  cbv zeta in Hsockets, Hcores.
  destruct (collectBasicCpuInformation (mkCollection ps None speed 0 0))
    as [ps' current' speed' sockets' cores'].
  cbn [processors currentProcessor processorSpeedMHz totalNumberOfSockets
       totalNumberOfCpuCores] in *.
  subst. reflexivity.
Qed.

(** Round trip on files: the constructor on the file that lists any
    records with fields of [unsigned] holds exactly these records, in
    order, with no record open and no clock speed, and the socket and
    core counts of these records. *)
Theorem Collection_new_cpuinfo_text (ps : list Processor) :
  Forall unsigned_fields ps ->
  Collection_new (Some (cpuinfo_text ps))
  = Done (mkCollection ps None 0 (to_unsigned (distinct_sockets ps))
            (to_unsigned (cores_of_sockets ps))).
Proof.
  intros Hps. unfold Collection_new, parseCpuFile, parseCpuFileContent, cpuinfo_text.
  destruct (cpuinfo_lines_whole ps Hps) as [Hwhole Hstrings].
  pose proof (fgets_lines_whole_lines 1024 _ Hwhole) as Hlines.
  change (1024 - 1)%nat with 1023%nat in Hlines. rewrite Hlines, Hstrings.
  rewrite (parse_cpuinfo_lines ps [] 0 0 0 Hps). cbn [bind app].
  rewrite collectBasicCpuInformation_record. reflexivity.
Qed.

Lemma Collection_new_cpuinfo_text_witness :
  Collection_new (Some (cpuinfo_text [mkProcessor 0 0 2 0 1; mkProcessor 1 0 2 0 1;
                                      mkProcessor 2 1 2 0 1; mkProcessor 3 1 2 0 1]))
  = Done (mkCollection [mkProcessor 0 0 2 0 1; mkProcessor 1 0 2 0 1;
                        mkProcessor 2 1 2 0 1; mkProcessor 3 1 2 0 1] None 0
            (to_unsigned (distinct_sockets [mkProcessor 0 0 2 0 1; mkProcessor 1 0 2 0 1;
                                            mkProcessor 2 1 2 0 1; mkProcessor 3 1 2 0 1]))
            (to_unsigned (cores_of_sockets [mkProcessor 0 0 2 0 1; mkProcessor 1 0 2 0 1;
                                            mkProcessor 2 1 2 0 1; mkProcessor 3 1 2 0 1]))).
Proof.
  apply (Collection_new_cpuinfo_text [mkProcessor 0 0 2 0 1; mkProcessor 1 0 2 0 1;
                                      mkProcessor 2 1 2 0 1; mkProcessor 3 1 2 0 1]).
  repeat constructor; vm_compute; congruence.
Defined.
